(** * cc-sessions: the entity store, the search index and the retention manager

    A shallow embedding of [src/store/sessions.ts] (SessionStore and
    SearchIndex) and [src/store/retention.ts] (RetentionManager), together
    with the part of the platform the two files lean on: JSON text, the SQL
    statements of the schema (tables, triggers, LIKE, the FTS5 index) and a
    file system of sized files.  [CloudSync.sync] of [src/sync/cloud.ts],
    which drives the store, is embedded over a remote side given by its
    three calls.

    Conventions.
    - a JavaScript [number] that holds a count or a timestamp is a [Z];
      a [Date] is its [getTime()] value in milliseconds;
    - a JavaScript string is a [string] of bytes (its UTF-8 form, which is
      what SQLite stores);
    - an optional member ([x?: T]) and a nullable column are an [option];
    - the clock ([Date.now()]) is an argument of the operations that read it;
    - an operation on the store takes the store and returns the new one. *)

From Stdlib Require Import ZArith List String Ascii Bool Lia Arith QArith Qabs.
From Stdlib Require Import Permutation Sorted.
Import ListNotations.
Local Open Scope Z_scope.
Local Open Scope list_scope.

(* ================================================================== *)
(** * JavaScript values and array helpers *)

Module Js.

(** Truthiness of the values the store tests with [x ? a : b], [x || d]
    and [!x]: a number is falsy when it is 0, a string when it is empty,
    [null]/[undefined] always. *)
Definition truthy_number (n : Z) : bool := negb (n =? 0).
Definition truthy_string (s : string) : bool :=
  match s with EmptyString => false | _ => true end.

Definition truthy_opt_number (v : option Z) : bool :=
  match v with Some n => truthy_number n | None => false end.
Definition truthy_opt_string (v : option string) : bool :=
  match v with Some s => truthy_string s | None => false end.

(** [v || null] on an optional number and on an optional string. *)
Definition or_null_number (v : option Z) : option Z :=
  if truthy_opt_number v then v else None.
Definition or_null_string (v : option string) : option string :=
  if truthy_opt_string v then v else None.

(** [String(v || '')] on a nullable text column. *)
Definition string_or_empty (v : option string) : string :=
  match v with Some s => s | None => EmptyString end.

(** [arr.slice(0, n)]: a negative [n] counts from the end. *)
Definition slice0 {A} (n : Z) (l : list A) : list A :=
  if 0 <=? n then firstn (Z.to_nat n) l
  else firstn (List.length l - Z.to_nat (- n)) l.

(** [arr.includes(x)] on strings. *)
Definition includes (l : list string) (x : string) : bool :=
  existsb (String.eqb x) l.

(** [arr.sort(cmp)] is stable (ECMAScript 2019).  [lt a b] is
    [cmp(a, b) < 0], "a comes before b". *)
Section Sort.
Context {A : Type} (lt : A -> A -> bool).

(* [x] stood in front of every element of [l]: it goes in front of the
   first one that does not come strictly before it, so equal elements keep
   their order. *)
Fixpoint insert (x : A) (l : list A) : list A :=
  match l with
  | [] => [x]
  | y :: l' => if lt y x then y :: insert x l' else x :: y :: l'
  end.

Fixpoint sort (l : list A) : list A :=
  match l with
  | [] => []
  | x :: l' => insert x (sort l')
  end.
End Sort.

End Js.

(* ================================================================== *)
(** * JSON text

    [JSON.stringify] and [JSON.parse] on the values the store serialises:
    arrays of strings and arrays of task objects.  Numbers do not occur in
    what [save] writes and are not part of the fragment (a text holding one
    does not parse). *)

Module JSON.

Unset Elimination Schemes.
Inductive json : Type :=
| JNull
| JBool (b : bool)
| JString (s : string)
| JArray (elems : list json)
| JObject (members : list (string * json)).
Set Elimination Schemes.

Definition dquote : ascii := ascii_of_nat 34.
Definition backslash : ascii := ascii_of_nat 92.

Definition hex_digit (n : nat) : ascii :=
  nth n (list_ascii_of_string "0123456789abcdef") "0"%char.

(** QuoteJSONString: the two-character escapes, [\u00xx] for the other
    control characters, every other byte as it is. *)
Definition escape_char (c : ascii) : list ascii :=
  let n := nat_of_ascii c in
  if (n =? 34)%nat then [backslash; dquote]
  else if (n =? 92)%nat then [backslash; backslash]
  else if (n =? 8)%nat then [backslash; "b"%char]
  else if (n =? 12)%nat then [backslash; "f"%char]
  else if (n =? 10)%nat then [backslash; "n"%char]
  else if (n =? 13)%nat then [backslash; "r"%char]
  else if (n =? 9)%nat then [backslash; "t"%char]
  else if (n <? 32)%nat then
    [backslash; "u"%char; "0"%char; "0"%char;
     hex_digit (n / 16); hex_digit (n mod 16)]
  else [c].

Definition quote (s : string) : list ascii :=
  dquote :: flat_map escape_char (list_ascii_of_string s) ++ [dquote].

Fixpoint sep_concat (parts : list (list ascii)) : list ascii :=
  match parts with
  | [] => []
  | [p] => p
  | p :: rest => p ++ ","%char :: sep_concat rest
  end.

Fixpoint stringify_chars (v : json) : list ascii :=
  match v with
  | JNull => list_ascii_of_string "null"
  | JBool true => list_ascii_of_string "true"
  | JBool false => list_ascii_of_string "false"
  | JString s => quote s
  | JArray l => "["%char :: sep_concat (map stringify_chars l) ++ ["]"%char]
  | JObject m =>
      "{"%char ::
      sep_concat (map (fun kv => quote (fst kv) ++ ":"%char :: stringify_chars (snd kv)) m)
      ++ ["}"%char]
  end.

Definition stringify (v : json) : string :=
  string_of_list_ascii (stringify_chars v).

(** ** Parsing *)

Definition is_ws (c : ascii) : bool :=
  let n := nat_of_ascii c in
  ((n =? 32) || (n =? 9) || (n =? 10) || (n =? 13))%nat.

Fixpoint skip_ws (s : list ascii) : list ascii :=
  match s with
  | c :: r => if is_ws c then skip_ws r else s
  | [] => []
  end.

Definition hex_value (c : ascii) : option nat :=
  let n := nat_of_ascii c in
  if ((48 <=? n) && (n <=? 57))%nat then Some (n - 48)%nat
  else if ((97 <=? n) && (n <=? 102))%nat then Some (n - 87)%nat
  else if ((65 <=? n) && (n <=? 70))%nat then Some (n - 55)%nat
  else None.

Definition hex4 (a b c d : ascii) : option nat :=
  match hex_value a, hex_value b, hex_value c, hex_value d with
  | Some x, Some y, Some z, Some w => Some (((x * 16 + y) * 16 + z) * 16 + w)%nat
  | _, _, _, _ => None
  end.

(** The UTF-8 bytes of a code unit written [\uXXXX] (a surrogate is
    encoded as it stands). *)
Definition utf8 (n : nat) : list ascii :=
  if (n <? 128)%nat then [ascii_of_nat n]
  else if (n <? 2048)%nat then
    [ascii_of_nat (192 + n / 64); ascii_of_nat (128 + n mod 64)]
  else
    [ascii_of_nat (224 + n / 4096); ascii_of_nat (128 + (n / 64) mod 64);
     ascii_of_nat (128 + n mod 64)].

Definition unescape (e : ascii) : option ascii :=
  let n := nat_of_ascii e in
  if (n =? 34)%nat then Some dquote
  else if (n =? 92)%nat then Some backslash
  else if (n =? 47)%nat then Some "/"%char
  else if (n =? 98)%nat then Some (ascii_of_nat 8)
  else if (n =? 102)%nat then Some (ascii_of_nat 12)
  else if (n =? 110)%nat then Some (ascii_of_nat 10)
  else if (n =? 114)%nat then Some (ascii_of_nat 13)
  else if (n =? 116)%nat then Some (ascii_of_nat 9)
  else None.

Definition prepend (cs : list ascii) (r : option (list ascii * list ascii))
  : option (list ascii * list ascii) :=
  match r with
  | Some (body, rest) => Some (cs ++ body, rest)
  | None => None
  end.

(** The characters of a string literal after its opening quote, and what
    follows the closing quote. *)
Fixpoint parse_body (s : list ascii) : option (list ascii * list ascii) :=
  match s with
  | [] => None
  | c :: r =>
      if Ascii.eqb c dquote then Some ([], r)
      else if Ascii.eqb c backslash then
        match r with
        | [] => None
        | e :: r' =>
            if Ascii.eqb e "u"%char then
              match r' with
              | h1 :: h2 :: h3 :: h4 :: r'' =>
                  match hex4 h1 h2 h3 h4 with
                  | Some n => prepend (utf8 n) (parse_body r'')
                  | None => None
                  end
              | _ => None
              end
            else
              match unescape e with
              | Some ch => prepend [ch] (parse_body r')
              | None => None
              end
        end
      else if (nat_of_ascii c <? 32)%nat then None
      else prepend [c] (parse_body r)
  end.

Definition parse_string (s : list ascii) : option (string * list ascii) :=
  match s with
  | c :: r =>
      if Ascii.eqb c dquote then
        match parse_body r with
        | Some (body, rest) => Some (string_of_list_ascii body, rest)
        | None => None
        end
      else None
  | [] => None
  end.

Fixpoint expect (lit s : list ascii) : option (list ascii) :=
  match lit, s with
  | [], _ => Some s
  | a :: lit', b :: s' => if Ascii.eqb a b then expect lit' s' else None
  | _ :: _, [] => None
  end.

(** Recursive descent; [fuel] bounds the number of values read. *)
Fixpoint parse_value (fuel : nat) (s : list ascii) : option (json * list ascii) :=
  match fuel with
  | O => None
  | S fuel' =>
      match skip_ws s with
      | [] => None
      | c :: r =>
          if Ascii.eqb c "n"%char then
            option_map (pair JNull) (expect (list_ascii_of_string "ull") r)
          else if Ascii.eqb c "t"%char then
            option_map (pair (JBool true)) (expect (list_ascii_of_string "rue") r)
          else if Ascii.eqb c "f"%char then
            option_map (pair (JBool false)) (expect (list_ascii_of_string "alse") r)
          else if Ascii.eqb c dquote then
            match parse_string (c :: r) with
            | Some (str, rest) => Some (JString str, rest)
            | None => None
            end
          else if Ascii.eqb c "["%char then
            match skip_ws r with
            | d :: r' =>
                if Ascii.eqb d "]"%char then Some (JArray [], r')
                else option_map (fun p => (JArray (fst p), snd p)) (parse_elements fuel' r)
            | [] => None
            end
          else if Ascii.eqb c "{"%char then
            match skip_ws r with
            | d :: r' =>
                if Ascii.eqb d "}"%char then Some (JObject [], r')
                else option_map (fun p => (JObject (fst p), snd p)) (parse_members fuel' r)
            | [] => None
            end
          else None
      end
  end
with parse_elements (fuel : nat) (s : list ascii) : option (list json * list ascii) :=
  match fuel with
  | O => None
  | S fuel' =>
      match parse_value fuel' s with
      | Some (v, rest) =>
          match skip_ws rest with
          | d :: rest' =>
              if Ascii.eqb d ","%char then
                option_map (fun p => (v :: fst p, snd p)) (parse_elements fuel' rest')
              else if Ascii.eqb d "]"%char then Some ([v], rest')
              else None
          | [] => None
          end
      | None => None
      end
  end
with parse_members (fuel : nat) (s : list ascii) : option (list (string * json) * list ascii) :=
  match fuel with
  | O => None
  | S fuel' =>
      match parse_string (skip_ws s) with
      | Some (k, rest) =>
          match skip_ws rest with
          | d :: rest' =>
              if Ascii.eqb d ":"%char then
                match parse_value fuel' rest' with
                | Some (v, rest2) =>
                    match skip_ws rest2 with
                    | e :: rest3 =>
                        if Ascii.eqb e ","%char then
                          option_map (fun p => ((k, v) :: fst p, snd p))
                                     (parse_members fuel' rest3)
                        else if Ascii.eqb e "}"%char then Some ([(k, v)], rest3)
                        else None
                    | [] => None
                    end
                | None => None
                end
              else None
          | [] => None
          end
      | None => None
      end
  end.

(** [JSON.parse]: one value, then only white space.  [None] is the
    SyntaxError. *)
Definition parse (text : string) : option json :=
  let s := list_ascii_of_string text in
  match parse_value (S (List.length s)) s with
  | Some (v, rest) => match skip_ws rest with [] => Some v | _ => None end
  | None => None
  end.

End JSON.

(* ================================================================== *)
(** * The SQL engine, as far as the statements of the store use it

    What follows is SQLite's documented behaviour for the constructs of
    [sessions.ts]: the LIKE operator, the FTS5 tokenizer ([unicode61], the
    default), the FTS5 query syntax of a quoted phrase with a trailing star,
    and C strings (text handed to LIKE and to the FTS5 query parser ends at
    its first NUL byte). *)

Module Sqlite.

Definition chars (s : string) : list ascii := list_ascii_of_string s.

(** A C string: the bytes before the first NUL. *)
Fixpoint c_str (s : list ascii) : list ascii :=
  match s with
  | [] => []
  | c :: r => if Ascii.eqb c Ascii.zero then [] else c :: c_str r
  end.

Definition is_upper (c : ascii) : bool :=
  let n := nat_of_ascii c in ((65 <=? n) && (n <=? 90))%nat.
Definition is_lower (c : ascii) : bool :=
  let n := nat_of_ascii c in ((97 <=? n) && (n <=? 122))%nat.
Definition is_digit (c : ascii) : bool :=
  let n := nat_of_ascii c in ((48 <=? n) && (n <=? 57))%nat.

(** ASCII case folding, the only folding LIKE does by default. *)
Definition to_lower (c : ascii) : ascii :=
  if is_upper c then ascii_of_nat (nat_of_ascii c + 32) else c.

(** ** LIKE
    [%] stands for any run of characters, [_] for any one character, every
    other character for itself up to ASCII case.  (Bytes stand for
    characters: [_] is exact on ASCII text.) *)
Fixpoint like_match (pattern text : list ascii) : bool :=
  match pattern with
  | [] => match text with [] => true | _ :: _ => false end
  | p :: pattern' =>
      if Ascii.eqb p "%"%char then
        (fix any_run (t : list ascii) : bool :=
           like_match pattern' t ||
           match t with [] => false | _ :: t' => any_run t' end) text
      else
        match text with
        | [] => false
        | c :: text' =>
            (Ascii.eqb p "_"%char || Ascii.eqb (to_lower p) (to_lower c))
            && like_match pattern' text'
        end
  end.

(** [column LIKE pattern] in a WHERE clause: a NULL column does not match. *)
Definition like (column : option string) (pattern : string) : bool :=
  match column with
  | Some text => like_match (c_str (chars pattern)) (c_str (chars text))
  | None => false
  end.

(** ** The FTS5 tokenizer
    Tokens are the maximal runs of token characters, folded to lower case.
    ASCII letters and digits are token characters, the other ASCII
    characters separate; a byte of a multi-byte character is taken as a
    token character. *)
Definition token := list ascii.

Definition is_token_char (c : ascii) : bool :=
  is_upper c || is_lower c || is_digit c || (128 <=? nat_of_ascii c)%nat.

(* [cur] holds the token being read, last character first. *)
Fixpoint tokens_from (cur : list ascii) (s : list ascii) : list token :=
  match s with
  | [] => match cur with [] => [] | _ => [rev cur] end
  | c :: r =>
      if is_token_char c then tokens_from (to_lower c :: cur) r
      else match cur with
           | [] => tokens_from [] r
           | _ => rev cur :: tokens_from [] r
           end
  end.

Definition tokenize (text : string) : list token := tokens_from [] (chars text).

(** A NULL value has no tokens. *)
Definition tokenize_value (v : option string) : list token :=
  match v with Some text => tokenize text | None => [] end.

(** ** FTS5 queries: a quoted phrase, possibly followed by a star *)

Record phrase := { terms : list token; prefix_query : bool }.

(* The characters of a string after its opening quote up to the closing
   one; two quotes in a row are one quote character. *)
Fixpoint fts5_string (s : list ascii) : option (list ascii * list ascii) :=
  match s with
  | [] => None
  | c :: r =>
      if Ascii.eqb c JSON.dquote then
        match r with
        | d :: r' =>
            if Ascii.eqb d JSON.dquote then JSON.prepend [d] (fts5_string r')
            else Some ([], r)
        | [] => Some ([], r)
        end
      else JSON.prepend [c] (fts5_string r)
  end.

(** The query parser on the text bound to [MATCH ?].  The store only ever
    binds one quoted string followed by a star; [None] is the syntax error
    (an unterminated string, or text outside this form). *)
Definition fts5_parse (expr : string) : option phrase :=
  match JSON.skip_ws (c_str (chars expr)) with
  | c :: r =>
      if Ascii.eqb c JSON.dquote then
        match fts5_string r with
        | Some (body, rest) =>
            let toks := tokens_from [] body in
            match JSON.skip_ws rest with
            | [] => Some {| terms := toks; prefix_query := false |}
            | d :: rest' =>
                if Ascii.eqb d "*"%char then
                  match JSON.skip_ws rest' with
                  | [] => Some {| terms := toks; prefix_query := true |}
                  | _ :: _ => None
                  end
                else None
            end
        | None => None
        end
      else None
  | [] => None
  end.

Fixpoint is_prefix (p t : token) : bool :=
  match p, t with
  | [], _ => true
  | a :: p', b :: t' => Ascii.eqb a b && is_prefix p' t'
  | _ :: _, [] => false
  end.

Fixpoint token_eqb (a b : token) : bool :=
  match a, b with
  | [], [] => true
  | x :: a', y :: b' => Ascii.eqb x y && token_eqb a' b'
  | _, _ => false
  end.

(* The terms of the phrase line up with the tokens at the head of [doc];
   the last term only has to be a prefix when the phrase ends in a star. *)
Fixpoint phrase_at (ts : list token) (pre : bool) (doc : list token) : bool :=
  match ts, doc with
  | [], _ => true
  | [t], d :: _ => if pre then is_prefix t d else token_eqb t d
  | t :: ts', d :: doc' => token_eqb t d && phrase_at ts' pre doc'
  | _ :: _, [] => false
  end.

Fixpoint phrase_in (ts : list token) (pre : bool) (doc : list token) : bool :=
  match doc with
  | [] => false
  | _ :: doc' => phrase_at ts pre doc || phrase_in ts pre doc'
  end.

(** A phrase matches a row of the index when it occurs in one of its
    columns; a phrase without terms matches nothing. *)
Definition phrase_matches (p : phrase) (columns : list (list token)) : bool :=
  match terms p with
  | [] => false
  | _ :: _ => existsb (phrase_in (terms p) (prefix_query p)) columns
  end.

(** [ORDER BY key]: rows with equal keys stay in scan order. *)
Definition order_by_asc {A} (key : A -> Z) (rows : list A) : list A :=
  Js.sort (fun a b => key a <? key b) rows.
Definition order_by_desc {A} (key : A -> Z) (rows : list A) : list A :=
  Js.sort (fun a b => key b <? key a) rows.

(** [LIMIT n]: no rows for 0, no limit for a negative [n]. *)
Definition limit {A} (n : Z) (rows : list A) : list A :=
  if n <? 0 then rows else firstn (Z.to_nat n) rows.

End Sqlite.

(* ================================================================== *)
(** * The data model ([src/types.ts]) *)

(** A task as [JSON.stringify] sees it and as [getById] returns it: the
    object with its members in order, a [Date] member as its ISO string. *)
Definition Task := JSON.json.

Module Mem.
Record SessionMemory := {
  id : string;
  claudeSessionId : string;
  projectPath : string;
  projectName : string;
  startedAt : Z;
  endedAt : Z;
  duration : Z;
  summary : string;
  description : string;
  tasks : list Task;
  tasksCompleted : Z;
  tasksPending : Z;
  filesCreated : list string;
  filesModified : list string;
  filesDeleted : list string;
  lastUserMessage : string;
  lastAssistantMessage : string;
  nextSteps : list string;
  keyDecisions : list string;
  blockers : list string;
  tokensUsed : Z;
  messagesCount : Z;
  toolCallsCount : Z;
  tags : list string;
  archived : bool;
  archivedAt : option Z;
  synced : option bool;
  syncedAt : option Z;
  logFile : string;
  logFileArchived : option string
}.
End Mem.
Definition SessionMemory : Type := Mem.SessionMemory.

Record SearchMatch := {
  field : string;
  text : string;
  highlighted : string
}.

Record SearchResult := {
  session : SessionMemory;
  score : Q;
  matches : list SearchMatch
}.

Record StorageStats := {
  totalSessions : Z;
  activeSessions : Z;
  archivedSessions : Z;
  storageUsedBytes : Z;
  oldestSession : option Z;
  newestSession : option Z
}.

Record CleanupReport := {
  sessionsArchived : Z;
  sessionsDeleted : Z;
  bytesFreed : Z;
  logFilesBackedUp : Z
}.

Record RetentionConfig := {
  fullSessions : string;
  archives : string;
  searchIndex : string;
  overrideClaudeRetention : bool;
  maxStorageGb : Z
}.

(* ================================================================== *)
(** * The schema of [SessionStore.initialize] *)

(** A row of the table [sessions].  The columns the schema leaves nullable
    and [rowToSession] guards with [|| ''] or a truth test are options. *)
Module Col.
Record Row := {
  rowid : Z;
  id : string;
  claude_session_id : option string;
  project_path : string;
  project_name : string;
  started_at : Z;
  ended_at : Z;
  duration : Z;
  summary : option string;
  description : option string;
  tasks_json : option string;
  tasks_completed : Z;
  tasks_pending : Z;
  files_created_json : option string;
  files_modified_json : option string;
  files_deleted_json : option string;
  last_user_message : option string;
  last_assistant_message : option string;
  next_steps_json : option string;
  key_decisions_json : option string;
  blockers_json : option string;
  tokens_used : Z;
  messages_count : Z;
  tool_calls_count : Z;
  tags_json : option string;
  archived : Z;
  archived_at : option Z;
  synced : Z;
  synced_at : option Z;
  log_file : option string;
  log_file_archived : option string;
  created_at : Z;
  updated_at : Z
}.

(** The columns an UPDATE statement of the store can set; every other
    column keeps its value. *)
Definition update (r : Row) (archived' : Z) (archived_at' : option Z)
    (synced' : Z) (synced_at' : option Z)
    (log_file_archived' : option string) (updated_at' : Z) : Row :=
  {| rowid := rowid r;
     id := id r;
     claude_session_id := claude_session_id r;
     project_path := project_path r;
     project_name := project_name r;
     started_at := started_at r;
     ended_at := ended_at r;
     duration := duration r;
     summary := summary r;
     description := description r;
     tasks_json := tasks_json r;
     tasks_completed := tasks_completed r;
     tasks_pending := tasks_pending r;
     files_created_json := files_created_json r;
     files_modified_json := files_modified_json r;
     files_deleted_json := files_deleted_json r;
     last_user_message := last_user_message r;
     last_assistant_message := last_assistant_message r;
     next_steps_json := next_steps_json r;
     key_decisions_json := key_decisions_json r;
     blockers_json := blockers_json r;
     tokens_used := tokens_used r;
     messages_count := messages_count r;
     tool_calls_count := tool_calls_count r;
     tags_json := tags_json r;
     archived := archived';
     archived_at := archived_at';
     synced := synced';
     synced_at := synced_at';
     log_file := log_file r;
     log_file_archived := log_file_archived';
     created_at := created_at r;
     updated_at := updated_at' |}.
End Col.
Definition Row : Type := Col.Row.

(** A value of a column, as a statement reads it. *)
Inductive SqlValue :=
| VNull
| VInteger (n : Z)
| VText (s : string).

Definition text_value (v : option string) : SqlValue :=
  match v with Some s => VText s | None => VNull end.
Definition integer_value (v : option Z) : SqlValue :=
  match v with Some n => VInteger n | None => VNull end.
Definition value_text (v : SqlValue) : option string :=
  match v with VText s => Some s | _ => None end.

(** The columns of [CREATE TABLE sessions], by name. *)
Definition sessions_columns : list (string * (Row -> SqlValue)) :=
  [ ("id", fun r => VText (Col.id r));
    ("claude_session_id", fun r => text_value (Col.claude_session_id r));
    ("project_path", fun r => VText (Col.project_path r));
    ("project_name", fun r => VText (Col.project_name r));
    ("started_at", fun r => VInteger (Col.started_at r));
    ("ended_at", fun r => VInteger (Col.ended_at r));
    ("duration", fun r => VInteger (Col.duration r));
    ("summary", fun r => text_value (Col.summary r));
    ("description", fun r => text_value (Col.description r));
    ("tasks_json", fun r => text_value (Col.tasks_json r));
    ("tasks_completed", fun r => VInteger (Col.tasks_completed r));
    ("tasks_pending", fun r => VInteger (Col.tasks_pending r));
    ("files_created_json", fun r => text_value (Col.files_created_json r));
    ("files_modified_json", fun r => text_value (Col.files_modified_json r));
    ("files_deleted_json", fun r => text_value (Col.files_deleted_json r));
    ("last_user_message", fun r => text_value (Col.last_user_message r));
    ("last_assistant_message", fun r => text_value (Col.last_assistant_message r));
    ("next_steps_json", fun r => text_value (Col.next_steps_json r));
    ("key_decisions_json", fun r => text_value (Col.key_decisions_json r));
    ("blockers_json", fun r => text_value (Col.blockers_json r));
    ("tokens_used", fun r => VInteger (Col.tokens_used r));
    ("messages_count", fun r => VInteger (Col.messages_count r));
    ("tool_calls_count", fun r => VInteger (Col.tool_calls_count r));
    ("tags_json", fun r => text_value (Col.tags_json r));
    ("archived", fun r => VInteger (Col.archived r));
    ("archived_at", fun r => integer_value (Col.archived_at r));
    ("synced", fun r => VInteger (Col.synced r));
    ("synced_at", fun r => integer_value (Col.synced_at r));
    ("log_file", fun r => text_value (Col.log_file r));
    ("log_file_archived", fun r => text_value (Col.log_file_archived r));
    ("created_at", fun r => VInteger (Col.created_at r));
    ("updated_at", fun r => VInteger (Col.updated_at r)) ]%string.

(** The columns of [CREATE VIRTUAL TABLE sessions_fts USING fts5(...)],
    declared with [content='sessions', content_rowid='rowid']. *)
Definition sessions_fts_columns : list string :=
  [ "id"; "summary"; "description"; "tasks_text"; "files_text";
    "last_user_message"; "last_assistant_message"; "tags_text" ]%string.

(** A row of the full-text index: the tokens of each of the eight values
    it was given, under the rowid it was given. *)
Record FtsEntry := {
  fts_rowid : Z;
  fts_tokens : list (list Sqlite.token)
}.

Definition tokens_eqb (a b : list Sqlite.token) : bool :=
  (fix go (a b : list Sqlite.token) : bool :=
     match a, b with
     | [], [] => true
     | x :: a', y :: b' => Sqlite.token_eqb x y && go a' b'
     | _, _ => false
     end) a b.

Definition entry_eqb (a b : FtsEntry) : bool :=
  (fts_rowid a =? fts_rowid b) &&
  (fix go (a b : list (list Sqlite.token)) : bool :=
     match a, b with
     | [], [] => true
     | x :: a', y :: b' => tokens_eqb x y && go a' b'
     | _, _ => false
     end) (fts_tokens a) (fts_tokens b).

(** [a || ' ' || b]: NULL when either side is. *)
Definition sql_concat_space (a b : option string) : option string :=
  match a, b with
  | Some x, Some y => Some (x ++ " " ++ y)%string
  | _, _ => None
  end.

(** The eight values the three triggers hand to the index for a row:
    [id, summary, description, tasks_json,
     files_created_json || ' ' || files_modified_json,
     last_user_message, last_assistant_message, tags_json]. *)
Definition fts_values (r : Row) : list (option string) :=
  [ Some (Col.id r); Col.summary r; Col.description r; Col.tasks_json r;
    sql_concat_space (Col.files_created_json r) (Col.files_modified_json r);
    Col.last_user_message r; Col.last_assistant_message r; Col.tags_json r ].

Definition fts_entry (r : Row) : FtsEntry :=
  {| fts_rowid := Col.rowid r;
     fts_tokens := map Sqlite.tokenize_value (fts_values r) |}.

(** [INSERT INTO sessions_fts(rowid, ...) VALUES (...)]. *)
Definition fts_insert (r : Row) (index : list FtsEntry) : list FtsEntry :=
  index ++ [fts_entry r].

(** [INSERT INTO sessions_fts(sessions_fts, rowid, ...) VALUES ('delete', ...)]:
    takes out what was indexed for these values under this rowid. *)
Fixpoint fts_delete_entry (e : FtsEntry) (index : list FtsEntry) : list FtsEntry :=
  match index with
  | [] => []
  | x :: index' => if entry_eqb x e then index' else x :: fts_delete_entry e index'
  end.

Definition fts_delete (r : Row) (index : list FtsEntry) : list FtsEntry :=
  fts_delete_entry (fts_entry r) index.

(** The triggers [sessions_ai], [sessions_ad], [sessions_au]. *)
Definition sessions_ai (new : Row) (index : list FtsEntry) : list FtsEntry :=
  fts_insert new index.
Definition sessions_ad (old : Row) (index : list FtsEntry) : list FtsEntry :=
  fts_delete old index.
Definition sessions_au (old new : Row) (index : list FtsEntry) : list FtsEntry :=
  fts_insert new (fts_delete old index).

(** The database behind a [SessionStore]: the table in rowid order (the
    order of a scan) and the full-text index; [dbPath] is the argument of
    the constructor. *)
Record Store := {
  dbPath : string;
  sessions : list Row;
  sessions_fts : list FtsEntry
}.

(** [UPDATE sessions SET ... WHERE ...]: every row the condition holds for
    is set, and [sessions_au] runs for it; the result carries [changes]. *)
Definition sql_update (cond : Row -> bool) (assign : Row -> Row) (st : Store) : Store * Z :=
  let changed := filter cond (sessions st) in
  ({| dbPath := dbPath st;
      sessions := map (fun r => if cond r then assign r else r) (sessions st);
      sessions_fts :=
        fold_left (fun index r => sessions_au r (assign r) index) changed (sessions_fts st) |},
   Z.of_nat (List.length changed)).

(** [DELETE FROM sessions WHERE ...], with [sessions_ad] for every row
    that goes. *)
Definition sql_delete (cond : Row -> bool) (st : Store) : Store * Z :=
  let gone := filter cond (sessions st) in
  ({| dbPath := dbPath st;
      sessions := filter (fun r => negb (cond r)) (sessions st);
      sessions_fts := fold_left (fun index r => sessions_ad r index) gone (sessions_fts st) |},
   Z.of_nat (List.length gone)).

(** The rowid SQLite gives a row inserted without one: one more than the
    largest in the table (taken before a REPLACE removes anything). *)
Definition next_rowid (rows : list Row) : Z :=
  1 + fold_right (fun r m => Z.max (Col.rowid r) m) 0 rows.

(** What a statement can raise. *)
Inductive SqliteError :=
| SyntaxError
| NoSuchColumn (name : string)
| MissingContentRow (rowid : Z).

Definition column_getter (name : string) : option (Row -> SqlValue) :=
  option_map snd (find (fun c => String.eqb (fst c) name) sessions_columns).

(** An external-content FTS5 table reads the value of a column from its
    content table under the column's own name:
    [SELECT rowid, <columns of the index> FROM sessions WHERE rowid = ?].
    The statement is compiled when a value is first asked for. *)
Fixpoint content_getters (names : list string) : SqliteError + list (Row -> SqlValue) :=
  match names with
  | [] => inr []
  | n :: names' =>
      match column_getter n with
      | None => inl (NoSuchColumn n)
      | Some g =>
          match content_getters names' with
          | inl e => inl e
          | inr gs => inr (g :: gs)
          end
      end
  end.

Definition fts_content (st : Store) (rowid : Z) : SqliteError + list SqlValue :=
  match content_getters sessions_fts_columns with
  | inl e => inl e
  | inr getters =>
      match find (fun r => Col.rowid r =? rowid) (sessions st) with
      | None => inl (MissingContentRow rowid)
      | Some r => inr (map (fun g => g r) getters)
      end
  end.

(** A row of the SELECT of [search]: [s.*], the two highlights, the score. *)
Record FtsRow := {
  fts_row : Row;
  summary_hl : option string;
  description_hl : option string;
  fts_score : Q
}.

Fixpoint collect {A B E} (f : A -> E + list B) (l : list A) : E + list B :=
  match l with
  | [] => inr []
  | x :: l' =>
      match f x with
      | inl e => inl e
      | inr ys =>
          match collect f l' with
          | inl e => inl e
          | inr zs => inr (ys ++ zs)
          end
      end
  end.

(** [JSON.stringify] of a list of strings and of the task list. *)
Definition stringify_strings (l : list string) : string :=
  JSON.stringify (JSON.JArray (map JSON.JString l)).
Definition stringify_tasks (l : list Task) : string :=
  JSON.stringify (JSON.JArray l).

(** [parseJson]: [[]] for a falsy value, for text that does not parse and
    for a value that is not an array. *)
Definition parseJson (value : option string) : list JSON.json :=
  if negb (Js.truthy_opt_string value) then []
  else match JSON.parse (Js.string_or_empty value) with
       | Some (JSON.JArray l) => l
       | _ => []
       end.

(** [parseJson<string>]: the cast to [string[]] is not checked at run time;
    the strings of the array are kept (all of it, for what [save] wrote). *)
Definition as_strings (l : list JSON.json) : list string :=
  flat_map (fun v => match v with JSON.JString s => [s] | _ => [] end) l.

Definition bool_int (b : bool) : Z := if b then 1 else 0.

(* ================================================================== *)
(** * SessionStore, SearchIndex and RetentionManager *)

Section Model.

(** What the platform supplies: the contents of files with their size and
    [zlib.gzipSync], the home directory ([os.homedir()]), and the two
    auxiliary functions of FTS5 the SELECT of [search] calls. *)
Variable Blob : Type.
Variable blob_size : Blob -> Z.
Variable gzipSync : Blob -> Blob.
Variable homedir : string.
Variable bm25 : Sqlite.phrase -> list FtsEntry -> FtsEntry -> Q.
Variable highlight : Sqlite.phrase -> option string -> option string.

(** ** Files *)

Definition FS : Type := list (string * Blob).

Definition path_join (a b : string) : string := (a ++ "/" ++ b)%string.

Definition readFileSync (fs : FS) (p : string) : option Blob :=
  option_map snd (find (fun e => String.eqb (fst e) p) fs).

Definition existsSync (fs : FS) (p : string) : bool :=
  match readFileSync fs p with Some _ => true | None => false end.

Definition statSize (fs : FS) (p : string) : Z :=
  match readFileSync fs p with Some b => blob_size b | None => 0 end.

Definition unlinkSync (fs : FS) (p : string) : FS :=
  filter (fun e => negb (String.eqb (fst e) p)) fs.

Definition writeFileSync (fs : FS) (p : string) (b : Blob) : FS :=
  (p, b) :: unlinkSync fs p.

(** [getDirSize]: the sizes of the files below [dir], added up. *)
Definition getDirSize (fs : FS) (dir : string) : Z :=
  fold_right
    (fun e acc =>
       if String.prefix (dir ++ "/") (fst e) then blob_size (snd e) + acc else acc)
    0 fs.

Definition DB_DIR : string := path_join homedir ".cc-sessions".
Definition DB_PATH : string := path_join DB_DIR "index.db".
Definition ARCHIVE_DIR : string := path_join (path_join homedir ".cc-sessions") "archive".

(** ** SessionStore *)

(** The constructor on a path that holds no database yet. *)
Definition newSessionStore (path : string) : Store :=
  {| dbPath := path; sessions := []; sessions_fts := [] |}.

(** The values [save] binds, in a row with the given rowid.  [created_at]
    takes its default, [strftime('%s', 'now') * 1000]. *)
Definition row_of_session (rowid now : Z) (session : SessionMemory) : Row :=
  {| Col.rowid := rowid;
     Col.id := Mem.id session;
     Col.claude_session_id := Some (Mem.claudeSessionId session);
     Col.project_path := Mem.projectPath session;
     Col.project_name := Mem.projectName session;
     Col.started_at := Mem.startedAt session;
     Col.ended_at := Mem.endedAt session;
     Col.duration := Mem.duration session;
     Col.summary := Some (Mem.summary session);
     Col.description := Some (Mem.description session);
     Col.tasks_json := Some (stringify_tasks (Mem.tasks session));
     Col.tasks_completed := Mem.tasksCompleted session;
     Col.tasks_pending := Mem.tasksPending session;
     Col.files_created_json := Some (stringify_strings (Mem.filesCreated session));
     Col.files_modified_json := Some (stringify_strings (Mem.filesModified session));
     Col.files_deleted_json := Some (stringify_strings (Mem.filesDeleted session));
     Col.last_user_message := Some (Mem.lastUserMessage session);
     Col.last_assistant_message := Some (Mem.lastAssistantMessage session);
     Col.next_steps_json := Some (stringify_strings (Mem.nextSteps session));
     Col.key_decisions_json := Some (stringify_strings (Mem.keyDecisions session));
     Col.blockers_json := Some (stringify_strings (Mem.blockers session));
     Col.tokens_used := Mem.tokensUsed session;
     Col.messages_count := Mem.messagesCount session;
     Col.tool_calls_count := Mem.toolCallsCount session;
     Col.tags_json := Some (stringify_strings (Mem.tags session));
     Col.archived := bool_int (Mem.archived session);
     Col.archived_at := Js.or_null_number (Mem.archivedAt session);
     Col.synced := match Mem.synced session with Some true => 1 | _ => 0 end;
     Col.synced_at := Js.or_null_number (Mem.syncedAt session);
     Col.log_file := Some (Mem.logFile session);
     Col.log_file_archived := Js.or_null_string (Mem.logFileArchived session);
     Col.created_at := now / 1000 * 1000;
     Col.updated_at := now |}.

(** [save]: INSERT OR REPLACE.  The row that holds the id goes and the new
    row comes in under a fresh rowid; [sessions_ai] runs for the new row.
    [sessions_ad] does not run for the row that goes: SQLite runs delete
    triggers for REPLACE only with [recursive_triggers] on, and the
    constructor sets [journal_mode] and [synchronous] only. *)
Definition save (now : Z) (st : Store) (session : SessionMemory) : Store :=
  let new := row_of_session (next_rowid (sessions st)) now session in
  {| dbPath := dbPath st;
     sessions :=
       filter (fun r => negb (String.eqb (Col.id r) (Mem.id session))) (sessions st)
       ++ [new];
     sessions_fts := sessions_ai new (sessions_fts st) |}.

Definition rowToSession (row : Row) : SessionMemory :=
  {| Mem.id := Col.id row;
     Mem.claudeSessionId := Js.string_or_empty (Col.claude_session_id row);
     Mem.projectPath := Col.project_path row;
     Mem.projectName := Col.project_name row;
     Mem.startedAt := Col.started_at row;
     Mem.endedAt := Col.ended_at row;
     Mem.duration := Col.duration row;
     Mem.summary := Js.string_or_empty (Col.summary row);
     Mem.description := Js.string_or_empty (Col.description row);
     Mem.tasks := parseJson (Col.tasks_json row);
     Mem.tasksCompleted := Col.tasks_completed row;
     Mem.tasksPending := Col.tasks_pending row;
     Mem.filesCreated := as_strings (parseJson (Col.files_created_json row));
     Mem.filesModified := as_strings (parseJson (Col.files_modified_json row));
     Mem.filesDeleted := as_strings (parseJson (Col.files_deleted_json row));
     Mem.lastUserMessage := Js.string_or_empty (Col.last_user_message row);
     Mem.lastAssistantMessage := Js.string_or_empty (Col.last_assistant_message row);
     Mem.nextSteps := as_strings (parseJson (Col.next_steps_json row));
     Mem.keyDecisions := as_strings (parseJson (Col.key_decisions_json row));
     Mem.blockers := as_strings (parseJson (Col.blockers_json row));
     Mem.tokensUsed := Col.tokens_used row;
     Mem.messagesCount := Col.messages_count row;
     Mem.toolCallsCount := Col.tool_calls_count row;
     Mem.tags := as_strings (parseJson (Col.tags_json row));
     Mem.archived := Col.archived row =? 1;
     Mem.archivedAt := Js.or_null_number (Col.archived_at row);
     Mem.synced := Some (Col.synced row =? 1);
     Mem.syncedAt := Js.or_null_number (Col.synced_at row);
     Mem.logFile := Js.string_or_empty (Col.log_file row);
     Mem.logFileArchived := Js.or_null_string (Col.log_file_archived row) |}.

Definition getById (st : Store) (id : string) : option SessionMemory :=
  option_map rowToSession (find (fun r => String.eqb (Col.id r) id) (sessions st)).

Definition getLastForProject (st : Store) (projectPath : string) : option SessionMemory :=
  option_map rowToSession
    (hd_error
       (Sqlite.order_by_desc Col.started_at
          (filter (fun r => String.eqb (Col.project_path r) projectPath) (sessions st)))).

(** [projectPath] is used when it is given and not empty. *)
Definition getRecent (st : Store) (limit : Z) (projectPath : option string)
  : list SessionMemory :=
  let rows := filter (fun r => Col.archived r =? 0) (sessions st) in
  let rows :=
    if Js.truthy_opt_string projectPath
    then filter (fun r => String.eqb (Col.project_path r) (Js.string_or_empty projectPath)) rows
    else rows in
  map rowToSession (Sqlite.limit limit (Sqlite.order_by_desc Col.started_at rows)).

Definition getAll (st : Store) (includeArchived : bool) : list SessionMemory :=
  let rows :=
    if includeArchived then sessions st
    else filter (fun r => Col.archived r =? 0) (sessions st) in
  map rowToSession (Sqlite.order_by_desc Col.started_at rows).

(* NULL sorts below every number. *)
Definition null_lt (a b : option Z) : bool :=
  match a, b with
  | _, None => false
  | None, Some _ => true
  | Some x, Some y => x <? y
  end.

Definition getArchived (st : Store) : list SessionMemory :=
  map rowToSession
    (Js.sort (fun a b => null_lt (Col.archived_at b) (Col.archived_at a))
       (filter (fun r => Col.archived r =? 1) (sessions st))).

Definition getUnsyncedSessions (st : Store) : list SessionMemory :=
  map rowToSession
    (Sqlite.order_by_asc Col.started_at
       (filter (fun r => Col.synced r =? 0) (sessions st))).

(** The SELECT of [search], run with [stmt.all(expr, limit)]:
<<
  SELECT s.*, highlight(sessions_fts, 1, ...) as summary_hl,
         highlight(sessions_fts, 2, ...) as description_hl,
         bm25(sessions_fts) as score
  FROM sessions_fts JOIN sessions s ON sessions_fts.id = s.id
  WHERE sessions_fts MATCH ? ORDER BY score LIMIT ?
>>
    With LIMIT 0 no row is asked for and nothing runs.  Otherwise the query
    is parsed, the index gives the rowids that match, and for each of them
    [sessions_fts.id] and the highlights are read from the content table. *)
Definition fts_hit (st : Store) (p : Sqlite.phrase) (e : FtsEntry)
  : SqliteError + list FtsRow :=
  match fts_content st (fts_rowid e) with
  | inl err => inl err
  | inr content =>
      let joined :=
        filter (fun s =>
                  match nth 0 content VNull with
                  | VText i => String.eqb i (Col.id s)
                  | _ => false
                  end) (sessions st) in
      inr (map (fun s =>
                  {| fts_row := s;
                     summary_hl := highlight p (value_text (nth 1 content VNull));
                     description_hl := highlight p (value_text (nth 2 content VNull));
                     fts_score := bm25 p (sessions_fts st) e |}) joined)
  end.

Definition fts_select (st : Store) (expr : string) (limit : Z)
  : SqliteError + list FtsRow :=
  if limit =? 0 then inr []
  else
    match Sqlite.fts5_parse expr with
    | None => inl SyntaxError
    | Some p =>
        let hits :=
          Sqlite.order_by_asc fts_rowid
            (filter (fun e => Sqlite.phrase_matches p (fts_tokens e)) (sessions_fts st)) in
        match collect (fts_hit st p) hits with
        | inl err => inl err
        | inr rows =>
            inr (Sqlite.limit limit
                   (Js.sort (fun a b => negb (Qle_bool (fts_score b) (fts_score a))) rows))
        end
    end.

Definition rowToSearchResult (row : FtsRow) : SearchResult :=
  {| session := rowToSession (fts_row row);
     score := Qabs (fts_score row);
     matches :=
       (if Js.truthy_opt_string (summary_hl row)
        then [ {| field := "summary";
                  text := Js.string_or_empty (Col.summary (fts_row row));
                  highlighted := Js.string_or_empty (summary_hl row) |} ]
        else [])
       ++
       (if Js.truthy_opt_string (description_hl row)
        then [ {| field := "description";
                  text := Js.string_or_empty (Col.description (fts_row row));
                  highlighted := Js.string_or_empty (description_hl row) |} ]
        else []) |}.

(** [simplSearch]: the LIKE fallback. *)
Definition simplSearch (st : Store) (query : string) (limit : Z) : list SearchResult :=
  let pattern := ("%" ++ query ++ "%")%string in
  let rows :=
    filter (fun r =>
              Sqlite.like (Col.summary r) pattern
              || Sqlite.like (Col.description r) pattern
              || Sqlite.like (Col.last_user_message r) pattern) (sessions st) in
  map (fun row =>
         {| session := rowToSession row;
            score := 1;
            matches :=
              [ {| field := "summary";
                   text := Js.string_or_empty (Col.summary row);
                   highlighted := Js.string_or_empty (Col.summary row) |} ] |})
      (Sqlite.limit limit (Sqlite.order_by_desc Col.started_at rows)).

(** The escaped query: [query] without its single and double quotes. *)
Definition strip_quotes (query : string) : string :=
  string_of_list_ascii
    (filter (fun c => negb (Ascii.eqb c "'"%char || Ascii.eqb c JSON.dquote))
       (list_ascii_of_string query)).

(** The text bound to MATCH: the escaped query between double quotes,
    followed by a star. *)
Definition match_expr (query : string) : string :=
  String JSON.dquote (strip_quotes query ++ String JSON.dquote "*")%string.

(** [search]: the full-text statement, and [simplSearch] when it throws. *)
Definition search (st : Store) (query : string) (limit : Z) : list SearchResult :=
  match fts_select st (match_expr query) limit with
  | inr rows => map rowToSearchResult rows
  | inl _ => simplSearch st query limit
  end.

Definition ms_per_day : Z := 24 * 60 * 60 * 1000.

(** [archiveOld]: [clock] is read for the cutoff, [clock'] for
    [archived_at]. *)
Definition archiveOld (clock clock' : Z) (st : Store) (olderThanDays : Z) : Store * Z :=
  let cutoff := clock - olderThanDays * ms_per_day in
  sql_update
    (fun r => (Col.started_at r <? cutoff) && (Col.archived r =? 0))
    (fun r => Col.update r 1 (Some clock') (Col.synced r) (Col.synced_at r)
                (Col.log_file_archived r) (Col.updated_at r))
    st.

Definition deleteOld (clock : Z) (st : Store) (olderThanDays : Z) : Store * Z :=
  let cutoff := clock - olderThanDays * ms_per_day in
  sql_delete (fun r => Col.started_at r <? cutoff) st.

Definition updateArchivePath (clock : Z) (st : Store) (id archivePath : string) : Store :=
  fst (sql_update
         (fun r => String.eqb (Col.id r) id)
         (fun r => Col.update r (Col.archived r) (Col.archived_at r) (Col.synced r)
                     (Col.synced_at r) (Some archivePath) clock)
         st).

Definition markSynced (clock : Z) (st : Store) (id : string) : Store :=
  fst (sql_update
         (fun r => String.eqb (Col.id r) id)
         (fun r => Col.update r (Col.archived r) (Col.archived_at r) 1 (Some clock)
                     (Col.log_file_archived r) clock)
         st).

(** [delete]: the new store and [changes > 0]. *)
Definition delete (st : Store) (id : string) : Store * bool :=
  let '(st', changes) := sql_delete (fun r => String.eqb (Col.id r) id) st in
  (st', 0 <? changes).

(** MIN and MAX of a column: NULL on an empty table. *)
Definition sql_min (l : list Z) : option Z :=
  match l with
  | [] => None
  | x :: l' => Some (fold_left Z.min l' x)
  end.
Definition sql_max (l : list Z) : option Z :=
  match l with
  | [] => None
  | x :: l' => Some (fold_left Z.max l' x)
  end.

Definition count {A} (p : A -> bool) (l : list A) : Z :=
  Z.of_nat (List.length (filter p l)).

(** [getStats]: the size is that of the file at [DB_PATH]. *)
Definition getStats (fs : FS) (st : Store) : StorageStats :=
  let rows := sessions st in
  {| totalSessions := Z.of_nat (List.length rows);
     activeSessions := count (fun r => Col.archived r =? 0) rows;
     archivedSessions := count (fun r => Col.archived r =? 1) rows;
     storageUsedBytes := if existsSync fs DB_PATH then statSize fs DB_PATH else 0;
     oldestSession := Js.or_null_number (sql_min (map Col.started_at rows));
     newestSession := Js.or_null_number (sql_max (map Col.started_at rows)) |}.

(** ** SearchIndex *)

(** The score [getRelated] gives [s] against the session it was asked
    about: the body of the [map] callback. *)
Definition related_score (target s : SessionMemory) : Z :=
  let allFiles := Mem.filesCreated target ++ Mem.filesModified target in
  let tags := Mem.tags target in
  let score := 0 in
  let score :=
    if String.eqb (Mem.projectPath s) (Mem.projectPath target) then score + 5 else score in
  let sFiles := Mem.filesCreated s ++ Mem.filesModified s in
  let score :=
    fold_left (fun score file => if Js.includes sFiles file then score + 3 else score)
              allFiles score in
  let score :=
    fold_left (fun score tag => if Js.includes (Mem.tags s) tag then score + 2 else score)
              tags score in
  score.

Definition getRelated (st : Store) (sessionId : string) (limit : Z) : list SessionMemory :=
  match getById st sessionId with
  | None => []
  | Some target =>
      let sessions :=
        filter (fun s => negb (String.eqb (Mem.id s) sessionId)) (getAll st false) in
      let scored := map (fun s => (s, related_score target s)) sessions in
      map fst
        (Js.slice0 limit
           (Js.sort (fun a b => snd b - snd a <? 0)
              (filter (fun p => 0 <? snd p) scored)))
  end.

(** ** RetentionManager *)

(** A number of days, or JavaScript's [Infinity]. *)
Inductive Days :=
| Finite (n : Z)
| Infinity.

(** [parseInt(numStr, 10)] on a string of decimal digits.  The number is
    an exact integer here; JavaScript's is the nearest double, the same
    number up to 2^53. *)
Definition parseInt (numStr : list ascii) : Z :=
  fold_left (fun n c => n * 10 + (Z.of_nat (nat_of_ascii c) - 48)) numStr 0.

(** [retention.match(/^(\d+)(d|m|y)$/)]: the digits and the unit. *)
Definition match_retention (retention : string) : option (list ascii * ascii) :=
  match rev (list_ascii_of_string retention) with
  | [] => None
  | unit :: rev_digits =>
      if (Ascii.eqb unit "d"%char || Ascii.eqb unit "m"%char || Ascii.eqb unit "y"%char)
         && negb (Nat.eqb (List.length rev_digits) 0)
         && forallb Sqlite.is_digit rev_digits
      then Some (rev rev_digits, unit)
      else None
  end.

Definition parseDays (retention : string) : Days :=
  if String.eqb retention "forever" then Infinity
  else
    match match_retention retention with
    | None => Finite 30
    | Some (numStr, unit) =>
        let num := parseInt numStr in
        if Ascii.eqb unit "d"%char then Finite num
        else if Ascii.eqb unit "m"%char then Finite (num * 30)
        else if Ascii.eqb unit "y"%char then Finite (num * 365)
        else Finite 30
    end.

(** The store and the files a RetentionManager works on. *)
Record World := {
  store : Store;
  files : FS
}.

Definition calculateStorageUsed (w : World) : Z :=
  getDirSize (files w) (path_join homedir ".cc-sessions").

(** [compressLogFile]: the archive path, or [None] for the null result. *)
Definition compressLogFile (clock : Z) (w : World) (session : SessionMemory)
  : World * option string :=
  if negb (Js.truthy_string (Mem.logFile session))
     || negb (existsSync (files w) (Mem.logFile session))
  then (w, None)
  else
    let archivePath := path_join ARCHIVE_DIR (Mem.id session ++ ".jsonl.gz") in
    match readFileSync (files w) (Mem.logFile session) with
    | None => (w, None)
    | Some content =>
        let compressed := gzipSync content in
        ({| store := updateArchivePath clock (store w) (Mem.id session) archivePath;
            files := writeFileSync (files w) archivePath compressed |},
         Some archivePath)
    end.

(** Step 2 of [runCleanup]: the loop over the archived sessions. *)
Fixpoint compress_archived (clock : Z) (archivedSessions : list SessionMemory)
    (w : World) (logFilesBackedUp : Z) : World * Z :=
  match archivedSessions with
  | [] => (w, logFilesBackedUp)
  | session :: rest =>
      if Js.truthy_string (Mem.logFile session)
         && negb (Js.truthy_opt_string (Mem.logFileArchived session))
      then
        let '(w', archived) := compressLogFile clock w session in
        compress_archived clock rest w'
          (match archived with
           | Some _ => logFilesBackedUp + 1
           | None => logFilesBackedUp
           end)
      else compress_archived clock rest w logFilesBackedUp
  end.

Record TrimResult := {
  deleted : Z;
  trimFreed : Z
}.

(** The loop of [trimToStorageLimit]. *)
Fixpoint trim_loop (maxBytes : Z) (sessions : list SessionMemory) (w : World)
    (currentSize : Z) (result : TrimResult) : World * TrimResult :=
  match sessions with
  | [] => (w, result)
  | session :: rest =>
      if currentSize <=? maxBytes then (w, result)
      else
        let archive := Js.string_or_empty (Mem.logFileArchived session) in
        let unlink :=
          Js.truthy_opt_string (Mem.logFileArchived session)
          && existsSync (files w) archive in
        let fileSize := statSize (files w) archive in
        let files' := if unlink then unlinkSync (files w) archive else files w in
        let freed := if unlink then trimFreed result + fileSize else trimFreed result in
        let '(store', existed) := delete (store w) (Mem.id session) in
        let result' :=
          if existed
          then {| deleted := deleted result + 1; trimFreed := freed + 5000 |}
          else {| deleted := deleted result; trimFreed := freed |} in
        let w' := {| store := store'; files := files' |} in
        trim_loop maxBytes rest w' (calculateStorageUsed w') result'
  end.

Definition trimToStorageLimit (w : World) (maxBytes : Z) : World * TrimResult :=
  let sessions :=
    Js.sort (fun a b => Mem.startedAt a - Mem.startedAt b <? 0) (getAll (store w) true) in
  trim_loop maxBytes sessions w (calculateStorageUsed w)
            {| deleted := 0; trimFreed := 0 |}.

(** [runCleanup]; the clock stands still during a run. *)
Definition runCleanup (clock : Z) (config : RetentionConfig) (w : World)
  : World * CleanupReport :=
  let fullDays := parseDays (fullSessions config) in
  let archiveDays := parseDays (archives config) in
  (* Step 1 *)
  let '(st1, archivedCount) :=
    match fullDays with
    | Finite days => archiveOld clock clock (store w) days
    | Infinity => (store w, 0)
    end in
  let w1 := {| store := st1; files := files w |} in
  (* Step 2 *)
  let '(w2, backedUp) := compress_archived clock (getArchived st1) w1 0 in
  (* Step 3 *)
  let '(st3, deletedCount, freed) :=
    match archiveDays with
    | Finite days =>
        let beforeCount := totalSessions (getStats (files w2) (store w2)) in
        let '(st', n) := deleteOld clock (store w2) days in
        let afterCount := totalSessions (getStats (files w2) st') in
        (st', n, if 0 <? n then (beforeCount - afterCount) * 5000 else 0)
    | Infinity => (store w2, 0, 0)
    end in
  let w3 := {| store := st3; files := files w2 |} in
  (* Step 4 *)
  let stats := getStats (files w3) (store w3) in
  let maxBytes := maxStorageGb config * 1000000000 in
  if maxBytes <? storageUsedBytes stats then
    let '(w4, trimReport) := trimToStorageLimit w3 maxBytes in
    (w4, {| sessionsArchived := archivedCount;
            sessionsDeleted := deletedCount + deleted trimReport;
            bytesFreed := freed + trimFreed trimReport;
            logFilesBackedUp := backedUp |})
  else
    (w3, {| sessionsArchived := archivedCount;
            sessionsDeleted := deletedCount;
            bytesFreed := freed;
            logFilesBackedUp := backedUp |}).

End Model.

Arguments readFileSync {Blob} fs p.
Arguments existsSync {Blob} fs p.
Arguments statSize {Blob} blob_size fs p.
Arguments unlinkSync {Blob} fs p.
Arguments writeFileSync {Blob} fs p b.
Arguments getDirSize {Blob} blob_size fs dir.
Arguments getStats {Blob} blob_size homedir fs st.
Arguments store {Blob} w.
Arguments files {Blob} w.
Arguments Build_World {Blob} store files.
Arguments calculateStorageUsed {Blob} blob_size homedir w.
Arguments compressLogFile {Blob} gzipSync homedir clock w session.
Arguments compress_archived {Blob} gzipSync homedir clock archivedSessions w logFilesBackedUp.
Arguments trim_loop {Blob} blob_size homedir maxBytes sessions w currentSize result.
Arguments trimToStorageLimit {Blob} blob_size homedir w maxBytes.
Arguments runCleanup {Blob} blob_size gzipSync homedir clock config w.

(* ================================================================== *)
(** * The rest of SearchIndex and RetentionManager, and CloudSync.sync *)

(** [SearchOptions] of [src/types.ts]. *)
Module Opt.
Record SearchOptions := {
  query : string;
  projectPath : option string;
  fromDate : option Z;
  toDate : option Z;
  limit : option Z;
  includeArchived : option bool
}.
End Opt.

(** [s.includes(sub)] on strings. *)
Fixpoint str_includes (s sub : string) : bool :=
  String.prefix sub s
  || match s with
     | EmptyString => false
     | String _ s' => str_includes s' sub
     end.

Section SearchIndex.

(** [bm25] and [highlight] as before, and [String.prototype.toLowerCase]. *)
Variable bm25 : Sqlite.phrase -> list FtsEntry -> FtsEntry -> Q.
Variable highlight : Sqlite.phrase -> option string -> option string.
Variable toLowerCase : string -> string.

(** The callback of [results.filter] in [SearchIndex.search]. *)
Definition search_filter (options : Opt.SearchOptions) (includeArchived : bool)
    (result : SearchResult) : bool :=
  let session := session result in
  if Js.truthy_opt_string (Opt.projectPath options)
     && negb (str_includes (Mem.projectPath session)
                (Js.string_or_empty (Opt.projectPath options)))
  then false
  else if match Opt.fromDate options with
          | Some fromDate => Mem.startedAt session <? fromDate
          | None => false
          end
  then false
  else if match Opt.toDate options with
          | Some toDate => toDate <? Mem.startedAt session
          | None => false
          end
  then false
  else if negb includeArchived && Mem.archived session then false
  else true.

(** [SearchIndex.search]: [limit] is 20 and [includeArchived] is false
    when the option is not given. *)
Definition SearchIndex_search (st : Store) (options : Opt.SearchOptions)
  : list SearchResult :=
  let limit := match Opt.limit options with Some n => n | None => 20 end in
  let includeArchived :=
    match Opt.includeArchived options with Some b => b | None => false end in
  let results := search bm25 highlight st (Opt.query options) (limit * 2) in
  let results := filter (search_filter options includeArchived) results in
  Js.slice0 limit
    (Js.sort (fun a b => negb (Qle_bool 0 (score b - score a))) results).

Definition searchByFile (st : Store) (filePath : string) (limit : Z)
  : list SessionMemory :=
  Js.slice0 limit
    (filter (fun session =>
               let allFiles :=
                 Mem.filesCreated session ++ Mem.filesModified session
                 ++ Mem.filesDeleted session in
               existsb (fun f => str_includes f filePath) allFiles)
            (getAll st true)).

Definition searchByTag (st : Store) (tag : string) (limit : Z) : list SessionMemory :=
  Js.slice0 limit
    (filter (fun session =>
               existsb (fun t => String.eqb (toLowerCase t) (toLowerCase tag))
                       (Mem.tags session))
            (getAll st false)).

Definition getByDateRange (st : Store) (fromDate toDate : Z) (projectPath : option string)
  : list SessionMemory :=
  let sessions :=
    if Js.truthy_opt_string projectPath then getRecent st 1000 projectPath
    else getAll st false in
  filter (fun session =>
            (fromDate <=? Mem.startedAt session) && (Mem.startedAt session <=? toDate))
         sessions.

Definition getWithPendingTasks (st : Store) (projectPath : option string)
  : list SessionMemory :=
  let sessions :=
    if Js.truthy_opt_string projectPath then getRecent st 100 projectPath
    else getAll st false in
  filter (fun session => 0 <? Mem.tasksPending session) sessions.

Definition getWithBlockers (st : Store) (projectPath : option string)
  : list SessionMemory :=
  let sessions :=
    if Js.truthy_opt_string projectPath then getRecent st 100 projectPath
    else getAll st false in
  filter (fun session => (0 <? List.length (Mem.blockers session))%nat) sessions.

End SearchIndex.

Section Decompress.

(** [zlib.gunzipSync], which throws on what is no gzip stream, and
    [content.toString('utf-8')]. *)
Variable Blob : Type.
Variable gunzipSync : Blob -> option Blob.
Variable toString : Blob -> string.

(** [decompressLogFile]: [None] for the null result. *)
Definition decompressLogFile (fs : list (string * Blob)) (archivePath : string)
  : option string :=
  if negb (existsSync fs archivePath) then None
  else
    match readFileSync fs archivePath with
    | None => None
    | Some compressed =>
        match gunzipSync compressed with
        | None => None
        | Some content => Some (toString content)
        end
    end.

End Decompress.

Arguments decompressLogFile {Blob} gunzipSync toString fs archivePath.

(** [RemoteSessionInfo] and [SyncReport] of [src/sync/cloud.ts] and
    [src/types.ts]. *)
Module Remote.
Record RemoteSessionInfo := {
  sessionId : string;
  deviceId : string;
  uploadedAt : Z;
  size : Z;
  key : string
}.
End Remote.

Record SyncReport := {
  uploaded : Z;
  downloaded : Z;
  conflicts : Z
}.

Section CloudSync.

(** The configuration the run reads ([enabled], [bucket]), the id of this
    device, and the remote side as the run meets it: whether
    [uploadSession] goes through for a session, what [listRemoteSessions]
    returns ([None] when it throws), and the session [downloadSession]
    returns for an entry ([None] when it throws). *)
Variable enabled : bool.
Variable bucket : option string.
Variable thisDevice : string.
Variable uploadSession : SessionMemory -> bool.
Variable listRemoteSessions : option (list Remote.RemoteSessionInfo).
Variable downloadSession : Remote.RemoteSessionInfo -> option SessionMemory.

(** Step 1 of [sync]: the loop over the unsynced sessions. *)
Fixpoint upload_unsynced (clock : Z) (unsynced : list SessionMemory) (st : Store)
    (uploaded : Z) : Store * Z :=
  match unsynced with
  | [] => (st, uploaded)
  | session :: rest =>
      if uploadSession session
      then upload_unsynced clock rest (markSynced clock st (Mem.id session)) (uploaded + 1)
      else upload_unsynced clock rest st uploaded
  end.

(** [session.synced = true; session.syncedAt = new Date()]. *)
Definition as_synced (clock : Z) (s : SessionMemory) : SessionMemory :=
  {| Mem.id := Mem.id s;
     Mem.claudeSessionId := Mem.claudeSessionId s;
     Mem.projectPath := Mem.projectPath s;
     Mem.projectName := Mem.projectName s;
     Mem.startedAt := Mem.startedAt s;
     Mem.endedAt := Mem.endedAt s;
     Mem.duration := Mem.duration s;
     Mem.summary := Mem.summary s;
     Mem.description := Mem.description s;
     Mem.tasks := Mem.tasks s;
     Mem.tasksCompleted := Mem.tasksCompleted s;
     Mem.tasksPending := Mem.tasksPending s;
     Mem.filesCreated := Mem.filesCreated s;
     Mem.filesModified := Mem.filesModified s;
     Mem.filesDeleted := Mem.filesDeleted s;
     Mem.lastUserMessage := Mem.lastUserMessage s;
     Mem.lastAssistantMessage := Mem.lastAssistantMessage s;
     Mem.nextSteps := Mem.nextSteps s;
     Mem.keyDecisions := Mem.keyDecisions s;
     Mem.blockers := Mem.blockers s;
     Mem.tokensUsed := Mem.tokensUsed s;
     Mem.messagesCount := Mem.messagesCount s;
     Mem.toolCallsCount := Mem.toolCallsCount s;
     Mem.tags := Mem.tags s;
     Mem.archived := Mem.archived s;
     Mem.archivedAt := Mem.archivedAt s;
     Mem.synced := Some true;
     Mem.syncedAt := Some clock;
     Mem.logFile := Mem.logFile s;
     Mem.logFileArchived := Mem.logFileArchived s |}.

(** Step 2 of [sync]: the loop over the remote entries. *)
Fixpoint download_remote (clock : Z) (remoteSessions : list Remote.RemoteSessionInfo)
    (st : Store) (downloaded : Z) : Store * Z :=
  match remoteSessions with
  | [] => (st, downloaded)
  | info :: rest =>
      if String.eqb (Remote.deviceId info) thisDevice
      then download_remote clock rest st downloaded
      else
        match getById st (Remote.sessionId info) with
        | Some _ => download_remote clock rest st downloaded
        | None =>
            match downloadSession info with
            | Some session =>
                download_remote clock rest (save clock st (as_synced clock session))
                                (downloaded + 1)
            | None => download_remote clock rest st downloaded
            end
        end
  end.

(** [CloudSync.sync]; the clock stands still during a run. *)
Definition sync (clock : Z) (st : Store) : Store * SyncReport :=
  let report := {| uploaded := 0; downloaded := 0; conflicts := 0 |} in
  if negb enabled then (st, report)
  else if negb (Js.truthy_opt_string bucket) then (st, report)
  else
    let '(st1, up) := upload_unsynced clock (getUnsyncedSessions st) st 0 in
    match listRemoteSessions with
    | None => (st1, {| uploaded := up; downloaded := 0; conflicts := 0 |})
    | Some remoteSessions =>
        let '(st2, down) := download_remote clock remoteSessions st1 0 in
        (st2, {| uploaded := up; downloaded := down; conflicts := 0 |})
    end.

End CloudSync.

(* ================================================================== *)
(** * The vocabulary of the properties *)

(** ** JSON: the text of a value and the fuel its parse needs *)

Section JsonVocabulary.
Import JSON.

Definition json_ind (P : json -> Prop)
    (Hnull : P JNull) (Hbool : forall b, P (JBool b)) (Hstr : forall s, P (JString s))
    (Harr : forall l, Forall P l -> P (JArray l))
    (Hobj : forall m, Forall (fun kv => P (snd kv)) m -> P (JObject m)) :
  forall v, P v :=
  fix go (v : json) : P v :=
    match v with
    | JNull => Hnull
    | JBool b => Hbool b
    | JString s => Hstr s
    | JArray l =>
        Harr l ((fix all (l : list json) : Forall P l :=
                   match l with
                   | [] => Forall_nil P
                   | x :: l' => Forall_cons x (go x) (all l')
                   end) l)
    | JObject m =>
        Hobj m ((fix all (m : list (string * json)) : Forall (fun kv => P (snd kv)) m :=
                   match m with
                   | [] => Forall_nil _
                   | kv :: m' => Forall_cons kv (go (snd kv)) (all m')
                   end) m)
    end.

Fixpoint need (v : json) : nat :=
  match v with
  | JArray l => S (fold_right (fun x acc => S (Nat.max (need x) acc)) 0%nat l)
  | JObject m => S (fold_right (fun kv acc => S (Nat.max (need (snd kv)) acc)) 0%nat m)
  | _ => 1%nat
  end.

Definition starts_value (s : list ascii) : Prop :=
  exists c r, s = c :: r /\ is_ws c = false
              /\ Ascii.eqb c "]"%char = false /\ Ascii.eqb c "}"%char = false.

Definition elems_text (l : list json) : list ascii := sep_concat (map stringify_chars l).
Definition member_text (kv : string * json) : list ascii :=
  quote (fst kv) ++ ":"%char :: stringify_chars (snd kv).

Definition need_elems (l : list json) : nat :=
  fold_right (fun x acc => S (Nat.max (need x) acc)) 0%nat l.
Definition need_members (m : list (string * json)) : nat :=
  fold_right (fun kv acc => S (Nat.max (need (snd kv)) acc)) 0%nat m.

Definition parses (v : json) : Prop :=
  forall rest fuel, (need v <= fuel)%nat ->
    parse_value fuel (stringify_chars v ++ rest) = Some (v, rest).

End JsonVocabulary.

(** ** Sessions and stores of the examples *)

(** The session of [createTestSession] in [tests/store/sessions.test.ts],
    with the members the tests and the examples below override. *)
Definition testSession (id : string) (startedAt : Z) (summary : string)
    (tags : list string) (archived : bool) (archivedAt : option Z)
    (logFileArchived : option string) : SessionMemory :=
  {| Mem.id := id;
     Mem.claudeSessionId := "claude-session-123";
     Mem.projectPath := "/test/project";
     Mem.projectName := "test-project";
     Mem.startedAt := startedAt;
     Mem.endedAt := startedAt + 3600000;
     Mem.duration := 60;
     Mem.summary := summary;
     Mem.description := "Test session description";
     Mem.tasks :=
       [ JSON.JObject [ ("id", JSON.JString "1"); ("description", JSON.JString "Task 1");
                        ("status", JSON.JString "completed");
                        ("createdAt", JSON.JString "2025-01-12T10:00:00.000Z") ];
         JSON.JObject [ ("id", JSON.JString "2"); ("description", JSON.JString "Task 2");
                        ("status", JSON.JString "pending");
                        ("createdAt", JSON.JString "2025-01-12T10:00:00.000Z") ] ]%string;
     Mem.tasksCompleted := 1;
     Mem.tasksPending := 1;
     Mem.filesCreated := ["/test/file1.ts"]%string;
     Mem.filesModified := ["/test/file2.ts"]%string;
     Mem.filesDeleted := [];
     Mem.lastUserMessage := "Last user message";
     Mem.lastAssistantMessage := "Last assistant message";
     Mem.nextSteps := ["Next step 1"]%string;
     Mem.keyDecisions := ["Decision 1"]%string;
     Mem.blockers := [];
     Mem.tokensUsed := 5000;
     Mem.messagesCount := 10;
     Mem.toolCallsCount := 5;
     Mem.tags := tags;
     Mem.archived := archived;
     Mem.archivedAt := archivedAt;
     Mem.synced := None;
     Mem.syncedAt := None;
     Mem.logFile := "/test/log.jsonl";
     Mem.logFileArchived := logFileArchived |}.

(** 2025-01-12T10:00:00Z *)
Definition jan12 : Z := 1736676000000.

Definition emptyStore : Store := newSessionStore "/tmp/cc-sessions-store-test/test.db".

(** The store of the search test: one session saved into the empty store. *)
Definition oneRecord : Store :=
  save jan12 emptyStore
    (testSession "test_1" jan12 "Implemented authentication feature"
       ["test"; "typescript"]%string false None None).

Definition Bytes : Type := Z.
Definition bytes_size (b : Bytes) : Z := b.

(** Stand-ins for the two auxiliary functions of FTS5 in closed examples;
    with this schema the statement never gets to call them. *)
Definition flat_bm25 (_ : Sqlite.phrase) (_ : list FtsEntry) (_ : FtsEntry) : Q := 0%Q.
Definition plain_highlight (_ : Sqlite.phrase) (v : option string) : option string := v.

(** The query that is one NUL character. *)
Definition nul_query : string := String Ascii.zero EmptyString.

(** [DEFAULT_CONFIG.retention]. *)
Definition defaultRetention : RetentionConfig :=
  {| fullSessions := "1y";
     archives := "forever";
     searchIndex := "forever";
     overrideClaudeRetention := true;
     maxStorageGb := 10 |}.

Definition home : string := "/home/user".

(** One archived session whose compressed log takes 20 GB, next to a
    database file of 4096 bytes. *)
Definition bigArchive : string := "/home/user/.cc-sessions/archive/test_1.jsonl.gz".

Definition crowded : World Bytes :=
  {| store :=
       save jan12 (newSessionStore (DB_PATH home))
         (testSession "test_1" jan12 "Test session summary" ["test"]%string
            true (Some jan12) (Some bigArchive));
     files := [ (DB_PATH home, 4096); (bigArchive, 20000000000) ] |}.

(** ** The store *)

(** What storage keeps of a session: an [archivedAt] or [syncedAt] of 0
    and an empty [logFileArchived] are stored as NULL, and [synced] comes
    back as a boolean. *)
Definition stored (s : SessionMemory) : SessionMemory :=
  {| Mem.id := Mem.id s;
     Mem.claudeSessionId := Mem.claudeSessionId s;
     Mem.projectPath := Mem.projectPath s;
     Mem.projectName := Mem.projectName s;
     Mem.startedAt := Mem.startedAt s;
     Mem.endedAt := Mem.endedAt s;
     Mem.duration := Mem.duration s;
     Mem.summary := Mem.summary s;
     Mem.description := Mem.description s;
     Mem.tasks := Mem.tasks s;
     Mem.tasksCompleted := Mem.tasksCompleted s;
     Mem.tasksPending := Mem.tasksPending s;
     Mem.filesCreated := Mem.filesCreated s;
     Mem.filesModified := Mem.filesModified s;
     Mem.filesDeleted := Mem.filesDeleted s;
     Mem.lastUserMessage := Mem.lastUserMessage s;
     Mem.lastAssistantMessage := Mem.lastAssistantMessage s;
     Mem.nextSteps := Mem.nextSteps s;
     Mem.keyDecisions := Mem.keyDecisions s;
     Mem.blockers := Mem.blockers s;
     Mem.tokensUsed := Mem.tokensUsed s;
     Mem.messagesCount := Mem.messagesCount s;
     Mem.toolCallsCount := Mem.toolCallsCount s;
     Mem.tags := Mem.tags s;
     Mem.archived := Mem.archived s;
     Mem.archivedAt :=
       match Mem.archivedAt s with Some 0 => None | v => v end;
     Mem.synced :=
       Some (match Mem.synced s with Some b => b | None => false end);
     Mem.syncedAt :=
       match Mem.syncedAt s with Some 0 => None | v => v end;
     Mem.logFile := Mem.logFile s;
     Mem.logFileArchived :=
       match Mem.logFileArchived s with Some EmptyString => None | v => v end |}.

Definition other_id (s : SessionMemory) (r : Row) : bool :=
  negb (String.eqb (Col.id r) (Mem.id s)).

(** The rows [archiveOld] is after: started before the cutoff, not archived. *)
Definition due (cutoff : Z) (r : Row) : bool :=
  (Col.started_at r <? cutoff) && (Col.archived r =? 0).

(** [r'] is [r] up to the columns [archived] and [archived_at]. *)
Definition same_but_archive (r r' : Row) : Prop :=
  Col.update r' (Col.archived r) (Col.archived_at r) (Col.synced r') (Col.synced_at r')
             (Col.log_file_archived r') (Col.updated_at r') = r.

(** The least (greatest) [started_at] of the table, absent when the table
    is empty and when that value is 0. *)
Definition extreme_started_at (le : Z -> Z -> Prop) (rows : list Row) (v : option Z) : Prop :=
  match v with
  | Some m =>
      m <> 0 /\ In m (map Col.started_at rows)
      /\ Forall (fun r => le m (Col.started_at r)) rows
  | None =>
      rows = []
      \/ (In 0 (map Col.started_at rows) /\ Forall (fun r => le 0 (Col.started_at r)) rows)
  end.

Definition index_matches (p : Sqlite.phrase) (index : list FtsEntry) : bool :=
  existsb (fun e => Sqlite.phrase_matches p (fts_tokens e)) index.

(** The WHERE clause of [simplSearch]. *)
Definition like_any (query : string) (r : Row) : bool :=
  let pattern := ("%" ++ query ++ "%")%string in
  Sqlite.like (Col.summary r) pattern
  || Sqlite.like (Col.description r) pattern
  || Sqlite.like (Col.last_user_message r) pattern.

(** The result [simplSearch] makes of a row. *)
Definition fallback_result (row : Row) : SearchResult :=
  {| session := rowToSession row;
     score := 1;
     matches :=
       [ {| field := "summary";
            text := Js.string_or_empty (Col.summary row);
            highlighted := Js.string_or_empty (Col.summary row) |} ] |}.

(** [hay] holds [needle] as a substring. *)
Fixpoint contains (needle hay : string) : bool :=
  String.prefix needle hay
  || match hay with
     | EmptyString => false
     | String _ hay' => contains needle hay'
     end.

Definition erase (r : Row) : Row :=
  {| Col.rowid := 0;
     Col.id := Col.id r;
     Col.claude_session_id := Col.claude_session_id r;
     Col.project_path := Col.project_path r;
     Col.project_name := Col.project_name r;
     Col.started_at := Col.started_at r;
     Col.ended_at := Col.ended_at r;
     Col.duration := Col.duration r;
     Col.summary := Col.summary r;
     Col.description := Col.description r;
     Col.tasks_json := Col.tasks_json r;
     Col.tasks_completed := Col.tasks_completed r;
     Col.tasks_pending := Col.tasks_pending r;
     Col.files_created_json := Col.files_created_json r;
     Col.files_modified_json := Col.files_modified_json r;
     Col.files_deleted_json := Col.files_deleted_json r;
     Col.last_user_message := Col.last_user_message r;
     Col.last_assistant_message := Col.last_assistant_message r;
     Col.next_steps_json := Col.next_steps_json r;
     Col.key_decisions_json := Col.key_decisions_json r;
     Col.blockers_json := Col.blockers_json r;
     Col.tokens_used := Col.tokens_used r;
     Col.messages_count := Col.messages_count r;
     Col.tool_calls_count := Col.tool_calls_count r;
     Col.tags_json := Col.tags_json r;
     Col.archived := Col.archived r;
     Col.archived_at := Col.archived_at r;
     Col.synced := Col.synced r;
     Col.synced_at := Col.synced_at r;
     Col.log_file := Col.log_file r;
     Col.log_file_archived := Col.log_file_archived r;
     Col.created_at := 0;
     Col.updated_at := 0 |}.

Definition agree (l1 l2 : list Row) : Prop := map erase l1 = map erase l2.

(** A function of a row that does not look at the erased columns. *)
Definition blind {B} (h : Row -> B) : Prop := forall r, h (erase r) = h r.

Section Observations.
Variable Blob : Type.
Variable blob_size : Blob -> Z.
Variable homedir : string.
Variable bm25 : Sqlite.phrase -> list FtsEntry -> FtsEntry -> Q.
Variable highlight : Sqlite.phrase -> option string -> option string.

(** Every read operation of the store answers alike on both. *)
Definition same_observations (st1 st2 : Store) : Prop :=
  (forall id, getById st1 id = getById st2 id)
  /\ (forall includeArchived, getAll st1 includeArchived = getAll st2 includeArchived)
  /\ (forall query limit,
        search bm25 highlight st1 query limit = search bm25 highlight st2 query limit)
  /\ (forall fs : list (string * Blob),
        getStats blob_size homedir fs st1 = getStats blob_size homedir fs st2)
  /\ (forall projectPath, getLastForProject st1 projectPath = getLastForProject st2 projectPath)
  /\ (forall limit projectPath,
        getRecent st1 limit projectPath = getRecent st2 limit projectPath)
  /\ getArchived st1 = getArchived st2
  /\ getUnsyncedSessions st1 = getUnsyncedSessions st2
  /\ (forall id limit, getRelated st1 id limit = getRelated st2 id limit).

End Observations.

Arguments same_observations {Blob} blob_size homedir bm25 highlight st1 st2.

(** ** The search index and the retention manager *)

Definition touched (s : SessionMemory) : list string :=
  Mem.filesCreated s ++ Mem.filesModified s.

(** The additive score: 5 for the same project, 3 for each file of the
    target among the candidate's, 2 for each tag of the target among the
    candidate's. *)
Definition similarity (target s : SessionMemory) : Z :=
  (if String.eqb (Mem.projectPath s) (Mem.projectPath target) then 5 else 0)
  + 3 * count (Js.includes (touched s)) (touched target)
  + 2 * count (Js.includes (Mem.tags s)) (Mem.tags target).

(** The other records that are not archived, in the order of
    [getAll(false)]. *)
Definition others (st : Store) (sessionId : string) : list SessionMemory :=
  filter (fun s => negb (String.eqb (Mem.id s) sessionId)) (getAll st false).

(** The number a string of decimal digits denotes. *)
Fixpoint decimal (digits : list ascii) : Z :=
  match digits with
  | [] => 0
  | d :: digits' =>
      (Z.of_nat (nat_of_ascii d) - 48) * 10 ^ Z.of_nat (List.length digits') + decimal digits'
  end.

Definition all_digits (digits : list ascii) : Prop :=
  digits <> [] /\ forallb Sqlite.is_digit digits = true.

Definition of_chars (cs : list ascii) : string := string_of_list_ascii cs.

(** ** Stores the operations produce *)

(** A text column that holds [JSON.stringify] of a list of strings. *)
Definition json_strings (v : option string) : Prop :=
  exists l, v = Some (stringify_strings l).

(** What [save] writes and no UPDATE of the store undoes: the two flags are
    0 or 1 and the list columns hold lists of strings. *)
Definition row_ok (r : Row) : Prop :=
  (Col.archived r = 0 \/ Col.archived r = 1)
  /\ (Col.synced r = 0 \/ Col.synced r = 1)
  /\ json_strings (Col.files_created_json r)
  /\ json_strings (Col.files_modified_json r)
  /\ json_strings (Col.files_deleted_json r)
  /\ json_strings (Col.next_steps_json r)
  /\ json_strings (Col.key_decisions_json r)
  /\ json_strings (Col.blockers_json r)
  /\ json_strings (Col.tags_json r).

(** The primary key holds and every row is one the store wrote. *)
Definition consistent (st : Store) : Prop :=
  NoDup (map Col.id (sessions st)) /\ Forall row_ok (sessions st).

Definition has_id (id : string) (r : Row) : bool := String.eqb (Col.id r) id.

(** [s] with the five members an UPDATE of the store can change. *)
Definition amend (s : SessionMemory) (archived : bool) (archivedAt : option Z)
    (synced : option bool) (syncedAt : option Z) (logFileArchived : option string)
  : SessionMemory :=
  {| Mem.id := Mem.id s;
     Mem.claudeSessionId := Mem.claudeSessionId s;
     Mem.projectPath := Mem.projectPath s;
     Mem.projectName := Mem.projectName s;
     Mem.startedAt := Mem.startedAt s;
     Mem.endedAt := Mem.endedAt s;
     Mem.duration := Mem.duration s;
     Mem.summary := Mem.summary s;
     Mem.description := Mem.description s;
     Mem.tasks := Mem.tasks s;
     Mem.tasksCompleted := Mem.tasksCompleted s;
     Mem.tasksPending := Mem.tasksPending s;
     Mem.filesCreated := Mem.filesCreated s;
     Mem.filesModified := Mem.filesModified s;
     Mem.filesDeleted := Mem.filesDeleted s;
     Mem.lastUserMessage := Mem.lastUserMessage s;
     Mem.lastAssistantMessage := Mem.lastAssistantMessage s;
     Mem.nextSteps := Mem.nextSteps s;
     Mem.keyDecisions := Mem.keyDecisions s;
     Mem.blockers := Mem.blockers s;
     Mem.tokensUsed := Mem.tokensUsed s;
     Mem.messagesCount := Mem.messagesCount s;
     Mem.toolCallsCount := Mem.toolCallsCount s;
     Mem.tags := Mem.tags s;
     Mem.archived := archived;
     Mem.archivedAt := archivedAt;
     Mem.synced := synced;
     Mem.syncedAt := syncedAt;
     Mem.logFile := Mem.logFile s;
     Mem.logFileArchived := logFileArchived |}.

(** The session as [markSynced] at time [clock] leaves it. *)
Definition marked_synced (clock : Z) (s : SessionMemory) : SessionMemory :=
  amend s (Mem.archived s) (Mem.archivedAt s) (Some true)
        (Js.or_null_number (Some clock)) (Mem.logFileArchived s).

(** The session as [updateArchivePath] leaves it. *)
Definition with_archive (archivePath : string) (s : SessionMemory) : SessionMemory :=
  amend s (Mem.archived s) (Mem.archivedAt s) (Mem.synced s) (Mem.syncedAt s)
        (Js.or_null_string (Some archivePath)).

(** The session as [archiveOld] at time [clock] leaves one it archives. *)
Definition archived_at_time (clock : Z) (s : SessionMemory) : SessionMemory :=
  amend s true (Js.or_null_number (Some clock)) (Mem.synced s) (Mem.syncedAt s)
        (Mem.logFileArchived s).

(** The sessions [getRecent] is asked for: of the project, when one is
    given and not empty. *)
Definition of_project (projectPath : option string) (s : SessionMemory) : bool :=
  negb (Js.truthy_opt_string projectPath)
  || String.eqb (Mem.projectPath s) (Js.string_or_empty projectPath).

(** Where [compressLogFile] puts the archive of a session. *)
Definition archive_path (homedir : string) (session : SessionMemory) : string :=
  path_join (ARCHIVE_DIR homedir) (Mem.id session ++ ".jsonl.gz").

(** The files a session touched, deleted ones included. *)
Definition all_files (s : SessionMemory) : list string :=
  Mem.filesCreated s ++ Mem.filesModified s ++ Mem.filesDeleted s.

(** The options of [SearchIndex.search] with their defaults filled in. *)
Definition limit_of (options : Opt.SearchOptions) : Z :=
  match Opt.limit options with Some n => n | None => 20 end.
Definition archived_too (options : Opt.SearchOptions) : bool :=
  match Opt.includeArchived options with Some b => b | None => false end.

(** The sessions a listing of [SearchIndex] looks at: all that are not
    archived, or, with a project path that is not empty, the [n] newest of
    that project. *)
Definition looked_at (st : Store) (projectPath : option string) (n : nat)
  : list SessionMemory :=
  if Js.truthy_opt_string projectPath
  then firstn n (filter (of_project projectPath) (getAll st false))
  else getAll st false.

(** A store with no row left to upload. *)
Definition all_synced (st : Store) : Prop :=
  Forall (fun r => Col.synced r <> 0) (sessions st).

(** ** Examples for the retention manager and for sync *)

(** The session of [oneRecord]. *)
Definition authSession : SessionMemory :=
  testSession "test_1" jan12 "Implemented authentication feature"
    ["test"; "typescript"]%string false None None.

(** [oneRecord] with the log of its session on disk, 7 bytes long. *)
Definition logWorld : World Bytes :=
  {| store := oneRecord; files := [ ("/test/log.jsonl"%string, 7) ] |}.

(** A stand-in for gzip on sizes and its inverse, and for [toString]. *)
Definition pack (b : Bytes) : Bytes := b + 1.
Definition unpack (b : Bytes) : option Bytes := Some (b - 1).
Definition show (b : Bytes) : string :=
  if b =? 7 then "session" else EmptyString.

(** A remote side that lists one session of another device and returns,
    for an entry, a session under the id the entry names. *)
Definition otherDevice : list Remote.RemoteSessionInfo :=
  [ {| Remote.sessionId := "remote_1";
       Remote.deviceId := "device-b";
       Remote.uploadedAt := jan12;
       Remote.size := 512;
       Remote.key := "sessions/device-b/remote_1.enc" |} ]%string.

Definition fetch (info : Remote.RemoteSessionInfo) : option SessionMemory :=
  Some (testSession (Remote.sessionId info) jan12 "Remote session" ["remote"]%string
          false None None).

(** ** Words and where they occur *)

(** An ASCII letter or digit. *)
Definition alnum (c : ascii) : bool :=
  Sqlite.is_upper c || Sqlite.is_lower c || Sqlite.is_digit c.

(** A word: letters and digits, at least one. *)
Definition word (w : list ascii) : Prop :=
  w <> [] /\ forallb alnum w = true.

(** [text] holds [w] at the start of one of its words, with no NUL byte
    before it: [w] stands at the start of the text or after a character
    that is no letter, digit or byte of a multi-byte character. *)
Definition starts_a_word (w : list ascii) (text : string) : Prop :=
  exists before after,
    Sqlite.chars text = before ++ w ++ after
    /\ forallb (fun c => negb (Ascii.eqb c Ascii.zero)) before = true
    /\ (before = []
        \/ exists before' c, before = before' ++ [c] /\ Sqlite.is_token_char c = false).

(** [r'] is [r] after updates of its archive path: the same id, flag and
    log file, and an archive path if [r] had one. *)
Definition only_archive_path_set (r r' : Row) : Prop :=
  Col.id r' = Col.id r
  /\ Col.archived r' = Col.archived r
  /\ Col.log_file r' = Col.log_file r
  /\ (Js.truthy_opt_string (Col.log_file_archived r) = true ->
      Js.truthy_opt_string (Col.log_file_archived r') = true).

(** The session that a clean-up 400 days later leaves archived in
    [logWorld]. *)
Definition agedSession : SessionMemory :=
  hd authSession
     (getArchived
        (store (fst (runCleanup bytes_size pack home (jan12 + 400 * ms_per_day)
                       defaultRetention logWorld)))).

(* ================================================================== *)
(** * Properties *)

(** ** JSON: what [stringify] writes, [parse] reads back *)

Section JsonRoundTrip.
Import JSON.

Lemma parse_body_escape (c : ascii) (tl : list ascii) :
  parse_body (escape_char c ++ tl) = prepend [c] (parse_body tl).
Proof.
  destruct c as [b0 b1 b2 b3 b4 b5 b6 b7].
  destruct b0, b1, b2, b3, b4, b5, b6, b7; reflexivity.
Qed.

Lemma parse_body_escaped (l rest : list ascii) :
  parse_body (flat_map escape_char l ++ dquote :: rest) = Some (l, rest).
Proof.
  induction l as [|c l IH]; [reflexivity|].
  cbn [flat_map]. rewrite <- app_assoc, parse_body_escape, IH. reflexivity.
Qed.

Lemma parse_string_quote (s : string) (rest : list ascii) :
  parse_string (quote s ++ rest) = Some (s, rest).
Proof.
  unfold quote, parse_string.
  change ((dquote :: flat_map escape_char (list_ascii_of_string s) ++ [dquote]) ++ rest)
    with (dquote :: (flat_map escape_char (list_ascii_of_string s) ++ [dquote]) ++ rest).
  rewrite <- app_assoc. cbn [app].
  change (Ascii.eqb dquote dquote) with true. cbv iota.
  rewrite parse_body_escaped, string_of_list_ascii_of_string. reflexivity.
Qed.

Lemma stringify_starts (v : json) (rest : list ascii) :
  starts_value (stringify_chars v ++ rest).
Proof.
  destruct v as [|[|]|s|l|m]; cbn; eexists _, _; repeat split; reflexivity.
Qed.

Lemma skip_ws_starts (s : list ascii) : starts_value s -> skip_ws s = s.
Proof.
  intros (c & r & -> & Hws & _). cbn. now rewrite Hws.
Qed.

Lemma quote_starts (k : string) (rest : list ascii) :
  skip_ws (quote k ++ rest) = quote k ++ rest.
Proof. reflexivity. Qed.

Lemma parse_elements_S fuel s :
  parse_elements (S fuel) s =
  match parse_value fuel s with
  | Some (v, rest) =>
      match skip_ws rest with
      | d :: rest' =>
          if Ascii.eqb d ","%char then
            option_map (fun p => (v :: fst p, snd p)) (parse_elements fuel rest')
          else if Ascii.eqb d "]"%char then Some ([v], rest')
          else None
      | [] => None
      end
  | None => None
  end.
Proof. reflexivity. Qed.

Lemma elems_text_cons (x y : json) (l : list json) :
  elems_text (x :: y :: l) = stringify_chars x ++ ","%char :: elems_text (y :: l).
Proof. reflexivity. Qed.

Lemma skip_ws_cons (c : ascii) (t : list ascii) :
  is_ws c = false -> skip_ws (c :: t) = c :: t.
Proof. intros H. cbn. now rewrite H. Qed.

Lemma parse_elements_text (l : list json) :
  Forall parses l -> l <> [] ->
  forall rest fuel, (need_elems l <= fuel)%nat ->
    parse_elements fuel (elems_text l ++ "]"%char :: rest) = Some (l, rest).
Proof.
  induction 1 as [|x l Hx Hl IH]; [congruence|]. intros _ rest fuel Hfuel.
  cbn [need_elems fold_right] in Hfuel. fold (need_elems l) in Hfuel.
  destruct fuel as [|fuel]; [lia|].
  rewrite parse_elements_S.
  destruct l as [|y l].
  - change (elems_text [x]) with (stringify_chars x).
    rewrite Hx by lia. reflexivity.
  - rewrite elems_text_cons, <- app_assoc, <- app_comm_cons.
    rewrite Hx by lia.
    rewrite skip_ws_cons by reflexivity.
    cbv iota. change (Ascii.eqb ","%char ","%char) with true. cbv iota.
    rewrite IH by (congruence || lia). reflexivity.
Qed.

Lemma members_text_cons (kv kv' : string * json) (m : list (string * json)) :
  sep_concat (map member_text (kv :: kv' :: m))
  = member_text kv ++ ","%char :: sep_concat (map member_text (kv' :: m)).
Proof. reflexivity. Qed.

Lemma parse_members_S fuel s :
  parse_members (S fuel) s =
  match parse_string (skip_ws s) with
  | Some (k, rest) =>
      match skip_ws rest with
      | d :: rest' =>
          if Ascii.eqb d ":"%char then
            match parse_value fuel rest' with
            | Some (v, rest2) =>
                match skip_ws rest2 with
                | e :: rest3 =>
                    if Ascii.eqb e ","%char then
                      option_map (fun p => ((k, v) :: fst p, snd p))
                                 (parse_members fuel rest3)
                    else if Ascii.eqb e "}"%char then Some ([(k, v)], rest3)
                    else None
                | [] => None
                end
            | None => None
            end
          else None
      | [] => None
      end
  | None => None
  end.
Proof. reflexivity. Qed.

Lemma parse_member_head (kv : string * json) (tl : list ascii) (fuel : nat) :
  parses (snd kv) -> (need (snd kv) <= fuel)%nat ->
  parse_members (S fuel) (member_text kv ++ tl) =
  match skip_ws tl with
  | e :: rest3 =>
      if Ascii.eqb e ","%char then
        option_map (fun p => (kv :: fst p, snd p)) (parse_members fuel rest3)
      else if Ascii.eqb e "}"%char then Some ([kv], rest3)
      else None
  | [] => None
  end.
Proof.
  intros Hv Hfuel. destruct kv as [k v]. cbn [fst snd] in *.
  rewrite parse_members_S. unfold member_text. cbn [fst snd].
  rewrite <- app_assoc, quote_starts, parse_string_quote, <- app_comm_cons.
  rewrite skip_ws_cons by reflexivity.
  cbv iota. change (Ascii.eqb ":"%char ":"%char) with true. cbv iota.
  rewrite Hv by lia. reflexivity.
Qed.

Lemma parse_members_text (m : list (string * json)) :
  Forall (fun kv => parses (snd kv)) m -> m <> [] ->
  forall rest fuel, (need_members m <= fuel)%nat ->
    parse_members fuel (sep_concat (map member_text m) ++ "}"%char :: rest) = Some (m, rest).
Proof.
  induction 1 as [|kv m Hkv Hm IH]; [congruence|]. intros _ rest fuel Hfuel.
  cbn [need_members fold_right] in Hfuel. fold (need_members m) in Hfuel.
  destruct fuel as [|fuel]; [lia|].
  destruct m as [|kv' m].
  - change (sep_concat (map member_text [kv])) with (member_text kv).
    rewrite parse_member_head by (assumption || lia). reflexivity.
  - rewrite members_text_cons, <- app_assoc, <- app_comm_cons.
    rewrite parse_member_head by (assumption || lia).
    rewrite skip_ws_cons by reflexivity.
    cbv iota. change (Ascii.eqb ","%char ","%char) with true. cbv iota.
    rewrite IH by (congruence || lia). reflexivity.
Qed.

Lemma parse_value_string fuel r :
  parse_value (S fuel) (dquote :: r) =
  match parse_string (dquote :: r) with
  | Some (str, rest) => Some (JString str, rest)
  | None => None
  end.
Proof. reflexivity. Qed.

Lemma parse_value_array fuel r :
  parse_value (S fuel) ("["%char :: r) =
  match skip_ws r with
  | d :: r' =>
      if Ascii.eqb d "]"%char then Some (JArray [], r')
      else option_map (fun p => (JArray (fst p), snd p)) (parse_elements fuel r)
  | [] => None
  end.
Proof. reflexivity. Qed.

Lemma parse_value_object fuel r :
  parse_value (S fuel) ("{"%char :: r) =
  match skip_ws r with
  | d :: r' =>
      if Ascii.eqb d "}"%char then Some (JObject [], r')
      else option_map (fun p => (JObject (fst p), snd p)) (parse_members fuel r)
  | [] => None
  end.
Proof. reflexivity. Qed.

Lemma elems_text_starts (x : json) (l : list json) (t : list ascii) :
  starts_value (elems_text (x :: l) ++ t).
Proof.
  destruct l as [|y l].
  - apply stringify_starts.
  - rewrite elems_text_cons, <- app_assoc. apply stringify_starts.
Qed.

Lemma members_text_starts (kv : string * json) (m : list (string * json)) (t : list ascii) :
  starts_value (sep_concat (map member_text (kv :: m)) ++ t).
Proof.
  destruct m as [|kv' m].
  - eexists _, _. repeat split; reflexivity.
  - rewrite members_text_cons. eexists _, _. repeat split; reflexivity.
Qed.

Theorem parse_value_stringify (v : json) : parses v.
Proof.
  induction v as [| b | s | l IH | m IH] using json_ind; intros rest fuel Hfuel;
    (destruct fuel as [|fuel]; [cbn in Hfuel; lia|]).
  - reflexivity.
  - destruct b; reflexivity.
  - change (stringify_chars (JString s) ++ rest) with (quote s ++ rest).
    change (quote s ++ rest)
      with (dquote :: (flat_map escape_char (list_ascii_of_string s) ++ [dquote]) ++ rest).
    rewrite parse_value_string.
    change (dquote :: (flat_map escape_char (list_ascii_of_string s) ++ [dquote]) ++ rest)
      with (quote s ++ rest).
    now rewrite parse_string_quote.
  - change (stringify_chars (JArray l) ++ rest)
      with ("["%char :: (elems_text l ++ ["]"%char]) ++ rest).
    rewrite <- app_assoc, parse_value_array. cbn [app].
    destruct l as [|x l]; [reflexivity|].
    destruct (elems_text_starts x l ("]"%char :: rest)) as (c & r & E & Hws & Hb & _).
    rewrite E at 1. rewrite skip_ws_cons by exact Hws. cbv iota. rewrite Hb.
    cbn [need] in Hfuel. fold (need_elems (x :: l)) in Hfuel.
    rewrite parse_elements_text by (assumption || congruence || lia). reflexivity.
  - change (stringify_chars (JObject m) ++ rest)
      with ("{"%char :: (sep_concat (map member_text m) ++ ["}"%char]) ++ rest).
    rewrite <- app_assoc, parse_value_object. cbn [app].
    destruct m as [|kv m]; [reflexivity|].
    destruct (members_text_starts kv m ("}"%char :: rest)) as (c & r & E & Hws & _ & Hb).
    rewrite E at 1. rewrite skip_ws_cons by exact Hws. cbv iota. rewrite Hb.
    cbn [need] in Hfuel. fold (need_members (kv :: m)) in Hfuel.
    rewrite parse_members_text by (assumption || congruence || lia). reflexivity.
Qed.

Lemma need_elems_length (l : list json) :
  Forall (fun v => (need v <= List.length (stringify_chars v))%nat) l ->
  (need_elems l <= S (List.length (elems_text l)))%nat.
Proof.
  induction 1 as [|x l Hx Hl IH]; [cbn; lia|].
  cbn [need_elems fold_right]. fold (need_elems l).
  destruct l as [|y l].
  - cbn [need_elems fold_right]. change (elems_text [x]) with (stringify_chars x). lia.
  - rewrite elems_text_cons, length_app. cbn [List.length]. lia.
Qed.

Lemma need_members_length (m : list (string * json)) :
  Forall (fun kv => (need (snd kv) <= List.length (stringify_chars (snd kv)))%nat) m ->
  (need_members m <= S (List.length (sep_concat (map member_text m))))%nat.
Proof.
  induction 1 as [|kv m Hkv Hm IH]; [cbn; lia|].
  cbn [need_members fold_right]. fold (need_members m).
  assert (Hk : (need (snd kv) <= List.length (member_text kv))%nat).
  { unfold member_text. rewrite length_app. cbn [List.length]. lia. }
  destruct m as [|kv' m].
  - cbn [need_members fold_right]. change (sep_concat (map member_text [kv])) with (member_text kv). lia.
  - rewrite members_text_cons, length_app. cbn [List.length]. lia.
Qed.

Lemma need_length (v : json) : (need v <= List.length (stringify_chars v))%nat.
Proof.
  induction v as [| b | s | l IH | m IH] using json_ind.
  - cbn. lia.
  - destruct b; cbn; lia.
  - cbn [need stringify_chars]. unfold quote. cbn [List.length]. lia.
  - cbn [need]. fold (need_elems l).
    change (stringify_chars (JArray l)) with ("["%char :: elems_text l ++ ["]"%char]).
    cbn [List.length]. rewrite length_app. cbn [List.length].
    pose proof (need_elems_length l IH). lia.
  - cbn [need]. fold (need_members m).
    change (stringify_chars (JObject m))
      with ("{"%char :: sep_concat (map member_text m) ++ ["}"%char]).
    cbn [List.length]. rewrite length_app. cbn [List.length].
    pose proof (need_members_length m IH). lia.
Qed.

(** [JSON.parse(JSON.stringify(v))] is [v]. *)
Theorem parse_stringify (v : json) : parse (stringify v) = Some v.
Proof.
  unfold parse, stringify. rewrite list_ascii_of_string_of_list_ascii.
  pose proof (parse_value_stringify v [] (S (List.length (stringify_chars v)))) as H.
  rewrite app_nil_r in H. rewrite H by (pose proof (need_length v); lia).
  reflexivity.
Qed.

Lemma stringify_truthy (v : json) : Js.truthy_string (stringify v) = true.
Proof.
  unfold stringify. destruct v as [|[|]|s|l|m]; reflexivity.
Qed.

Lemma parseJson_stringify_tasks (l : list Task) :
  parseJson (Some (stringify_tasks l)) = l.
Proof.
  unfold parseJson, stringify_tasks. cbn [Js.truthy_opt_string Js.string_or_empty].
  now rewrite stringify_truthy, parse_stringify.
Qed.

Lemma as_strings_JString (l : list string) : as_strings (map JString l) = l.
Proof. induction l as [|s l IH]; cbn; [reflexivity|f_equal; exact IH]. Qed.

Lemma parseJson_stringify_strings (l : list string) :
  as_strings (parseJson (Some (stringify_strings l))) = l.
Proof.
  unfold parseJson, stringify_strings. cbn [Js.truthy_opt_string Js.string_or_empty].
  rewrite stringify_truthy, parse_stringify. cbn [negb]. apply as_strings_JString.
Qed.

End JsonRoundTrip.

(** ** save, then getById *)

Ltac row_fields :=
  cbn [Col.rowid Col.id Col.claude_session_id Col.project_path Col.project_name
       Col.started_at Col.ended_at Col.duration Col.summary Col.description
       Col.tasks_json Col.tasks_completed Col.tasks_pending Col.files_created_json
       Col.files_modified_json Col.files_deleted_json Col.last_user_message
       Col.last_assistant_message Col.next_steps_json Col.key_decisions_json
       Col.blockers_json Col.tokens_used Col.messages_count Col.tool_calls_count
       Col.tags_json Col.archived Col.archived_at Col.synced Col.synced_at
       Col.log_file Col.log_file_archived Col.created_at Col.updated_at] in *.

Lemma or_null_number_twice (v : option Z) :
  Js.or_null_number (Js.or_null_number v) = match v with Some 0 => None | _ => v end.
Proof. destruct v as [[| |]|]; reflexivity. Qed.

Lemma or_null_string_twice (v : option string) :
  Js.or_null_string (Js.or_null_string v) = match v with Some EmptyString => None | _ => v end.
Proof. destruct v as [[|]|]; reflexivity. Qed.

Lemma rowToSession_row_of_session (rowid now : Z) (s : SessionMemory) :
  rowToSession (row_of_session rowid now s) = stored s.
Proof.
  unfold rowToSession, row_of_session, stored. row_fields.
  rewrite !parseJson_stringify_strings, parseJson_stringify_tasks.
  rewrite !or_null_number_twice, or_null_string_twice.
  cbn [Js.string_or_empty].
  f_equal.
  - now destruct (Mem.archived s).
  - now destruct (Mem.archivedAt s) as [[| |]|].
  - now destruct (Mem.synced s) as [[|]|].
  - now destruct (Mem.syncedAt s) as [[| |]|].
  - now destruct (Mem.logFileArchived s) as [[|]|].
Qed.

Lemma find_app_r {A} (p : A -> bool) (l l' : list A) :
  find p l = None -> find p (l ++ l') = find p l'.
Proof. induction l as [|x l IH]; cbn; [easy|]. destruct (p x); [easy|exact IH]. Qed.

Lemma find_filter_negb {A} (p : A -> bool) (l : list A) :
  find p (filter (fun x => negb (p x)) l) = None.
Proof.
  induction l as [|x l IH]; cbn; [easy|].
  destruct (p x) eqn:E; cbn; [exact IH|]. now rewrite E.
Qed.

Lemma getById_save (now : Z) (st : Store) (s : SessionMemory) :
  getById (save now st s) (Mem.id s) = Some (stored s).
Proof.
  unfold getById, save. cbn [sessions].
  rewrite find_app_r by apply (find_filter_negb (fun r => String.eqb (Col.id r) (Mem.id s))).
  cbn [find]. row_fields. unfold row_of_session at 1. row_fields.
  rewrite String.eqb_refl. cbn [option_map]. now rewrite rowToSession_row_of_session.
Qed.

(** C3, as amended.  [save(s)] then [getById(s.id)] returns [s] in every
    field, except that [archivedAt] and [syncedAt] come back absent when
    they are timestamp 0, [logFileArchived] comes back absent when it is the
    empty string, and an absent [synced] comes back as [false]; when none of
    the four applies the value read back is [s] itself. *)
Theorem save_getById_round_trip (now : Z) (st : Store) (s : SessionMemory) :
  getById (save now st s) (Mem.id s) = Some (stored s)
  /\ (Mem.archivedAt s <> Some 0 -> Mem.syncedAt s <> Some 0 ->
      Mem.logFileArchived s <> Some EmptyString -> Mem.synced s <> None ->
      getById (save now st s) (Mem.id s) = Some s).
Proof.
  split; [apply getById_save|]. intros Ha Hs Hl Hy. rewrite getById_save. f_equal.
  destruct s as [? ? ? ? ? ? ? ? ? ? ? ? ? ? ? ? ? ? ? ? ? ? ? ? ? aAt sy sAt ? lfa].
  cbn in *. unfold stored. cbn.
  destruct aAt as [[| |]|], sAt as [[| |]|], lfa as [[|]|], sy as [|]; congruence.
Qed.

(** C3 as stated fails: a session archived at timestamp 0 is not read
    back as it was saved. *)
Lemma round_trip_counterexample :
  let s := testSession "test_1" jan12 "Test session summary" ["test"; "typescript"]%string
             true (Some 0) None in
  getById (save jan12 emptyStore s) (Mem.id s) <> Some s.
Proof. vm_compute. discriminate. Qed.


(** ** archiveOld *)

Lemma filter_none {A} (p : A -> bool) (l : list A) :
  (forall x, In x l -> p x = false) -> filter p l = [].
Proof.
  induction l as [|x l IH]; cbn; [easy|]. intros H.
  rewrite (H x) by now left. apply IH. intros y Hy. apply H. now right.
Qed.

Lemma map_unchanged {A} (p : A -> bool) (f : A -> A) (l : list A) :
  (forall x, In x l -> p x = false) -> map (fun x => if p x then f x else x) l = l.
Proof.
  induction l as [|x l IH]; cbn; [easy|]. intros H.
  rewrite (H x) by now left. f_equal. apply IH. intros y Hy. apply H. now right.
Qed.

Lemma update_same (r : Row) :
  Col.update r (Col.archived r) (Col.archived_at r) (Col.synced r) (Col.synced_at r)
             (Col.log_file_archived r) (Col.updated_at r) = r.
Proof. now destruct r. Qed.

Lemma sql_update_idle (cond : Row -> bool) (assign : Row -> Row) (st : Store) :
  (forall r, In r (sessions st) -> cond r = false) -> sql_update cond assign st = (st, 0).
Proof.
  intros H. unfold sql_update. rewrite (filter_none _ _ H), (map_unchanged _ _ _ H).
  now destruct st.
Qed.

(** C5.  [archiveOld(d)] leaves every archived row archived; it sets
    [archived = 1] and [archived_at] to the time of the call on exactly the
    rows that are not archived and started before the cutoff, changing no
    other column and no other row; it returns the number of those rows; and
    a second call with the same cutoff changes nothing and returns 0. *)
Theorem archiveOld_spec (clock clock' : Z) (st : Store) (days : Z) :
  let cutoff := clock - days * ms_per_day in
  let st' := fst (archiveOld clock clock' st days) in
  Forall2 (fun r r' =>
             (Col.archived r = 1 -> Col.archived r' = 1)
             /\ (due cutoff r = true ->
                 Col.archived r' = 1 /\ Col.archived_at r' = Some clock'
                 /\ same_but_archive r r')
             /\ (due cutoff r = false -> r' = r))
          (sessions st) (sessions st')
  /\ snd (archiveOld clock clock' st days) = count (due cutoff) (sessions st)
  /\ forall clock'', archiveOld clock clock'' st' days = (st', 0).
Proof.
  intros cutoff st'. subst st'. unfold archiveOld, sql_update. cbn [fst snd sessions].
  fold cutoff. split; [|split].
  - induction (sessions st) as [|r rows IH]; cbn [map]; constructor; [|exact IH].
    change ((Col.started_at r <? cutoff) && (Col.archived r =? 0)) with (due cutoff r).
    destruct (due cutoff r) eqn:E.
    + split; [reflexivity|]. split; [|discriminate]. intros _.
      repeat split. unfold same_but_archive. now destruct r.
    + split; [auto|]. split; [discriminate|reflexivity].
  - reflexivity.
  - intros clock''. apply sql_update_idle. cbn [sessions]. intros x Hx.
    apply in_map_iff in Hx as (r & <- & _).
    destruct ((Col.started_at r <? cutoff) && (Col.archived r =? 0)) eqn:E; [|exact E].
    cbn. now rewrite andb_false_r.
Qed.

(** ** parseDays *)

Lemma parseInt_decimal (digits : list ascii) : parseInt digits = decimal digits.
Proof.
  unfold parseInt.
  enough (H : forall acc,
             fold_left (fun n c => n * 10 + (Z.of_nat (nat_of_ascii c) - 48)) digits acc
             = acc * 10 ^ Z.of_nat (List.length digits) + decimal digits)
    by (rewrite H; lia).
  induction digits as [|d ds IH]; intros acc; cbn [fold_left decimal List.length].
  - cbn. lia.
  - rewrite IH, Nat2Z.inj_succ, Z.pow_succ_r by lia. ring.
Qed.

Lemma forallb_rev {A} (p : A -> bool) (l : list A) : forallb p (rev l) = forallb p l.
Proof.
  induction l as [|x l IH]; [reflexivity|]. cbn [rev forallb].
  rewrite forallb_app, IH. cbn. rewrite andb_true_r. apply andb_comm.
Qed.

Lemma match_retention_form (digits : list ascii) (unit : ascii) :
  all_digits digits ->
  In unit ["d"; "m"; "y"]%char ->
  match_retention (of_chars (digits ++ [unit])) = Some (digits, unit).
Proof.
  intros [Hne Hd] Hu. unfold match_retention, of_chars.
  rewrite list_ascii_of_string_of_list_ascii, rev_app_distr. cbn [rev app].
  rewrite forallb_rev, Hd, length_rev, rev_involutive.
  destruct digits as [|c ds]; [congruence|]. cbn [List.length Nat.eqb negb].
  destruct Hu as [<-|[<-|[<-|[]]]]; reflexivity.
Qed.

Lemma match_retention_some (s : string) (digits : list ascii) (unit : ascii) :
  match_retention s = Some (digits, unit) ->
  s = of_chars (digits ++ [unit]) /\ all_digits digits /\ In unit ["d"; "m"; "y"]%char.
Proof.
  unfold match_retention, of_chars.
  destruct (rev (list_ascii_of_string s)) as [|u rds] eqn:E; [discriminate|].
  destruct ((Ascii.eqb u "d" || Ascii.eqb u "m" || Ascii.eqb u "y")
            && negb (Nat.eqb (List.length rds) 0) && forallb Sqlite.is_digit rds) eqn:C;
    [|discriminate].
  intros [= <- <-].
  apply andb_true_iff in C as [C Hd]. apply andb_true_iff in C as [Hu Hlen].
  split; [|split; [split|]].
  - rewrite <- (string_of_list_ascii_of_string s). f_equal.
    rewrite <- (rev_involutive (list_ascii_of_string s)), E. reflexivity.
  - intros H. apply (f_equal (@List.length ascii)) in H. rewrite length_rev in H.
    cbn in H. rewrite H in Hlen. discriminate.
  - now rewrite forallb_rev.
  - cbn. apply orb_true_iff in Hu as [Hu|Hu]; [apply orb_true_iff in Hu as [Hu|Hu]|];
      apply Ascii.eqb_eq in Hu; subst; tauto.
Qed.

Lemma digits_not_forever (digits : list ascii) (unit : ascii) :
  all_digits digits -> String.eqb (of_chars (digits ++ [unit])) "forever" = false.
Proof.
  intros [Hne Hd]. destruct digits as [|c ds]; [congruence|].
  apply String.eqb_neq. unfold of_chars. cbn. intros [= -> _]. discriminate.
Qed.


(** ** Sorting *)

Section SortFacts.
Context {A : Type} (lt : A -> A -> bool).

Lemma insert_perm (x : A) (l : list A) : Permutation (Js.insert lt x l) (x :: l).
Proof.
  induction l as [|y l IH]; cbn; [reflexivity|].
  destruct (lt y x); [|reflexivity].
  rewrite IH. apply perm_swap.
Qed.

Lemma sort_perm (l : list A) : Permutation (Js.sort lt l) l.
Proof.
  induction l as [|x l IH]; cbn; [reflexivity|].
  rewrite insert_perm. now constructor.
Qed.

Lemma sort_nil_iff (l : list A) : Js.sort lt l = [] <-> l = [].
Proof.
  split; [|now intros ->]. intros H. pose proof (sort_perm l) as P. rewrite H in P.
  now apply Permutation_nil in P.
Qed.

(** Sorting commutes with a map that respects the comparison. *)
Lemma sort_map {B} (lt' : B -> B -> bool) (f : A -> B) (l : list A) :
  (forall a b, lt a b = lt' (f a) (f b)) ->
  map f (Js.sort lt l) = Js.sort lt' (map f l).
Proof.
  intros H. induction l as [|x l IH]; cbn; [reflexivity|]. rewrite <- IH.
  generalize (Js.sort lt l). intros s. induction s as [|y s IHs]; cbn; [reflexivity|].
  rewrite <- H. destruct (lt y x); cbn; [now rewrite IHs|reflexivity].
Qed.

(** Comparisons by a key, larger keys first. *)
Context (key : A -> Z) (Hlt : forall a b, lt a b = (key b <? key a)).

Lemma insert_sorted (x : A) (l : list A) :
  StronglySorted (fun a b => key b <= key a) l ->
  StronglySorted (fun a b => key b <= key a) (Js.insert lt x l).
Proof.
  induction 1 as [|y l Hs IH Hy]; cbn.
  - repeat constructor.
  - rewrite Hlt. destruct (Z.ltb_spec (key x) (key y)).
    + constructor; [exact IH|].
      eapply Permutation_Forall; [symmetry; apply insert_perm|].
      constructor; [lia|exact Hy].
    + constructor; [now constructor|].
      constructor; [lia|]. eapply Forall_impl; [|exact Hy]. cbn. intros; lia.
Qed.

Lemma sort_sorted (l : list A) :
  StronglySorted (fun a b => key b <= key a) (Js.sort lt l).
Proof.
  induction l as [|x l IH]; cbn; [constructor|]. now apply insert_sorted.
Qed.

(** Elements with equal keys keep the order they had. *)
Lemma insert_stable (k : Z) (x : A) (l : list A) :
  StronglySorted (fun a b => key b <= key a) l ->
  filter (fun a => key a =? k) (Js.insert lt x l)
  = filter (fun a => key a =? k) (x :: l).
Proof.
  intros Hs. induction Hs as [|y l Hs IH Hy]; [reflexivity|].
  cbn [Js.insert]. rewrite Hlt. destruct (Z.ltb_spec (key x) (key y)); [|reflexivity].
  cbn [filter] in *. rewrite IH.
  destruct (Z.eqb_spec (key x) k), (Z.eqb_spec (key y) k); try reflexivity. lia.
Qed.

Lemma sort_stable (k : Z) (l : list A) :
  filter (fun a => key a =? k) (Js.sort lt l) = filter (fun a => key a =? k) l.
Proof.
  induction l as [|x l IH]; [reflexivity|]. cbn [Js.sort].
  rewrite insert_stable by apply sort_sorted.
  cbn [filter]. now rewrite IH.
Qed.

End SortFacts.

Lemma slice0_firstn {A} (n : Z) (l : list A) :
  0 <= n -> Js.slice0 n l = firstn (Z.to_nat n) l.
Proof. intros H. unfold Js.slice0. now destruct (Z.leb_spec 0 n); [|lia]. Qed.

(** ** getRelated *)

Lemma fold_left_count {A} (p : A -> bool) (k : Z) (l : list A) (acc : Z) :
  fold_left (fun score x => if p x then score + k else score) l acc
  = acc + k * count p l.
Proof.
  unfold count. revert acc. induction l as [|x l IH]; intros acc; cbn [fold_left filter].
  - cbn. lia.
  - rewrite IH. destruct (p x); cbn [List.length]; lia.
Qed.

Lemma related_score_similarity (target s : SessionMemory) :
  related_score target s = similarity target s.
Proof.
  unfold related_score, similarity, touched. rewrite !fold_left_count.
  destruct (String.eqb _ _); lia.
Qed.

Lemma filter_map_comm {A B} (p : B -> bool) (f : A -> B) (l : list A) :
  filter p (map f l) = map f (filter (fun x => p (f x)) l).
Proof.
  induction l as [|x l IH]; cbn; [reflexivity|]. rewrite IH. now destruct (p (f x)).
Qed.

Lemma getRelated_ranked (st : Store) (sessionId : string) (limit : Z) (target : SessionMemory) :
  getById st sessionId = Some target ->
  getRelated st sessionId limit
  = Js.slice0 limit
      (Js.sort (fun a b => similarity target b <? similarity target a)
         (filter (fun s => 0 <? similarity target s) (others st sessionId))).
Proof.
  intros H. unfold getRelated. rewrite H. fold (others st sessionId).
  set (g := fun s => (s, related_score target s)).
  assert (Hs : forall l,
             Js.sort (fun a b : SessionMemory * Z => snd b - snd a <? 0) (map g l)
             = map g (Js.sort (fun a b => similarity target b <? similarity target a) l)).
  { intros l. symmetry. apply sort_map. intros a b. unfold g. cbn [snd].
    rewrite !related_score_similarity.
    destruct (Z.ltb_spec (similarity target b) (similarity target a)),
             (Z.ltb_spec (similarity target b - similarity target a) 0); (reflexivity || lia). }
  rewrite filter_map_comm. unfold g at 2. cbn [snd].
  rewrite (filter_ext _ (fun s => 0 <? similarity target s))
    by (intros a; now rewrite related_score_similarity).
  rewrite Hs. unfold Js.slice0. rewrite !length_map.
  destruct (0 <=? limit); rewrite <- firstn_map, map_map; cbn [fst g]; now rewrite map_id.
Qed.

Lemma others_spec (st : Store) (sessionId : string) :
  Forall (fun s => Mem.archived s = false /\ Mem.id s <> sessionId) (others st sessionId)
  /\ (forall r, In r (sessions st) -> Col.archived r = 0 -> Col.id r <> sessionId ->
                In (rowToSession r) (others st sessionId)).
Proof.
  unfold others, getAll, Sqlite.order_by_desc. split.
  - apply Forall_forall. intros s Hs. apply filter_In in Hs as [Hs Hid].
    apply in_map_iff in Hs as (r & <- & Hr).
    apply (Permutation_in _ (sort_perm _ _)) in Hr. apply filter_In in Hr as [_ Hr].
    split.
    + cbn [rowToSession Mem.archived]. apply Z.eqb_eq in Hr. now rewrite Hr.
    + intros E. rewrite E, String.eqb_refl in Hid. discriminate.
  - intros r Hr Ha Hid. apply filter_In. split.
    + apply in_map. apply (Permutation_in _ (Permutation_sym (sort_perm _ _))).
      apply filter_In. split; [exact Hr|]. now apply Z.eqb_eq.
    + cbn [rowToSession Mem.id]. apply String.eqb_neq in Hid. now rewrite Hid.
Qed.

(** C7.  [getRelated(id, limit)] is empty for an unknown id.  Otherwise
    it is the first [limit] of a ranking that holds exactly the other
    non-archived records of positive score, in order of decreasing score,
    records of equal score in the order [getAll(false)] gives them; the
    score is 5 for the same project path, plus 3 for each file of the
    target's created and modified lists that is among the candidate's, plus
    2 for each tag of the target that is among the candidate's. *)
Theorem getRelated_spec (st : Store) (sessionId : string) (limit : Z) :
  (getById st sessionId = None -> getRelated st sessionId limit = [])
  /\ (forall target, getById st sessionId = Some target ->
       exists ranked,
         getRelated st sessionId limit = Js.slice0 limit ranked
         /\ (0 <= limit -> getRelated st sessionId limit = firstn (Z.to_nat limit) ranked)
         /\ Permutation ranked
              (filter (fun s => 0 <? similarity target s) (others st sessionId))
         /\ StronglySorted (fun a b => similarity target b <= similarity target a) ranked
         /\ (forall k,
               filter (fun s => similarity target s =? k) ranked
               = filter (fun s => similarity target s =? k)
                   (filter (fun s => 0 <? similarity target s) (others st sessionId))))
  /\ Forall (fun s => Mem.archived s = false /\ Mem.id s <> sessionId) (others st sessionId)
  /\ (forall r, In r (sessions st) -> Col.archived r = 0 -> Col.id r <> sessionId ->
                In (rowToSession r) (others st sessionId)).
Proof.
  split; [|split; [|apply others_spec]].
  - intros H. unfold getRelated. now rewrite H.
  - intros target H. eexists. split; [apply (getRelated_ranked _ _ _ _ H)|].
    split; [|split; [|split]].
    + intros Hl. rewrite (getRelated_ranked _ _ _ _ H). now apply slice0_firstn.
    + apply sort_perm.
    + apply (sort_sorted _ (similarity target)). reflexivity.
    + intros k. apply (sort_stable _ (similarity target)). reflexivity.
Qed.

(** ** search: what the two paths come to *)

Section SearchPaths.
Variable bm25 : Sqlite.phrase -> list FtsEntry -> FtsEntry -> Q.
Variable highlight : Sqlite.phrase -> option string -> option string.

(** The index has a column the content table lacks: the statement that
    reads the content of a matching row does not compile. *)
Lemma content_getters_fail :
  content_getters sessions_fts_columns = inl (NoSuchColumn "tasks_text").
Proof. reflexivity. Qed.

Lemma fts_hit_fails (st : Store) (p : Sqlite.phrase) (e : FtsEntry) :
  fts_hit bm25 highlight st p e = inl (NoSuchColumn "tasks_text").
Proof. unfold fts_hit, fts_content. now rewrite content_getters_fail. Qed.

Lemma collect_fails {A B E} (f : A -> E + list B) (err : E) (l : list A) :
  (forall x, f x = inl err) ->
  collect f l = match l with [] => inr [] | _ :: _ => inl err end.
Proof. intros H. destruct l as [|x l]; cbn; [reflexivity|now rewrite H]. Qed.

Lemma filter_nil_existsb {A} (p : A -> bool) (l : list A) :
  existsb p l = false -> filter p l = [].
Proof.
  induction l as [|x l IH]; cbn; [reflexivity|].
  destruct (p x); cbn; [discriminate|exact IH].
Qed.

Lemma filter_cons_existsb {A} (p : A -> bool) (l : list A) :
  existsb p l = true -> filter p l <> [].
Proof.
  induction l as [|x l IH]; cbn; [discriminate|].
  destruct (p x); cbn; [discriminate|exact IH].
Qed.

(** The full-text statement returns no row when nothing in the index
    matches (or with LIMIT 0) and throws otherwise. *)
Lemma fts_select_cases (st : Store) (expr : string) (limit : Z) :
  fts_select bm25 highlight st expr limit =
  if limit =? 0 then inr []
  else match Sqlite.fts5_parse expr with
       | None => inl SyntaxError
       | Some p =>
           if index_matches p (sessions_fts st)
           then inl (NoSuchColumn "tasks_text")
           else inr []
       end.
Proof.
  unfold fts_select. destruct (limit =? 0); [reflexivity|].
  destruct (Sqlite.fts5_parse expr) as [p|]; [|reflexivity].
  rewrite (collect_fails _ _ _ (fts_hit_fails st p)).
  unfold index_matches, Sqlite.order_by_asc.
  destruct (existsb _ (sessions_fts st)) eqn:E.
  - apply filter_cons_existsb in E.
    destruct (Js.sort _ _) eqn:S; [|reflexivity].
    apply sort_nil_iff in S. contradiction.
  - rewrite (filter_nil_existsb _ _ E). cbn. unfold Sqlite.limit.
    destruct (limit <? 0); [reflexivity|now rewrite firstn_nil].
Qed.

Lemma simplSearch_limit_0 (st : Store) (query : string) : simplSearch st query 0 = [].
Proof. reflexivity. Qed.

Lemma search_cases (st : Store) (query : string) (limit : Z) :
  search bm25 highlight st query limit =
  match Sqlite.fts5_parse (match_expr query) with
  | None => simplSearch st query limit
  | Some p =>
      if (limit =? 0) || negb (index_matches p (sessions_fts st)) then []
      else simplSearch st query limit
  end.
Proof.
  unfold search. rewrite fts_select_cases.
  destruct (Z.eqb_spec limit 0) as [->|_].
  - cbn [map orb]. now destruct (Sqlite.fts5_parse _).
  - destruct (Sqlite.fts5_parse _) as [p|]; [|reflexivity].
    cbn [orb]. now destruct (index_matches p _).
Qed.

End SearchPaths.

(** ** What the read operations can see of a row

    No read operation returns the rowid of a row or its [created_at] and
    [updated_at]: two tables that agree on every other column, row by row,
    answer every read alike. *)

Lemma agree_map {B} (h : Row -> B) (l1 l2 : list Row) :
  blind h -> agree l1 l2 -> map h l1 = map h l2.
Proof.
  intros Hh H. rewrite <- (map_ext _ _ Hh l1), <- (map_ext _ _ Hh l2).
  rewrite <- !(map_map erase h). now rewrite H.
Qed.

Lemma agree_length (l1 l2 : list Row) : agree l1 l2 -> List.length l1 = List.length l2.
Proof. intros H. apply (f_equal (@List.length Row)) in H. now rewrite !length_map in H. Qed.

Lemma agree_filter (p : Row -> bool) (l1 l2 : list Row) :
  blind p -> agree l1 l2 -> agree (filter p l1) (filter p l2).
Proof.
  intros Hp H. unfold agree in *.
  rewrite <- !(filter_ext _ _ Hp), <- !filter_map_comm. now rewrite H.
Qed.

Lemma agree_sort (lt : Row -> Row -> bool) (l1 l2 : list Row) :
  (forall a b, lt (erase a) (erase b) = lt a b) ->
  agree l1 l2 -> agree (Js.sort lt l1) (Js.sort lt l2).
Proof.
  intros Hlt H. unfold agree in *.
  rewrite !(sort_map lt lt erase) by (intros; now rewrite Hlt). now rewrite H.
Qed.

Lemma agree_limit (n : Z) (l1 l2 : list Row) :
  agree l1 l2 -> agree (Sqlite.limit n l1) (Sqlite.limit n l2).
Proof.
  intros H. unfold agree, Sqlite.limit in *.
  destruct (n <? 0); [exact H|]. now rewrite <- !firstn_map, H.
Qed.

Lemma agree_hd {B} (h : Row -> B) (l1 l2 : list Row) :
  blind h -> agree l1 l2 -> option_map h (hd_error l1) = option_map h (hd_error l2).
Proof.
  intros Hh H. apply (agree_map h) in H; [|exact Hh].
  destruct l1, l2; cbn in *; congruence.
Qed.

Lemma find_hd_filter {A} (p : A -> bool) (l : list A) : find p l = hd_error (filter p l).
Proof. induction l as [|x l IH]; cbn; [reflexivity|]. now destruct (p x). Qed.

Lemma blind_rowToSession : blind rowToSession.
Proof. intros r. reflexivity. Qed.

Ltac blind_tac := unfold blind; intros; reflexivity.

Section ReadsAgree.
Variable Blob : Type.
Variable blob_size : Blob -> Z.
Variable homedir : string.
Variable bm25 : Sqlite.phrase -> list FtsEntry -> FtsEntry -> Q.
Variable highlight : Sqlite.phrase -> option string -> option string.

Lemma getById_agree (st1 st2 : Store) (id : string) :
  agree (sessions st1) (sessions st2) -> getById st1 id = getById st2 id.
Proof.
  intros H. unfold getById. rewrite !find_hd_filter.
  apply agree_hd; [apply blind_rowToSession|]. apply agree_filter; [blind_tac|exact H].
Qed.

Lemma getAll_agree (st1 st2 : Store) (b : bool) :
  agree (sessions st1) (sessions st2) -> getAll st1 b = getAll st2 b.
Proof.
  intros H. unfold getAll, Sqlite.order_by_desc.
  apply agree_map; [apply blind_rowToSession|]. apply agree_sort; [blind_tac|].
  destruct b; [exact H|]. apply agree_filter; [blind_tac|exact H].
Qed.

Lemma simplSearch_agree (st1 st2 : Store) (query : string) (limit : Z) :
  agree (sessions st1) (sessions st2) ->
  simplSearch st1 query limit = simplSearch st2 query limit.
Proof.
  intros H. unfold simplSearch, Sqlite.order_by_desc.
  apply agree_map; [blind_tac|]. apply agree_limit, agree_sort; [blind_tac|].
  apply agree_filter; [blind_tac|exact H].
Qed.

Lemma getStats_agree (fs : list (string * Blob)) (st1 st2 : Store) :
  agree (sessions st1) (sessions st2) ->
  getStats blob_size homedir fs st1 = getStats blob_size homedir fs st2.
Proof.
  intros H. unfold getStats, count. cbv zeta. f_equal.
  - f_equal. apply agree_length, H.
  - f_equal. apply agree_length, agree_filter; [blind_tac|exact H].
  - f_equal. apply agree_length, agree_filter; [blind_tac|exact H].
  - do 2 f_equal. apply agree_map; [blind_tac|exact H].
  - do 2 f_equal. apply agree_map; [blind_tac|exact H].
Qed.

Lemma reads_agree (st1 st2 : Store) :
  agree (sessions st1) (sessions st2) ->
  (forall p, index_matches p (sessions_fts st1) = index_matches p (sessions_fts st2)) ->
  same_observations blob_size homedir bm25 highlight st1 st2.
Proof.
  intros H Hi. unfold same_observations.
  assert (Hid := fun id => getById_agree st1 st2 id H).
  assert (Hall := fun b => getAll_agree st1 st2 b H).
  repeat split.
  - exact Hid.
  - exact Hall.
  - intros query limit. rewrite !search_cases, (simplSearch_agree st1 st2) by exact H.
    destruct (Sqlite.fts5_parse (match_expr query)) as [p|]; [now rewrite Hi|reflexivity].
  - intros fs. now apply getStats_agree.
  - intros projectPath. unfold getLastForProject, Sqlite.order_by_desc.
    apply agree_hd; [apply blind_rowToSession|]. apply agree_sort; [blind_tac|].
    apply agree_filter; [blind_tac|exact H].
  - intros limit projectPath. unfold getRecent, Sqlite.order_by_desc.
    apply agree_map; [apply blind_rowToSession|]. apply agree_limit, agree_sort; [blind_tac|].
    destruct (Js.truthy_opt_string projectPath);
      repeat (apply agree_filter; [blind_tac|]); exact H.
  - unfold getArchived. apply agree_map; [apply blind_rowToSession|].
    apply agree_sort; [blind_tac|]. apply agree_filter; [blind_tac|exact H].
  - unfold getUnsyncedSessions, Sqlite.order_by_asc.
    apply agree_map; [apply blind_rowToSession|].
    apply agree_sort; [blind_tac|]. apply agree_filter; [blind_tac|exact H].
  - intros id limit. unfold getRelated. now rewrite Hid, Hall.
Qed.

End ReadsAgree.

Arguments reads_agree {Blob} blob_size homedir bm25 highlight st1 st2.

(** ** save twice *)

Lemma filter_twice {A} (p : A -> bool) (l : list A) : filter p (filter p l) = filter p l.
Proof.
  induction l as [|x l IH]; cbn; [reflexivity|].
  destruct (p x) eqn:E; cbn; [rewrite E; now f_equal|exact IH].
Qed.

Lemma find_app {A} (p : A -> bool) (l l' : list A) :
  find p (l ++ l') = match find p l with Some x => Some x | None => find p l' end.
Proof. induction l as [|x l IH]; cbn; [reflexivity|]. now destruct (p x). Qed.

Lemma find_filter_implied {A} (p q : A -> bool) (l : list A) :
  (forall x, p x = true -> q x = true) -> find p (filter q l) = find p l.
Proof.
  intros H. induction l as [|x l IH]; cbn; [reflexivity|].
  destruct (q x) eqn:Q; cbn.
  - now destruct (p x).
  - destruct (p x) eqn:P; [|exact IH]. rewrite (H x P) in Q. discriminate.
Qed.

Lemma sessions_save (now : Z) (st : Store) (s : SessionMemory) :
  sessions (save now st s)
  = filter (other_id s) (sessions st) ++ [row_of_session (next_rowid (sessions st)) now s].
Proof. reflexivity. Qed.

Lemma sessions_save_twice (now now' : Z) (st : Store) (s : SessionMemory) :
  sessions (save now' (save now st s) s)
  = filter (other_id s) (sessions st)
    ++ [row_of_session (next_rowid (sessions (save now st s))) now' s].
Proof.
  rewrite (sessions_save now' (save now st s) s), sessions_save.
  rewrite filter_app, filter_twice. cbn [filter]. unfold other_id at 2.
  unfold row_of_session at 1. cbn [Col.id]. rewrite String.eqb_refl. cbn [negb].
  now rewrite app_nil_r.
Qed.

Lemma save_twice_rows (now now' : Z) (st : Store) (s : SessionMemory) :
  agree (sessions (save now' (save now st s) s)) (sessions (save now st s)).
Proof.
  rewrite sessions_save_twice, sessions_save. unfold agree. now rewrite !map_app.
Qed.

Lemma index_matches_app (p : Sqlite.phrase) (i j : list FtsEntry) :
  index_matches p (i ++ j) = index_matches p i || index_matches p j.
Proof. apply existsb_app. Qed.

Lemma sessions_fts_save (now : Z) (st : Store) (s : SessionMemory) :
  sessions_fts (save now st s)
  = sessions_fts st ++ [fts_entry (row_of_session (next_rowid (sessions st)) now s)].
Proof. reflexivity. Qed.

Lemma fts_tokens_row_of_session (rowid rowid' now now' : Z) (s : SessionMemory) :
  fts_tokens (fts_entry (row_of_session rowid now s))
  = fts_tokens (fts_entry (row_of_session rowid' now' s)).
Proof. reflexivity. Qed.

Lemma save_twice_index (now now' : Z) (st : Store) (s : SessionMemory) (p : Sqlite.phrase) :
  index_matches p (sessions_fts (save now' (save now st s) s))
  = index_matches p (sessions_fts (save now st s)).
Proof.
  rewrite (sessions_fts_save now' (save now st s)), index_matches_app.
  rewrite sessions_fts_save, index_matches_app.
  unfold index_matches at 2 3 5. cbn [existsb].
  rewrite (fts_tokens_row_of_session _ (next_rowid (sessions st)) now' now).
  now destruct (index_matches p (sessions_fts st)), (Sqlite.phrase_matches p _).
Qed.

Section SaveTwice.
Variable Blob : Type.
Variable blob_size : Blob -> Z.
Variable homedir : string.
Variable bm25 : Sqlite.phrase -> list FtsEntry -> FtsEntry -> Q.
Variable highlight : Sqlite.phrase -> option string -> option string.

(** C2.  Saving the same session twice in a row leaves every read
    operation of the store ([getById], [getAll], [search], [getStats] and
    the others) with the answers it has after saving it once; and a save
    leaves exactly one row under the id of the session, the one holding the
    session just saved, with the rows of the other ids as they were. *)
Theorem save_idempotent (now now' : Z) (st : Store) (s : SessionMemory) :
  same_observations blob_size homedir bm25 highlight
    (save now' (save now st s) s) (save now st s)
  /\ count (fun r => String.eqb (Col.id r) (Mem.id s)) (sessions (save now st s)) = 1
  /\ getById (save now st s) (Mem.id s) = Some (stored s)
  /\ (forall id, id <> Mem.id s -> getById (save now st s) id = getById st id).
Proof.
  split; [|split; [|split]].
  - apply reads_agree; [apply save_twice_rows|apply save_twice_index].
  - rewrite sessions_save. unfold count. rewrite filter_app.
    rewrite (filter_none _ (filter (other_id s) (sessions st))).
    + cbn [filter app]. unfold row_of_session at 1. cbn [Col.id].
      now rewrite String.eqb_refl.
    + intros r Hr. apply filter_In in Hr as [_ Hr]. unfold other_id in Hr.
      now destruct (String.eqb (Col.id r) (Mem.id s)).
  - apply getById_save.
  - intros id Hid. unfold getById. rewrite sessions_save, find_app.
    rewrite find_filter_implied.
    + destruct (find (fun r => String.eqb (Col.id r) id) (sessions st)); [reflexivity|]. cbn [find].
      unfold row_of_session at 1. cbn [Col.id].
      apply not_eq_sym, String.eqb_neq in Hid. now rewrite Hid.
    + intros r Hr. apply String.eqb_eq in Hr. unfold other_id. rewrite Hr.
      apply String.eqb_neq in Hid. now rewrite Hid.
Qed.
End SaveTwice.

(** ** getStats *)

Lemma fold_left_min (l : list Z) (x : Z) :
  let m := fold_left Z.min l x in
  m <= x /\ Forall (fun y => m <= y) l /\ (m = x \/ In m l).
Proof.
  revert x. induction l as [|y l IH]; intros x; cbn [fold_left].
  - cbn. repeat split; [lia|constructor|now left].
  - destruct (IH (Z.min x y)) as (H1 & H2 & H3). cbv zeta. repeat split.
    + lia.
    + constructor; [lia|exact H2].
    + destruct H3 as [H3|H3]; [|right; now right].
      destruct (Z.min_spec x y) as [[_ E]|[_ E]];
        [left|right; left]; rewrite H3, E; reflexivity.
Qed.

Lemma fold_left_max (l : list Z) (x : Z) :
  let m := fold_left Z.max l x in
  x <= m /\ Forall (fun y => y <= m) l /\ (m = x \/ In m l).
Proof.
  revert x. induction l as [|y l IH]; intros x; cbn [fold_left].
  - cbn. repeat split; [lia|constructor|now left].
  - destruct (IH (Z.max x y)) as (H1 & H2 & H3). cbv zeta. repeat split.
    + lia.
    + constructor; [lia|exact H2].
    + destruct H3 as [H3|H3]; [|right; now right].
      destruct (Z.max_spec x y) as [[_ E]|[_ E]];
        [right; left|left]; rewrite H3, E; reflexivity.
Qed.

Lemma sql_min_spec (l : list Z) :
  match sql_min l with
  | None => l = []
  | Some m => In m l /\ Forall (fun y => m <= y) l
  end.
Proof.
  destruct l as [|x l]; [reflexivity|]. cbn [sql_min].
  destruct (fold_left_min l x) as (H1 & H2 & H3). split.
  - destruct H3 as [->|H3]; [now left|now right].
  - now constructor.
Qed.

Lemma sql_max_spec (l : list Z) :
  match sql_max l with
  | None => l = []
  | Some m => In m l /\ Forall (fun y => y <= m) l
  end.
Proof.
  destruct l as [|x l]; [reflexivity|]. cbn [sql_max].
  destruct (fold_left_max l x) as (H1 & H2 & H3). split.
  - destruct H3 as [->|H3]; [now left|now right].
  - now constructor.
Qed.

Lemma or_null_extreme (le : Z -> Z -> Prop) (rows : list Row) (v : option Z) :
  match v with
  | None => map Col.started_at rows = []
  | Some m => In m (map Col.started_at rows)
              /\ Forall (fun y => le m y) (map Col.started_at rows)
  end ->
  extreme_started_at le rows (Js.or_null_number v).
Proof.
  destruct v as [m|]; cbn.
  - intros [Hin Hall]. rewrite Forall_map in Hall.
    unfold Js.or_null_number, Js.truthy_opt_number, Js.truthy_number.
    destruct (Z.eqb_spec m 0) as [->|Hm]; cbn; [right|]; auto.
  - intros H. left. now destruct rows.
Qed.

Lemma length_getAll_true (st : Store) :
  List.length (getAll st true) = List.length (sessions st).
Proof.
  unfold getAll, Sqlite.order_by_desc. rewrite length_map.
  apply Permutation_length, sort_perm.
Qed.

Lemma length_getAll_false (st : Store) :
  List.length (getAll st false)
  = List.length (filter (fun r => Col.archived r =? 0) (sessions st)).
Proof.
  unfold getAll, Sqlite.order_by_desc. rewrite length_map.
  apply Permutation_length, sort_perm.
Qed.

Lemma length_getArchived (st : Store) :
  List.length (getArchived st)
  = List.length (filter (fun r => Col.archived r =? 1) (sessions st)).
Proof.
  unfold getArchived. rewrite length_map. apply Permutation_length, sort_perm.
Qed.

Section Stats.
Variable Blob : Type.
Variable blob_size : Blob -> Z.
Variable homedir : string.

(** The size [getStats] reports does not depend on the path the store
    was constructed with. *)
Lemma getStats_ignores_dbPath (fs : list (string * Blob)) (st : Store) (path : string) :
  storageUsedBytes
    (getStats blob_size homedir fs
       {| dbPath := path; sessions := sessions st; sessions_fts := sessions_fts st |})
  = storageUsedBytes (getStats blob_size homedir fs st).
Proof. reflexivity. Qed.

Lemma scenario_rows (now : Z) (path : string) (A B : SessionMemory) :
  Mem.id A <> Mem.id B ->
  sessions (save now (save now (newSessionStore path) A) B)
  = [row_of_session 1 now A; row_of_session 2 now B].
Proof.
  intros Hid. rewrite sessions_save, sessions_save. cbn [newSessionStore sessions filter app].
  unfold other_id at 1. unfold row_of_session at 1. cbn [Col.id].
  apply String.eqb_neq in Hid. rewrite Hid. cbn [negb app].
  reflexivity.
Qed.

(** C8, as amended.  [getStats()] counts all rows, the rows that are not
    archived and the archived rows; [oldestSession] and [newestSession] are
    the least and the greatest [startedAt] over all rows, absent when the
    store is empty and when that value is timestamp 0; and in the scenario
    of two records, one started 100 days ago and one now, [archiveOld(30)]
    returns 1 and the statistics are 1 active, 1 archived, 2 in total. *)
Theorem getStats_spec (fs : list (string * Blob)) (st : Store) :
  let stats := getStats blob_size homedir fs st in
  totalSessions stats = Z.of_nat (List.length (getAll st true))
  /\ activeSessions stats = Z.of_nat (List.length (getAll st false))
  /\ archivedSessions stats = Z.of_nat (List.length (getArchived st))
  /\ extreme_started_at Z.le (sessions st) (oldestSession stats)
  /\ extreme_started_at Z.ge (sessions st) (newestSession stats)
  /\ (sessions st = [] -> oldestSession stats = None /\ newestSession stats = None)
  /\ (forall now path A B,
        Mem.id A <> Mem.id B ->
        Mem.archived A = false -> Mem.archived B = false ->
        Mem.startedAt A = now - 100 * ms_per_day -> Mem.startedAt B = now ->
        let '(st', archivedCount) :=
          archiveOld now now (save now (save now (newSessionStore path) A) B) 30 in
        let stats' := getStats blob_size homedir fs st' in
        archivedCount = 1
        /\ activeSessions stats' = 1
        /\ archivedSessions stats' = 1
        /\ totalSessions stats' = 2).
Proof.
  cbv zeta. repeat match goal with |- _ /\ _ => split end.
  - cbn [getStats totalSessions]. now rewrite length_getAll_true.
  - cbn [getStats activeSessions]. unfold count. now rewrite length_getAll_false.
  - cbn [getStats archivedSessions]. unfold count. now rewrite length_getArchived.
  - cbn [getStats oldestSession]. apply or_null_extreme.
    apply (sql_min_spec (map Col.started_at (sessions st))).
  - cbn [getStats newestSession]. apply or_null_extreme.
    pose proof (sql_max_spec (map Col.started_at (sessions st))) as H.
    destruct (sql_max _); [|exact H]. destruct H as [H1 H2]. split; [exact H1|].
    eapply Forall_impl; [|exact H2]. cbn. intros; lia.
  - intros H. cbn [getStats oldestSession newestSession]. now rewrite H.
  - intros now path A B Hid HA HB HsA HsB.
    assert (CA : (Col.started_at (row_of_session 1 now A) <? now - 30 * ms_per_day)
                 && (Col.archived (row_of_session 1 now A) =? 0) = true).
    { cbn [row_of_session Col.started_at Col.archived]. rewrite HA, HsA.
      apply andb_true_iff. split; [apply Z.ltb_lt; unfold ms_per_day; lia|reflexivity]. }
    assert (CB : (Col.started_at (row_of_session 2 now B) <? now - 30 * ms_per_day)
                 && (Col.archived (row_of_session 2 now B) =? 0) = false).
    { cbn [row_of_session Col.started_at Col.archived]. rewrite HsB.
      apply andb_false_iff. left. apply Z.ltb_ge. unfold ms_per_day. lia. }
    assert (AB : Col.archived (row_of_session 2 now B) = 0).
    { cbn [row_of_session Col.archived]. now rewrite HB. }
    unfold archiveOld, sql_update. rewrite (scenario_rows now path A B Hid).
    cbn [filter map]. rewrite CA, CB.
    unfold getStats, count. cbn [sessions filter Col.update Col.archived List.length].
    rewrite AB. cbn. repeat split.
Qed.

End Stats.

(** C8 as stated fails: in a store whose only record started at
    timestamp 0 the least [startedAt] is 0, and [oldestSession] is absent. *)
Lemma getStats_epoch_counterexample :
  let st := save jan12 emptyStore
              (testSession "test_1" 0 "Test session summary" ["test"; "typescript"]%string
                 false None None) in
  sql_min (map Col.started_at (sessions st)) = Some 0
  /\ oldestSession (getStats bytes_size "/home/user" [] st) = None.
Proof. split; reflexivity. Qed.

(** ** search: the fallback *)

Section Fallback.
Variable bm25 : Sqlite.phrase -> list FtsEntry -> FtsEntry -> Q.
Variable highlight : Sqlite.phrase -> option string -> option string.


End Fallback.



(** ** search after save: a token of the tags *)

Section TokenSearch.
Variable bm25 : Sqlite.phrase -> list FtsEntry -> FtsEntry -> Q.
Variable highlight : Sqlite.phrase -> option string -> option string.

(** C1.  The claim: after [save(s)], a search for a token of the indexed
    fields of [s] returns a result with the id of [s].  On the code: a
    session saved into an empty store with the tag [zeta] is indexed under
    that token, the full-text statement of [search] finds the index row and
    then throws reading the content columns ([tasks_text] is no column of
    [sessions]), and the LIKE fallback, which only looks at summary,
    description and last user message, returns nothing. *)
Theorem search_misses_tag_token :
  let s := testSession "test_1" jan12 "Implemented authentication feature"
             ["zeta"]%string false None None in
  let st := save jan12 emptyStore s in
  In (Sqlite.chars "zeta") (Sqlite.tokenize (stringify_strings (Mem.tags s)))
  /\ index_matches {| Sqlite.terms := [Sqlite.chars "zeta"]; Sqlite.prefix_query := true |}
                   (sessions_fts st) = true
  /\ fts_select bm25 highlight st (match_expr "zeta") 20 = inl (NoSuchColumn "tasks_text")
  /\ search bm25 highlight st "zeta" 20 = [].
Proof.
  cbv zeta. split; [vm_compute; tauto|]. split; [vm_compute; reflexivity|].
  split; [rewrite fts_select_cases|rewrite search_cases]; vm_compute; reflexivity.
Qed.

End TokenSearch.

(** The only queries the index cannot parse are those with a NUL
    character: the quoted string then has no closing quote. *)

Lemma chars_append (a b : string) :
  Sqlite.chars (a ++ b) = Sqlite.chars a ++ Sqlite.chars b.
Proof. induction a as [|c a IH]; cbn; [reflexivity|]. f_equal. exact IH. Qed.

Lemma fts5_string_body (l : list ascii) :
  Forall (fun c => Ascii.eqb c JSON.dquote = false) l ->
  Sqlite.fts5_string (Sqlite.c_str (l ++ [JSON.dquote; "*"%char]))
  = if existsb (Ascii.eqb Ascii.zero) l then None else Some (l, ["*"%char]).
Proof.
  induction 1 as [|c l Hc Hl IH]; [reflexivity|].
  cbn [app Sqlite.c_str existsb]. rewrite (Ascii.eqb_sym Ascii.zero c).
  destruct (Ascii.eqb c Ascii.zero); [reflexivity|].
  cbn [orb Sqlite.fts5_string]. rewrite Hc, IH.
  now destruct (existsb _ l).
Qed.

Lemma unparsable_iff_nul (query : string) :
  Sqlite.fts5_parse (match_expr query) = None
  <-> In Ascii.zero (Sqlite.chars query).
Proof.
  unfold Sqlite.fts5_parse, match_expr, strip_quotes.
  change (Sqlite.chars (String JSON.dquote ?s)) with (JSON.dquote :: Sqlite.chars s).
  cbn [Sqlite.chars list_ascii_of_string].
  fold (Sqlite.chars (string_of_list_ascii
                        (filter (fun c => negb (Ascii.eqb c "'" || Ascii.eqb c JSON.dquote))
                                (list_ascii_of_string query)) ++ String JSON.dquote "*")).
  rewrite chars_append. unfold Sqlite.chars at 1.
  rewrite list_ascii_of_string_of_list_ascii.
  change (Sqlite.chars (String JSON.dquote "*")) with [JSON.dquote; "*"%char].
  set (body := filter _ (list_ascii_of_string query)).
  change (Sqlite.c_str (JSON.dquote :: body ++ [JSON.dquote; "*"%char]))
    with (JSON.dquote :: Sqlite.c_str (body ++ [JSON.dquote; "*"%char])).
  change (JSON.skip_ws (JSON.dquote :: ?t)) with (JSON.dquote :: t).
  cbv iota. change (Ascii.eqb JSON.dquote JSON.dquote) with true. cbv iota.
  rewrite fts5_string_body.
  2:{ apply Forall_forall. intros c Hc. apply filter_In in Hc as [_ Hc].
      apply negb_true_iff, orb_false_iff in Hc. tauto. }
  assert (E : existsb (Ascii.eqb Ascii.zero) body = true <-> In Ascii.zero (Sqlite.chars query)).
  { rewrite existsb_exists. split.
    - intros (c & Hc & Hz). apply Ascii.eqb_eq in Hz. subst c.
      now apply filter_In in Hc.
    - intros H. exists Ascii.zero. split; [|reflexivity]. apply filter_In. now split. }
  destruct (existsb _ body).
  - split; [intros _; now apply E|reflexivity].
  - split; [discriminate|]. intros H. apply E in H. discriminate.
Qed.

(** ** runCleanup and the storage ceiling *)

(** C4.  The claim: after [runCleanup()] the total usage is at most the
    ceiling, or every record has been deleted.  On the code: with a database
    file of 4096 bytes and one archived session whose compressed log takes
    20 GB, under the default ceiling of 10 GB, [runCleanup] compares the
    size of the database file alone with the ceiling, does not trim, and
    returns with 20000004096 bytes in use, the record and its archive in
    place. *)
Theorem runCleanup_leaves_quota_exceeded :
  let '(w, report) :=
    runCleanup bytes_size (fun b => b) home (jan12 + ms_per_day) defaultRetention crowded in
  calculateStorageUsed bytes_size home w = 20000004096
  /\ maxStorageGb defaultRetention * 1000000000 = 10000000000
  /\ storageUsedBytes (getStats bytes_size home (files w) (store w)) = 4096
  /\ map Mem.id (getAll (store w) true) = ["test_1"%string]
  /\ existsSync (files w) bigArchive = true
  /\ report = {| sessionsArchived := 0; sessionsDeleted := 0;
                 bytesFreed := 0; logFilesBackedUp := 0 |}.
Proof. vm_compute. repeat split. Qed.

(** Once entered, the trimming loop does what the ceiling asks for: it
    ends below the ceiling or with every record deleted. *)

Lemma find_none_iff {A} (p : A -> bool) (l : list A) :
  find p l = None <-> forall x, In x l -> p x = false.
Proof.
  split.
  - intros H x Hx. destruct (p x) eqn:E; [|reflexivity].
    destruct (find_none _ _ H x Hx). now rewrite E.
  - induction l as [|x l IH]; cbn; [reflexivity|]. intros H.
    rewrite (H x) by now left. apply IH. intros y Hy. apply H. now right.
Qed.

Lemma sessions_delete (st : Store) (id : string) :
  sessions (fst (delete st id))
  = filter (fun r => negb (String.eqb (Col.id r) id)) (sessions st).
Proof. reflexivity. Qed.

Section Trim.
Variable Blob : Type.
Variable blob_size : Blob -> Z.
Variable homedir : string.

Lemma trim_loop_post (maxBytes : Z) (sessions0 : list SessionMemory) :
  forall (w : World Blob) (result : TrimResult),
    let w' := fst (trim_loop blob_size homedir maxBytes sessions0 w
                     (calculateStorageUsed blob_size homedir w) result) in
    (forall r, In r (sessions (store w')) -> In r (sessions (store w)))
    /\ (calculateStorageUsed blob_size homedir w' <= maxBytes
        \/ forall s, In s sessions0 -> getById (store w') (Mem.id s) = None).
Proof.
  induction sessions0 as [|s rest IH]; intros w result; cbn [trim_loop].
  - cbn. split; [auto|]. right. intros s [].
  - destruct (Z.leb_spec (calculateStorageUsed blob_size homedir w) maxBytes) as [Hle|Hgt].
    + cbn [fst]. split; [auto|]. now left.
    + destruct (delete (store w) (Mem.id s)) as [store' existed] eqn:D.
      assert (Hrows : sessions store'
                      = filter (fun r => negb (String.eqb (Col.id r) (Mem.id s)))
                               (sessions (store w))).
      { rewrite <- sessions_delete, D. reflexivity. }
      match goal with
      | |- context [trim_loop _ _ _ rest ?w1 (calculateStorageUsed _ _ ?w1) ?r1] =>
          specialize (IH w1 r1); cbv zeta in IH; destruct IH as [Hincl Hpost];
          cbn [store] in Hincl
      end.
      split.
      * intros r Hr. apply Hincl in Hr. rewrite Hrows in Hr.
        now apply filter_In in Hr.
      * destruct Hpost as [Hpost|Hpost]; [now left|]. right.
        intros s' [<-|Hs']; [|now apply Hpost].
        unfold getById.
        match goal with |- option_map _ ?f = None => enough (E : f = None) by now rewrite E end.
        apply find_none_iff. intros r Hr. apply Hincl in Hr. rewrite Hrows in Hr.
        apply filter_In in Hr as [_ Hr]. now destruct (String.eqb (Col.id r) (Mem.id s)).
Qed.

(** X26.  [trimToStorageLimit] ends with usage at or below the ceiling,
    or with no session left in the store. *)
Lemma trimToStorageLimit_post (w : World Blob) (maxBytes : Z) :
  let w' := fst (trimToStorageLimit blob_size homedir w maxBytes) in
  calculateStorageUsed blob_size homedir w' <= maxBytes \/ sessions (store w') = [].
Proof.
  cbv zeta. unfold trimToStorageLimit.
  match goal with
  | |- context [trim_loop _ _ _ ?l w _ ?r] =>
      destruct (trim_loop_post maxBytes l w r) as [Hincl [Hpost|Hpost]]
  end; [now left|]. right.
  match goal with |- sessions (store ?w1) = [] => destruct (sessions (store w1)) as [|r rows] eqn:E end;
    [reflexivity|exfalso].
  assert (Hr : In r (sessions (store w))) by (apply Hincl; now left).
  specialize (Hpost (rowToSession r)).
  unfold getById in Hpost. rewrite E in Hpost. cbn [find rowToSession Mem.id] in Hpost.
  rewrite String.eqb_refl in Hpost. cbn in Hpost.
  enough (Some (rowToSession r) = None) by discriminate. apply Hpost.
  apply (Permutation_in _ (Permutation_sym (sort_perm _ _))).
  unfold getAll, Sqlite.order_by_desc. apply in_map.
  apply (Permutation_in _ (Permutation_sym (sort_perm _ _))). exact Hr.
Qed.

End Trim.

(** ** The primary key and the rows the store writes *)

Lemma map_id_filter_NoDup (p : Row -> bool) (rows : list Row) :
  NoDup (map Col.id rows) -> NoDup (map Col.id (filter p rows)).
Proof.
  induction rows as [|r rows IH]; cbn; [easy|]. intros H. inversion H as [|? ? Hn Hd]; subst.
  destruct (p r); cbn; [|now apply IH]. constructor; [|now apply IH].
  intros Hin. apply Hn. apply in_map_iff in Hin as (x & <- & Hx).
  apply in_map. now apply filter_In in Hx.
Qed.

Lemma map_id_update (cond : Row -> bool) (assign : Row -> Row) (rows : list Row) :
  (forall r, Col.id (assign r) = Col.id r) ->
  map Col.id (map (fun r => if cond r then assign r else r) rows) = map Col.id rows.
Proof.
  intros H. rewrite map_map. apply map_ext. intros r. now destruct (cond r).
Qed.

Lemma Forall_update (P : Row -> Prop) (cond : Row -> bool) (assign : Row -> Row)
    (rows : list Row) :
  (forall r, P r -> P (assign r)) ->
  Forall P rows -> Forall P (map (fun r => if cond r then assign r else r) rows).
Proof.
  intros H Hall. apply Forall_map. eapply Forall_impl; [|exact Hall].
  intros r Hr. destruct (cond r); auto.
Qed.

Lemma Forall_filter {A} (P : A -> Prop) (p : A -> bool) (l : list A) :
  Forall P l -> Forall P (filter p l).
Proof.
  intros H. apply Forall_forall. intros x Hx. apply filter_In in Hx as [Hx _].
  revert x Hx. now apply Forall_forall.
Qed.

Lemma row_ok_update (r : Row) (a : Z) (aAt : option Z) (s : Z) (sAt : option Z)
    (lfa : option string) (u : Z) :
  (a = 0 \/ a = 1) -> (s = 0 \/ s = 1) -> row_ok r -> row_ok (Col.update r a aAt s sAt lfa u).
Proof. intros Ha Hs (_ & _ & H). split; [exact Ha|]. split; [exact Hs|exact H]. Qed.

Lemma row_ok_row_of_session (rowid now : Z) (s : SessionMemory) :
  row_ok (row_of_session rowid now s).
Proof.
  unfold row_ok, json_strings. cbn.
  repeat match goal with |- _ /\ _ => split end; eauto.
  - destruct (Mem.archived s); auto.
  - destruct (Mem.synced s) as [[|]|]; auto.
Qed.

Lemma consistent_update (cond : Row -> bool) (assign : Row -> Row) (st : Store) :
  (forall r, Col.id (assign r) = Col.id r) ->
  (forall r, row_ok r -> row_ok (assign r)) ->
  consistent st -> consistent (fst (sql_update cond assign st)).
Proof.
  intros Hid Hok [Hn Hall]. split; cbn [sql_update fst sessions].
  - now rewrite map_id_update.
  - now apply Forall_update.
Qed.

Lemma consistent_delete (cond : Row -> bool) (st : Store) :
  consistent st -> consistent (fst (sql_delete cond st)).
Proof.
  intros [Hn Hall]. split; cbn [sql_delete fst sessions].
  - now apply map_id_filter_NoDup.
  - now apply Forall_filter.
Qed.

Lemma fst_delete (st : Store) (id : string) :
  fst (delete st id) = fst (sql_delete (fun r => String.eqb (Col.id r) id) st).
Proof. reflexivity. Qed.

Lemma consistent_new (path : string) : consistent (newSessionStore path).
Proof. split; cbn; constructor. Qed.

Lemma consistent_save (now : Z) (st : Store) (s : SessionMemory) :
  consistent st -> consistent (save now st s).
Proof.
  intros [Hn Hall]. split; rewrite sessions_save.
  - rewrite map_app. cbn [map]. unfold row_of_session at 1. cbn [Col.id].
    apply Permutation_NoDup
      with (l := Mem.id s :: map Col.id (filter (other_id s) (sessions st))).
    { apply Permutation_cons_append. }
    constructor; [|now apply map_id_filter_NoDup].
    intros Hin. apply in_map_iff in Hin as (r & Hr & Hin).
    apply filter_In in Hin as [_ Hin]. unfold other_id in Hin.
    rewrite Hr, String.eqb_refl in Hin. discriminate.
  - apply Forall_app. split; [now apply Forall_filter|].
    constructor; [apply row_ok_row_of_session|constructor].
Qed.

(** X1.  The store starts consistent and every write keeps it so: no two
    rows share an id, the flags [archived] and [synced] are 0 or 1, and the
    list columns hold lists of strings. *)
Theorem writes_keep_consistent :
  (forall path, consistent (newSessionStore path))
  /\ (forall st, consistent st ->
        (forall now s, consistent (save now st s))
        /\ (forall id, consistent (fst (delete st id)))
        /\ (forall clock clock' days, consistent (fst (archiveOld clock clock' st days)))
        /\ (forall clock days, consistent (fst (deleteOld clock st days)))
        /\ (forall clock id, consistent (markSynced clock st id))
        /\ (forall clock id archivePath,
              consistent (updateArchivePath clock st id archivePath))).
Proof.
  split; [apply consistent_new|].
  intros st Hc. repeat match goal with |- _ /\ _ => split end.
  - intros now s. now apply consistent_save.
  - intros id. rewrite fst_delete. now apply consistent_delete.
  - intros clock clock' days. apply consistent_update; [reflexivity| |exact Hc].
    intros r Hr. apply row_ok_update; [now right| |exact Hr]. apply Hr.
  - intros clock days. now apply consistent_delete.
  - intros clock id. apply consistent_update; [reflexivity| |exact Hc].
    intros r Hr. apply row_ok_update; [|now right|exact Hr]. apply Hr.
  - intros clock id archivePath. apply consistent_update; [reflexivity| |exact Hc].
    intros r Hr. apply row_ok_update; [| |exact Hr]; apply Hr.
Qed.

(** ** delete *)

Lemma filter_nil_find {A} (p : A -> bool) (l : list A) :
  filter p l = [] <-> find p l = None.
Proof.
  induction l as [|x l IH]; cbn; [tauto|]. destruct (p x); [split; discriminate|exact IH].
Qed.

Lemma filter_all {A} (p : A -> bool) (l : list A) :
  (forall x, In x l -> p x = true) -> filter p l = l.
Proof.
  induction l as [|x l IH]; cbn; [easy|]. intros H.
  rewrite (H x) by now left. f_equal. apply IH. intros y Hy. apply H. now right.
Qed.

Lemma filter_negb_find {A} (p : A -> bool) (l : list A) :
  find p l = None -> filter (fun x => negb (p x)) l = l.
Proof.
  intros H. apply filter_all. intros x Hx.
  now rewrite (proj1 (find_none_iff p l) H x Hx).
Qed.

Lemma sql_delete_idle (cond : Row -> bool) (st : Store) :
  find cond (sessions st) = None -> sql_delete cond st = (st, 0).
Proof.
  intros H. unfold sql_delete.
  rewrite (proj2 (filter_nil_find cond (sessions st)) H), (filter_negb_find _ _ H).
  now destruct st.
Qed.

Lemma getById_None (st : Store) (id : string) :
  getById st id = None <-> find (fun r => String.eqb (Col.id r) id) (sessions st) = None.
Proof. unfold getById. now destruct (find _ _). Qed.

Lemma delete_existed (st : Store) (id : string) :
  snd (delete st id) = match getById st id with Some _ => true | None => false end.
Proof.
  set (p := fun r : Row => String.eqb (Col.id r) id).
  change (snd (delete st id)) with (0 <? Z.of_nat (List.length (filter p (sessions st)))).
  change (getById st id) with (option_map rowToSession (find p (sessions st))).
  destruct (find p (sessions st)) eqn:E; cbn [option_map].
  - destruct (filter p (sessions st)) eqn:F; [|reflexivity].
    apply filter_nil_find in F. congruence.
  - apply filter_nil_find in E. now rewrite E.
Qed.

(** X2.  [delete(id)] returns whether a session was stored under the id;
    afterwards none is, the sessions under other ids are read as before,
    and for an id that was not stored the store is left as it was. *)
Theorem delete_spec (st : Store) (id : string) :
  snd (delete st id) = match getById st id with Some _ => true | None => false end
  /\ getById (fst (delete st id)) id = None
  /\ (forall id', id' <> id -> getById (fst (delete st id)) id' = getById st id')
  /\ (getById st id = None -> delete st id = (st, false)).
Proof.
  repeat match goal with |- _ /\ _ => split end.
  - apply delete_existed.
  - unfold getById. rewrite sessions_delete.
    now rewrite (find_filter_negb (fun r => String.eqb (Col.id r) id)).
  - intros id' Hid. unfold getById. rewrite sessions_delete.
    rewrite find_filter_implied; [reflexivity|].
    intros r Hr. apply String.eqb_eq in Hr. rewrite Hr.
    apply String.eqb_neq in Hid. now rewrite Hid.
  - intros H. apply getById_None in H. unfold delete. now rewrite sql_delete_idle.
Qed.

(** ** save, then delete *)

Lemma token_eqb_eq (a b : Sqlite.token) : Sqlite.token_eqb a b = true <-> a = b.
Proof.
  revert b. induction a as [|x a IH]; intros [|y b]; cbn; try (split; (discriminate || reflexivity)).
  rewrite andb_true_iff, Ascii.eqb_eq, IH. split; [intros [-> ->]; reflexivity|].
  intros [= -> ->]. now split.
Qed.

Lemma tokens_eqb_eq (a b : list Sqlite.token) : tokens_eqb a b = true <-> a = b.
Proof.
  unfold tokens_eqb. revert b.
  induction a as [|x a IH]; intros [|y b]; try (split; (discriminate || reflexivity)).
  rewrite andb_true_iff, token_eqb_eq, IH. split; [intros [-> ->]; reflexivity|].
  intros [= -> ->]. now split.
Qed.

Lemma entry_eqb_eq (a b : FtsEntry) : entry_eqb a b = true <-> a = b.
Proof.
  destruct a as [ra ta], b as [rb tb]. unfold entry_eqb. cbn [fts_rowid fts_tokens].
  rewrite andb_true_iff, Z.eqb_eq.
  enough (H : forall ta tb,
             (fix go (a b : list (list Sqlite.token)) : bool :=
                match a, b with
                | [], [] => true
                | x :: a', y :: b' => tokens_eqb x y && go a' b'
                | _, _ => false
                end) ta tb = true <-> ta = tb).
  { rewrite H. split; [intros [-> ->]; reflexivity|]. intros [= -> ->]. now split. }
  clear. induction ta as [|x a IH]; intros [|y b]; try (split; (discriminate || reflexivity)).
  rewrite andb_true_iff, tokens_eqb_eq, IH. split; [intros [-> ->]; reflexivity|].
  intros [= -> ->]. now split.
Qed.

Lemma index_matches_delete_last (p : Sqlite.phrase) (e : FtsEntry) (index : list FtsEntry) :
  index_matches p (fts_delete_entry e (index ++ [e])) = index_matches p index.
Proof.
  unfold index_matches. induction index as [|x index IH]; cbn [app fts_delete_entry].
  - now rewrite (proj2 (entry_eqb_eq e e) eq_refl).
  - destruct (entry_eqb x e) eqn:E.
    + apply entry_eqb_eq in E. subst x. rewrite existsb_app. cbn [existsb].
      rewrite orb_false_r. apply orb_comm.
    + cbn [existsb]. now rewrite IH.
Qed.

Section SaveDelete.
Variable Blob : Type.
Variable blob_size : Blob -> Z.
Variable homedir : string.
Variable bm25 : Sqlite.phrase -> list FtsEntry -> FtsEntry -> Q.
Variable highlight : Sqlite.phrase -> option string -> option string.

(** X3.  Saving a session under an id that was not stored and deleting it
    again gives back the table as it was, and a store every read operation
    answers on as before. *)
Theorem save_then_delete (now : Z) (st : Store) (s : SessionMemory) :
  getById st (Mem.id s) = None ->
  snd (delete (save now st s) (Mem.id s)) = true
  /\ sessions (fst (delete (save now st s) (Mem.id s))) = sessions st
  /\ same_observations blob_size homedir bm25 highlight
       (fst (delete (save now st s) (Mem.id s))) st.
Proof.
  intros Hnew. apply getById_None in Hnew.
  assert (Hrows : sessions (fst (delete (save now st s) (Mem.id s))) = sessions st).
  { rewrite sessions_delete, sessions_save, filter_app, filter_twice. cbn [filter].
    unfold row_of_session at 1. cbn [Col.id]. rewrite String.eqb_refl. cbn [negb].
    rewrite app_nil_r. now apply filter_negb_find. }
  split; [|split; [exact Hrows|]].
  - rewrite delete_existed. now rewrite getById_save.
  - apply reads_agree; [unfold agree; now rewrite Hrows|].
    intros p. unfold delete, sql_delete. cbn [fst sessions sessions_fts].
    rewrite sessions_save at 1. rewrite filter_app.
    rewrite (filter_none _ (filter (other_id s) (sessions st))).
    + cbn [filter app]. unfold row_of_session at 1. cbn [Col.id].
      rewrite String.eqb_refl. cbn [fold_left].
      unfold save. cbn [sessions_fts]. unfold sessions_ai, sessions_ad, fts_insert, fts_delete.
      apply index_matches_delete_last.
    + intros r Hr. apply filter_In in Hr as [_ Hr]. unfold other_id in Hr.
      now destruct (String.eqb (Col.id r) (Mem.id s)).
Qed.

End SaveDelete.

(** ** deleteOld *)

Lemma sessions_deleteOld (clock : Z) (st : Store) (days : Z) :
  sessions (fst (deleteOld clock st days))
  = filter (fun r => clock - days * ms_per_day <=? Col.started_at r) (sessions st).
Proof.
  unfold deleteOld, sql_delete. cbn [fst sessions].
  apply filter_ext. intros r. apply eq_sym, Z.leb_antisym.
Qed.

(** X4.  [deleteOld(d)] removes exactly the rows started before the
    cutoff, archived or not, leaves the others as they were and in place,
    returns the number of rows removed, and a second call with the same
    cutoff removes nothing and returns 0. *)
Theorem deleteOld_spec (clock : Z) (st : Store) (days : Z) :
  let cutoff := clock - days * ms_per_day in
  sessions (fst (deleteOld clock st days))
  = filter (fun r => cutoff <=? Col.started_at r) (sessions st)
  /\ snd (deleteOld clock st days)
     = count (fun r => Col.started_at r <? cutoff) (sessions st)
  /\ deleteOld clock (fst (deleteOld clock st days)) days = (fst (deleteOld clock st days), 0).
Proof.
  intros cutoff. repeat match goal with |- _ /\ _ => split end.
  - apply sessions_deleteOld.
  - reflexivity.
  - unfold deleteOld at 1. fold cutoff. apply sql_delete_idle.
    apply find_none_iff. intros r Hr. rewrite sessions_deleteOld in Hr.
    apply filter_In in Hr as [_ Hr]. apply Z.leb_le in Hr. apply Z.ltb_ge.
    unfold cutoff. lia.
Qed.

(** ** UPDATE statements, as the reads see them *)

Lemma rowToSession_update (r : Row) (a : Z) (aAt : option Z) (s : Z) (sAt : option Z)
    (lfa : option string) (u : Z) :
  rowToSession (Col.update r a aAt s sAt lfa u)
  = amend (rowToSession r) (a =? 1) (Js.or_null_number aAt) (Some (s =? 1))
          (Js.or_null_number sAt) (Js.or_null_string lfa).
Proof. reflexivity. Qed.

Lemma find_map_update (id : string) (cond : Row -> bool) (assign : Row -> Row)
    (rows : list Row) :
  (forall r, Col.id (assign r) = Col.id r) ->
  find (has_id id) (map (fun r => if cond r then assign r else r) rows)
  = option_map (fun r => if cond r then assign r else r) (find (has_id id) rows).
Proof.
  intros H. induction rows as [|r rows IH]; cbn; [reflexivity|].
  replace (has_id id (if cond r then assign r else r)) with (has_id id r)
    by (unfold has_id; destruct (cond r); now rewrite ?H).
  destruct (has_id id r); [reflexivity|exact IH].
Qed.

Lemma find_has_id (id : string) (rows : list Row) (r : Row) :
  find (has_id id) rows = Some r -> Col.id r = id.
Proof. intros H. apply find_some in H as [_ H]. now apply String.eqb_eq. Qed.

Lemma getById_find (st : Store) (id : string) :
  getById st id = option_map rowToSession (find (has_id id) (sessions st)).
Proof. reflexivity. Qed.

(* What [getById] reads after [UPDATE ... WHERE id = ?]. *)
Lemma getById_update_id (st : Store) (id id' : string) (assign : Row -> Row) :
  (forall r, Col.id (assign r) = Col.id r) ->
  getById (fst (sql_update (has_id id) assign st)) id'
  = option_map (fun r => rowToSession (if String.eqb id' id then assign r else r))
      (find (has_id id') (sessions st)).
Proof.
  intros H. rewrite getById_find. cbn [sql_update fst sessions].
  rewrite find_map_update by exact H.
  destruct (find (has_id id') (sessions st)) as [r|] eqn:E; [|reflexivity].
  cbn [option_map]. apply find_has_id in E. unfold has_id. now rewrite E.
Qed.

Lemma filter_map_update (p cond : Row -> bool) (assign : Row -> Row) (rows : list Row) :
  (forall r, cond r = true -> p (assign r) = false) ->
  filter p (map (fun r => if cond r then assign r else r) rows)
  = filter (fun r => p r && negb (cond r)) rows.
Proof.
  intros H. induction rows as [|r rows IH]; cbn; [reflexivity|]. rewrite IH.
  destruct (cond r) eqn:C; cbn.
  - now rewrite (H r C), andb_false_r.
  - now rewrite andb_true_r.
Qed.

Lemma filter_andb {A} (p q : A -> bool) (l : list A) :
  filter (fun x => p x && q x) l = filter q (filter p l).
Proof.
  induction l as [|x l IH]; cbn; [reflexivity|].
  destruct (p x); cbn; [destruct (q x); now rewrite IH|exact IH].
Qed.

(** Sorting by a key and then filtering is filtering and then sorting. *)
Section SortFilter.
Context {A : Type} (lt : A -> A -> bool) (key : A -> Z).
Hypothesis Hlt : forall a b, lt a b = (key b <? key a).

Lemma insert_head (x : A) (l : list A) :
  Forall (fun z => key z <= key x) l -> Js.insert lt x l = x :: l.
Proof.
  destruct l as [|z l]; [reflexivity|]. intros H. inversion H; subst. cbn.
  rewrite Hlt. now destruct (Z.ltb_spec (key x) (key z)); [lia|].
Qed.

Lemma filter_insert (p : A -> bool) (x : A) (l : list A) :
  StronglySorted (fun a b => key b <= key a) l ->
  filter p (Js.insert lt x l)
  = if p x then Js.insert lt x (filter p l) else filter p l.
Proof.
  induction 1 as [|y l Hs IH Hy]; [cbn; now destruct (p x)|].
  cbn [Js.insert]. rewrite Hlt. destruct (Z.ltb_spec (key x) (key y)) as [Hxy|Hxy].
  - cbn [filter]. rewrite IH. destruct (p x), (p y); try reflexivity.
    cbn [Js.insert]. rewrite Hlt. now destruct (Z.ltb_spec (key x) (key y)); [|lia].
  - cbn [filter]. destruct (p x); [|reflexivity].
    symmetry. apply insert_head. apply Forall_forall. intros z Hz.
    assert (Hz' : In z (y :: l)).
    { destruct (p y); [destruct Hz as [<-|Hz]; [now left|right]|right];
        now apply filter_In in Hz. }
    destruct Hz' as [<-|Hz']; [lia|].
    pose proof (proj1 (Forall_forall _ _) Hy z Hz'). cbn in *. lia.
Qed.

Lemma filter_sort (p : A -> bool) (l : list A) :
  filter p (Js.sort lt l) = Js.sort lt (filter p l).
Proof.
  induction l as [|x l IH]; [reflexivity|]. cbn [Js.sort filter].
  rewrite filter_insert by (apply (sort_sorted lt key Hlt)).
  rewrite IH. now destruct (p x).
Qed.

End SortFilter.

Lemma filter_order_by_desc (p : Row -> bool) (rows : list Row) :
  filter p (Sqlite.order_by_desc Col.started_at rows)
  = Sqlite.order_by_desc Col.started_at (filter p rows).
Proof. apply (filter_sort _ Col.started_at). reflexivity. Qed.

Lemma filter_order_by_asc (p : Row -> bool) (rows : list Row) :
  filter p (Sqlite.order_by_asc Col.started_at rows)
  = Sqlite.order_by_asc Col.started_at (filter p rows).
Proof.
  apply (filter_sort _ (fun r => - Col.started_at r)). intros a b.
  destruct (Z.ltb_spec (Col.started_at a) (Col.started_at b)),
           (Z.ltb_spec (- Col.started_at b) (- Col.started_at a)); (reflexivity || lia).
Qed.

Lemma getById_markSynced (clock : Z) (st : Store) (id : string) :
  getById (markSynced clock st id) id = option_map (marked_synced clock) (getById st id).
Proof.
  unfold markSynced. rewrite (getById_update_id st id id) by reflexivity.
  rewrite getById_find.
  destruct (find (has_id id) (sessions st)) as [r|]; [|reflexivity].
  cbn [option_map]. rewrite String.eqb_refl, rowToSession_update.
  unfold marked_synced. cbn [rowToSession Mem.archived Mem.archivedAt Mem.logFileArchived].
  destruct (Col.archived r =? 1), (Col.archived_at r) as [[| |]|],
    (Col.log_file_archived r) as [[|]|]; reflexivity.
Qed.

Lemma getById_markSynced_other (clock : Z) (st : Store) (id id' : string) :
  id' <> id -> getById (markSynced clock st id) id' = getById st id'.
Proof.
  intros Hid. unfold markSynced. rewrite (getById_update_id st id id') by reflexivity.
  rewrite getById_find.
  apply String.eqb_neq in Hid. rewrite Hid. now destruct (find _ _).
Qed.

(** X5.  [markSynced(id)] sets [synced] and [syncedAt] of the session
    under the id and nothing else of it, leaves the other sessions as they
    were, takes the session off the list of unsynced sessions and no other,
    and leaves the store as it was for an id that is not stored. *)
Theorem markSynced_spec (clock : Z) (st : Store) (id : string) :
  getById (markSynced clock st id) id = option_map (marked_synced clock) (getById st id)
  /\ (forall id', id' <> id -> getById (markSynced clock st id) id' = getById st id')
  /\ getUnsyncedSessions (markSynced clock st id)
     = filter (fun s => negb (String.eqb (Mem.id s) id)) (getUnsyncedSessions st)
  /\ (getById st id = None -> markSynced clock st id = st).
Proof.
  repeat match goal with |- _ /\ _ => split end.
  - apply getById_markSynced.
  - intros id'. apply getById_markSynced_other.
  - unfold getUnsyncedSessions, markSynced. cbn [sql_update fst sessions].
    rewrite (filter_map_update (fun r => Col.synced r =? 0)) by reflexivity.
    rewrite filter_andb, <- filter_order_by_asc, filter_map_comm. reflexivity.
  - intros H. apply getById_None in H. unfold markSynced.
    rewrite sql_update_idle; [reflexivity|]. intros r Hr.
    apply (proj1 (find_none_iff _ _) H r Hr).
Qed.

Lemma getById_updateArchivePath (clock : Z) (st : Store) (id archivePath : string) :
  getById (updateArchivePath clock st id archivePath) id
  = option_map (with_archive archivePath) (getById st id).
Proof.
  unfold updateArchivePath. rewrite (getById_update_id st id id) by reflexivity.
  rewrite getById_find.
  destruct (find (has_id id) (sessions st)) as [r|]; [|reflexivity].
  cbn [option_map]. rewrite String.eqb_refl, rowToSession_update.
  unfold with_archive.
  cbn [rowToSession Mem.archived Mem.archivedAt Mem.synced Mem.syncedAt].
  destruct (Col.archived r =? 1), (Col.archived_at r) as [[| |]|],
    (Col.synced_at r) as [[| |]|]; reflexivity.
Qed.

Lemma getById_updateArchivePath_other (clock : Z) (st : Store)
    (id id' archivePath : string) :
  id' <> id -> getById (updateArchivePath clock st id archivePath) id' = getById st id'.
Proof.
  intros Hid. unfold updateArchivePath.
  rewrite (getById_update_id st id id') by reflexivity.
  rewrite getById_find.
  apply String.eqb_neq in Hid. rewrite Hid. now destruct (find _ _).
Qed.

(** X6.  [updateArchivePath(id, path)] sets [logFileArchived] of the
    session under the id (an empty path reads back as absent) and nothing
    else of it, leaves the other sessions as they were, and leaves the store
    as it was for an id that is not stored. *)
Theorem updateArchivePath_spec (clock : Z) (st : Store) (id archivePath : string) :
  getById (updateArchivePath clock st id archivePath) id
  = option_map (with_archive archivePath) (getById st id)
  /\ (forall id', id' <> id ->
        getById (updateArchivePath clock st id archivePath) id' = getById st id')
  /\ (getById st id = None -> updateArchivePath clock st id archivePath = st).
Proof.
  repeat match goal with |- _ /\ _ => split end.
  - apply getById_updateArchivePath.
  - intros id'. apply getById_updateArchivePath_other.
  - intros H. apply getById_None in H. unfold updateArchivePath.
    rewrite sql_update_idle; [reflexivity|]. intros r Hr.
    apply (proj1 (find_none_iff _ _) H r Hr).
Qed.

(** ** The listing reads *)

Lemma StronglySorted_map {A B} (R : B -> B -> Prop) (f : A -> B) (l : list A) :
  StronglySorted (fun a b => R (f a) (f b)) l -> StronglySorted R (map f l).
Proof.
  induction 1 as [|x l Hs IH Hx]; cbn; constructor; [exact IH|].
  apply Forall_map. exact Hx.
Qed.

Lemma hd_error_map {A B} (f : A -> B) (l : list A) :
  hd_error (map f l) = option_map f (hd_error l).
Proof. now destruct l. Qed.

Lemma archived_flags (r : Row) :
  row_ok r -> (Col.archived r =? 0) = negb (Col.archived r =? 1).
Proof. intros [[H|H] _]; now rewrite H. Qed.

Lemma filter_ext_Forall {A} (P : A -> Prop) (p q : A -> bool) (l : list A) :
  Forall P l -> (forall x, P x -> p x = q x) -> filter p l = filter q l.
Proof.
  intros Hall H. apply filter_ext_in. intros x Hx. apply H.
  revert x Hx. now apply Forall_forall.
Qed.

(** X7.  [getAll(true)] returns every stored session once, newest
    [startedAt] first, sessions of equal [startedAt] in table order; and
    [getAll(false)] is that list without the archived sessions. *)
Theorem getAll_spec (st : Store) :
  Permutation (getAll st true) (map rowToSession (sessions st))
  /\ StronglySorted (fun a b => Mem.startedAt b <= Mem.startedAt a) (getAll st true)
  /\ (forall k,
        filter (fun s => Mem.startedAt s =? k) (getAll st true)
        = filter (fun s => Mem.startedAt s =? k) (map rowToSession (sessions st)))
  /\ (consistent st ->
      getAll st false = filter (fun s => negb (Mem.archived s)) (getAll st true)).
Proof.
  unfold getAll, Sqlite.order_by_desc. repeat match goal with |- _ /\ _ => split end.
  - apply Permutation_map, sort_perm.
  - apply StronglySorted_map. cbn [rowToSession Mem.startedAt].
    apply (sort_sorted _ Col.started_at). reflexivity.
  - intros k. rewrite !filter_map_comm. f_equal. cbn [rowToSession Mem.startedAt].
    apply (sort_stable _ Col.started_at). reflexivity.
  - intros [_ Hok]. rewrite filter_map_comm. f_equal. cbn [rowToSession Mem.archived].
    rewrite (filter_sort _ Col.started_at) by reflexivity. f_equal.
    apply (filter_ext_Forall row_ok); [exact Hok|]. apply archived_flags.
Qed.

Lemma getRecent_limit (st : Store) (limit : Z) (projectPath : option string) :
  getRecent st limit projectPath
  = Sqlite.limit limit (filter (of_project projectPath) (getAll st false)).
Proof.
  unfold getRecent, getAll, of_project. rewrite filter_map_comm.
  cbn [rowToSession Mem.projectPath]. rewrite filter_order_by_desc.
  unfold Sqlite.limit. destruct (Js.truthy_opt_string projectPath); cbn [negb orb].
  - destruct (limit <? 0); [reflexivity|apply eq_sym, firstn_map].
  - rewrite (filter_all (fun _ => true)) by reflexivity.
    destruct (limit <? 0); [reflexivity|apply eq_sym, firstn_map].
Qed.

(** X8.  [getRecent(limit, projectPath)] is the first [limit] sessions of
    [getAll(false)], of the project when one is given and not empty; a
    negative [limit] does not limit, and an empty project path is no
    filter. *)
Theorem getRecent_spec (st : Store) (limit : Z) (projectPath : option string) :
  (0 <= limit ->
   getRecent st limit projectPath
   = firstn (Z.to_nat limit) (filter (of_project projectPath) (getAll st false)))
  /\ (limit < 0 ->
      getRecent st limit projectPath = filter (of_project projectPath) (getAll st false))
  /\ getRecent st limit (Some EmptyString) = getRecent st limit None.
Proof.
  repeat match goal with |- _ /\ _ => split end.
  - intros Hl. rewrite getRecent_limit. unfold Sqlite.limit.
    now destruct (Z.ltb_spec limit 0); [lia|].
  - intros Hl. rewrite getRecent_limit. unfold Sqlite.limit.
    now destruct (Z.ltb_spec limit 0); [|lia].
  - reflexivity.
Qed.

(** X9.  [getLastForProject(p)] is the first session of the project in
    [getAll(true)], archived or not: a session of the project no other
    session of the project started after; it is null exactly when no
    session of the project is stored. *)
Theorem getLastForProject_spec (st : Store) (projectPath : string) :
  getLastForProject st projectPath
  = hd_error (filter (fun s => String.eqb (Mem.projectPath s) projectPath) (getAll st true))
  /\ (getLastForProject st projectPath = None
      <-> forall r, In r (sessions st) -> Col.project_path r <> projectPath)
  /\ (forall s, getLastForProject st projectPath = Some s ->
        Mem.projectPath s = projectPath
        /\ In s (getAll st true)
        /\ forall r, In r (sessions st) -> Col.project_path r = projectPath ->
                     Col.started_at r <= Mem.startedAt s).
Proof.
  set (mine := fun r : Row => String.eqb (Col.project_path r) projectPath).
  set (newer := fun a b : Row => Col.started_at b <? Col.started_at a).
  assert (E : getLastForProject st projectPath
              = option_map rowToSession (hd_error (Js.sort newer (filter mine (sessions st)))))
    by reflexivity.
  pose proof (sort_perm newer (filter mine (sessions st))) as P.
  pose proof (sort_sorted newer Col.started_at (fun a b => eq_refl) (filter mine (sessions st)))
    as Hs.
  repeat match goal with |- _ /\ _ => split end.
  - rewrite E. unfold getAll. rewrite filter_map_comm. cbn [rowToSession Mem.projectPath].
    fold mine. now rewrite filter_order_by_desc, hd_error_map.
  - split.
    + rewrite E. destruct (Js.sort newer _) as [|r l]; cbn; [|discriminate].
      intros _. apply Permutation_nil in P. intros r Hr Hp.
      assert (Hin : In r (filter mine (sessions st))).
      { apply filter_In. split; [exact Hr|]. now apply String.eqb_eq. }
      now rewrite P in Hin.
    + intros H. rewrite E.
      destruct (Js.sort newer _) as [|r l]; [reflexivity|exfalso].
      assert (Hin : In r (filter mine (sessions st))).
      { apply (Permutation_in _ P). now left. }
      apply filter_In in Hin as [Hin Hp]. apply String.eqb_eq in Hp. now apply (H r).
  - intros s H. rewrite E in H.
    destruct (Js.sort newer _) as [|r l]; [discriminate|].
    injection H as <-.
    assert (Hin : In r (filter mine (sessions st))).
    { apply (Permutation_in _ P). now left. }
    apply filter_In in Hin as [Hin Hp].
    split; [now apply String.eqb_eq in Hp|]. split.
    + unfold getAll. apply in_map.
      now apply (Permutation_in _ (Permutation_sym (sort_perm _ _))).
    + intros r' Hr' Hp'. cbn [rowToSession Mem.startedAt].
      assert (Hin' : In r' (r :: l)).
      { apply (Permutation_in _ (Permutation_sym P)).
        apply filter_In. split; [exact Hr'|]. now apply String.eqb_eq. }
      inversion Hs as [|? ? _ Hall]; subst.
      destruct Hin' as [<-|Hin']; [lia|].
      apply (proj1 (Forall_forall _ _) Hall r' Hin').
Qed.

(** ** archiveOld, as the reads see it *)

Lemma or_null_number_idem (v : option Z) :
  Js.or_null_number (Js.or_null_number v) = Js.or_null_number v.
Proof. destruct v as [[| |]|]; reflexivity. Qed.

Lemma or_null_string_idem (v : option string) :
  Js.or_null_string (Js.or_null_string v) = Js.or_null_string v.
Proof. destruct v as [[|]|]; reflexivity. Qed.

Lemma length_archived_update (cond : Row -> bool) (assign : Row -> Row) (rows : list Row) :
  (forall r, cond r = true ->
             (Col.archived r =? 1) = false /\ (Col.archived (assign r) =? 1) = true) ->
  List.length (filter (fun r => Col.archived r =? 1)
                 (map (fun r => if cond r then assign r else r) rows))
  = Nat.add (List.length (filter (fun r => Col.archived r =? 1) rows))
            (List.length (filter cond rows)).
Proof.
  intros H. induction rows as [|r rows IH]; [reflexivity|]. cbn [map filter].
  destruct (cond r) eqn:C.
  - destruct (H r C) as [H0 H1]. rewrite H0, H1. cbn [List.length]. rewrite IH. lia.
  - destruct (Col.archived r =? 1); cbn [List.length]; rewrite IH; lia.
Qed.

(** X10.  After [archiveOld(d)], [getAll(false)] is what it was without
    the sessions started before the cutoff, the archived sessions are as
    many more as the call returns, and a session is read back archived at
    the time of the call when it was started before the cutoff and not
    archived, and as it was otherwise. *)
Theorem archiveOld_reads (clock clock' : Z) (st : Store) (days : Z) :
  let cutoff := clock - days * ms_per_day in
  let st' := fst (archiveOld clock clock' st days) in
  getAll st' false = filter (fun s => cutoff <=? Mem.startedAt s) (getAll st false)
  /\ Z.of_nat (List.length (getArchived st'))
     = Z.of_nat (List.length (getArchived st)) + snd (archiveOld clock clock' st days)
  /\ (consistent st ->
      forall id,
        getById st' id
        = option_map
            (fun s => if (Mem.startedAt s <? cutoff) && negb (Mem.archived s)
                      then archived_at_time clock' s else s)
            (getById st id)).
Proof.
  intros cutoff st'. subst st'. unfold archiveOld. fold cutoff.
  set (assign := fun r : Row => Col.update r 1 (Some clock') (Col.synced r) (Col.synced_at r)
                                  (Col.log_file_archived r) (Col.updated_at r)).
  repeat match goal with |- _ /\ _ => split end.
  - unfold getAll. cbn [sql_update fst sessions].
    rewrite (filter_map_update (fun r => Col.archived r =? 0)) by reflexivity.
    rewrite filter_map_comm. cbn [rowToSession Mem.startedAt].
    rewrite filter_order_by_desc, <- filter_andb. do 2 f_equal.
    apply filter_ext. intros r. fold (due cutoff r). unfold due.
    destruct (Col.archived r =? 0); cbn; [|reflexivity].
    rewrite andb_true_r. apply eq_sym, Z.leb_antisym.
  - rewrite !length_getArchived. cbn [sql_update fst snd sessions].
    rewrite <- Nat2Z.inj_add. f_equal. apply length_archived_update.
    intros r D. apply andb_true_iff in D as [_ D]. apply Z.eqb_eq in D.
    cbn [Col.update Col.archived]. now rewrite D.
  - intros [_ Hok] id. rewrite !getById_find. cbn [sql_update fst sessions].
    rewrite find_map_update by reflexivity.
    destruct (find (has_id id) (sessions st)) as [r|] eqn:E; [|reflexivity].
    cbn [option_map]. f_equal. apply find_some in E as [Hr _].
    pose proof (proj1 (Forall_forall _ _) Hok r Hr) as Hrow.
    cbn [rowToSession Mem.startedAt Mem.archived]. rewrite <- (archived_flags r Hrow).
    destruct ((Col.started_at r <? cutoff) && (Col.archived r =? 0)); [|reflexivity].
    unfold assign. rewrite rowToSession_update. unfold archived_at_time.
    cbn [rowToSession Mem.synced Mem.syncedAt Mem.logFileArchived].
    destruct (Col.synced_at r) as [[| |]|], (Col.log_file_archived r) as [[|]|]; reflexivity.
Qed.

(** ** Files *)

Section Files.
Variable Blob : Type.

Lemma readFileSync_write_same (fs : list (string * Blob)) (p : string) (b : Blob) :
  readFileSync (writeFileSync fs p b) p = Some b.
Proof. unfold readFileSync, writeFileSync. cbn. now rewrite String.eqb_refl. Qed.

Lemma readFileSync_write_other (fs : list (string * Blob)) (p q : string) (b : Blob) :
  q <> p -> readFileSync (writeFileSync fs p b) q = readFileSync fs q.
Proof.
  intros H. unfold readFileSync, writeFileSync, unlinkSync. cbn [find fst].
  apply String.eqb_neq in H. rewrite String.eqb_sym, H. f_equal.
  apply find_filter_implied. intros e He. apply String.eqb_eq in He.
  now rewrite He, H.
Qed.

Lemma readFileSync_unlink_other (fs : list (string * Blob)) (p q : string) :
  q <> p -> readFileSync (unlinkSync fs p) q = readFileSync fs q.
Proof.
  intros H. unfold readFileSync, unlinkSync. f_equal.
  apply find_filter_implied. intros e He. apply String.eqb_eq in He.
  apply String.eqb_neq in H. now rewrite He, H.
Qed.

End Files.

Lemma append_assoc (a b c : string) : ((a ++ b) ++ c = a ++ (b ++ c))%string.
Proof. induction a as [|x a IH]; cbn; [reflexivity|]. now rewrite IH. Qed.

Lemma append_inj_l (a b c : string) : (a ++ b = a ++ c)%string -> b = c.
Proof. induction a as [|x a IH]; cbn; [easy|]. intros [= H]. now apply IH. Qed.

Lemma path_join_not_empty (a b : string) : Js.truthy_string (path_join a b) = true.
Proof. unfold path_join. now destruct a. Qed.

(** No archive is written over the database file. *)
Lemma archive_path_not_DB_PATH (homedir name : string) :
  path_join (ARCHIVE_DIR homedir) name <> DB_PATH homedir.
Proof.
  unfold ARCHIVE_DIR, DB_PATH, DB_DIR. unfold path_join at 1 2 4.
  rewrite !append_assoc. intros H. apply append_inj_l in H. discriminate.
Qed.

(** ** compressLogFile and decompressLogFile *)

Section Compress.
Variable Blob : Type.
Variable gzipSync : Blob -> Blob.
Variable gunzipSync : Blob -> option Blob.
Variable toString : Blob -> string.
Variable homedir : string.

Lemma compressLogFile_none (clock : Z) (w : World Blob) (session : SessionMemory) :
  Mem.logFile session = EmptyString \/ readFileSync (files w) (Mem.logFile session) = None ->
  compressLogFile gzipSync homedir clock w session = (w, None).
Proof.
  unfold compressLogFile, existsSync. intros [H|H]; rewrite H; [reflexivity|].
  cbn [negb]. now rewrite orb_true_r.
Qed.

Lemma compressLogFile_some (clock : Z) (w : World Blob) (session : SessionMemory)
    (content : Blob) :
  Mem.logFile session <> EmptyString ->
  readFileSync (files w) (Mem.logFile session) = Some content ->
  compressLogFile gzipSync homedir clock w session
  = ({| store := updateArchivePath clock (store w) (Mem.id session) (archive_path homedir session);
        files := writeFileSync (files w) (archive_path homedir session) (gzipSync content) |},
     Some (archive_path homedir session)).
Proof.
  intros Hne Hread. unfold compressLogFile, existsSync. rewrite Hread.
  destruct (Mem.logFile session); [congruence|]. reflexivity.
Qed.



End Compress.

(** ** runCleanup when nothing is to be deleted *)

Section Cleanup.
Variable Blob : Type.
Variable blob_size : Blob -> Z.
Variable gzipSync : Blob -> Blob.
Variable homedir : string.

Lemma ids_updateArchivePath (clock : Z) (st : Store) (id archivePath : string) :
  map Col.id (sessions (updateArchivePath clock st id archivePath)) = map Col.id (sessions st).
Proof. unfold updateArchivePath. cbn [sql_update fst sessions]. now apply map_id_update. Qed.

Lemma ids_archiveOld (clock clock' : Z) (st : Store) (days : Z) :
  map Col.id (sessions (fst (archiveOld clock clock' st days))) = map Col.id (sessions st).
Proof. unfold archiveOld. cbn [sql_update fst sessions]. now apply map_id_update. Qed.

(* One call of [compressLogFile]: the rows keep their ids, the database
   file is not touched and no file goes away. *)
Lemma compressLogFile_keeps (clock : Z) (w : World Blob) (session : SessionMemory) :
  let w' := fst (compressLogFile gzipSync homedir clock w session) in
  map Col.id (sessions (store w')) = map Col.id (sessions (store w))
  /\ readFileSync (files w') (DB_PATH homedir) = readFileSync (files w) (DB_PATH homedir)
  /\ (forall p, existsSync (files w) p = true -> existsSync (files w') p = true).
Proof.
  cbv zeta. destruct (Mem.logFile session) as [|c l] eqn:L.
  { rewrite compressLogFile_none by (left; exact L). cbn [fst]. auto. }
  destruct (readFileSync (files w) (Mem.logFile session)) as [content|] eqn:R.
  2:{ rewrite compressLogFile_none by (right; exact R). cbn [fst]. auto. }
  rewrite (compressLogFile_some _ gzipSync homedir clock w session content)
    by (congruence || assumption).
  cbn [fst store files]. split; [apply ids_updateArchivePath|]. split.
  - apply readFileSync_write_other. apply not_eq_sym, archive_path_not_DB_PATH.
  - intros p Hp. unfold existsSync in *.
    destruct (String.eqb_spec p (archive_path homedir session)) as [->|Hne].
    + now rewrite readFileSync_write_same.
    + now rewrite readFileSync_write_other.
Qed.

Lemma compress_archived_keeps (clock : Z) (archivedSessions : list SessionMemory) :
  forall (w : World Blob) (n : Z),
    let w' := fst (compress_archived gzipSync homedir clock archivedSessions w n) in
    map Col.id (sessions (store w')) = map Col.id (sessions (store w))
    /\ readFileSync (files w') (DB_PATH homedir) = readFileSync (files w) (DB_PATH homedir)
    /\ (forall p, existsSync (files w) p = true -> existsSync (files w') p = true).
Proof.
  induction archivedSessions as [|session rest IH]; intros w n; cbn [compress_archived].
  - cbn. auto.
  - destruct (Js.truthy_string (Mem.logFile session)
              && negb (Js.truthy_opt_string (Mem.logFileArchived session))); [|apply IH].
    pose proof (compressLogFile_keeps clock w session) as K. cbv zeta in K.
    destruct (compressLogFile gzipSync homedir clock w session) as [w1 archived].
    cbn [fst] in K. destruct K as (K1 & K2 & K3).
    match goal with
    | |- context [compress_archived _ _ _ rest w1 ?m] =>
        specialize (IH w1 m); cbv zeta in IH; destruct IH as (I1 & I2 & I3)
    end.
    cbv zeta. rewrite I1, I2. auto.
Qed.

Lemma storageUsedBytes_reads (fs fs' : list (string * Blob)) (st st' : Store) :
  readFileSync fs' (DB_PATH homedir) = readFileSync fs (DB_PATH homedir) ->
  storageUsedBytes (getStats blob_size homedir fs' st')
  = storageUsedBytes (getStats blob_size homedir fs st).
Proof.
  intros H. cbn [getStats storageUsedBytes]. unfold existsSync, statSize. now rewrite H.
Qed.

(** X13.  With archives kept forever and the database file within the
    ceiling, [runCleanup] deletes nothing: the table holds the rows of the
    same ids in the same order, every file that existed still exists, and
    the report counts no deleted session and no freed byte. *)
Theorem runCleanup_keeps_records (clock : Z) (config : RetentionConfig) (w : World Blob) :
  archives config = "forever"%string ->
  storageUsedBytes (getStats blob_size homedir (files w) (store w))
  <= maxStorageGb config * 1000000000 ->
  let w' := fst (runCleanup blob_size gzipSync homedir clock config w) in
  let report := snd (runCleanup blob_size gzipSync homedir clock config w) in
  map Col.id (sessions (store w')) = map Col.id (sessions (store w))
  /\ (forall p, existsSync (files w) p = true -> existsSync (files w') p = true)
  /\ sessionsDeleted report = 0
  /\ bytesFreed report = 0.
Proof.
  intros Hforever Hsize. unfold runCleanup. rewrite Hforever.
  change (parseDays "forever") with Infinity. cbv iota.
  set (step1 := match parseDays (fullSessions config) with
                | Finite days => archiveOld clock clock (store w) days
                | Infinity => (store w, 0)
                end).
  assert (H1 : map Col.id (sessions (fst step1)) = map Col.id (sessions (store w))).
  { subst step1. destruct (parseDays (fullSessions config)); [apply ids_archiveOld|reflexivity]. }
  destruct step1 as [st1 archivedCount]. cbn [fst] in H1.
  pose proof (compress_archived_keeps clock (getArchived st1)
                {| store := st1; files := files w |} 0) as K. cbv zeta in K.
  destruct (compress_archived gzipSync homedir clock (getArchived st1) _ 0) as [w2 backedUp].
  cbn [fst store files] in K. destruct K as (K1 & K2 & K3).
  cbn [store files].
  rewrite (storageUsedBytes_reads (files w) (files w2) (store w) (store w2) K2).
  destruct (Z.ltb_spec (maxStorageGb config * 1000000000)
              (storageUsedBytes (getStats blob_size homedir (files w) (store w))));
    [lia|].
  cbn [fst snd store files sessionsDeleted bytesFreed].
  rewrite K1, H1. auto.
Qed.

End Cleanup.

(** ** trimToStorageLimit: what goes, and in which order *)

Lemma NoDup_ids_eq (rows : list Row) (r r' : Row) :
  NoDup (map Col.id rows) -> In r rows -> In r' rows -> Col.id r = Col.id r' -> r = r'.
Proof.
  induction rows as [|x rows IH]; cbn; [easy|]. intros Hn Hr Hr' Hid.
  inversion Hn as [|? ? Hx Hn']; subst.
  destruct Hr as [<-|Hr], Hr' as [<-|Hr']; [reflexivity| | |now apply IH].
  - exfalso. apply Hx. rewrite Hid. now apply in_map.
  - exfalso. apply Hx. rewrite <- Hid. now apply in_map.
Qed.

Lemma length_filter_has_id (id : string) (rows : list Row) :
  NoDup (map Col.id rows) -> (List.length (filter (has_id id) rows) <= 1)%nat.
Proof.
  induction rows as [|x rows IH]; cbn; [lia|]. intros Hn.
  inversion Hn as [|? ? Hx Hn']; subst. unfold has_id at 1.
  destruct (String.eqb_spec (Col.id x) id) as [E|E]; [|now apply IH].
  cbn [List.length]. rewrite (filter_none (has_id id) rows); [cbn; lia|].
  intros r Hr. unfold has_id. apply String.eqb_neq. intros E'.
  apply Hx. rewrite E, <- E'. now apply in_map.
Qed.

Lemma length_filter_split {A} (p : A -> bool) (l : list A) :
  List.length l
  = Nat.add (List.length (filter p l)) (List.length (filter (fun x => negb (p x)) l)).
Proof.
  induction l as [|x l IH]; [reflexivity|]. cbn [filter List.length].
  destruct (p x); cbn [negb List.length]; lia.
Qed.

Lemma StronglySorted_app_rel {A} (R : A -> A -> Prop) (l1 l2 : list A) :
  StronglySorted R (l1 ++ l2) -> forall a b, In a l1 -> In b l2 -> R a b.
Proof.
  induction l1 as [|x l1 IH]; cbn; [easy|]. intros Hs a b Ha Hb.
  inversion Hs as [|? ? Hs' Hall]; subst. destruct Ha as [<-|Ha]; [|now apply IH].
  apply (proj1 (Forall_forall _ _) Hall). apply in_or_app. now right.
Qed.

Section TrimOrder.
Variable Blob : Type.
Variable blob_size : Blob -> Z.
Variable homedir : string.

(* The loop deletes the sessions of a front part of the list it is
   given, and counts the rows that go. *)
Lemma trim_loop_front (maxBytes : Z) (sessions0 : list SessionMemory) :
  forall (w : World Blob) (size : Z) (result : TrimResult),
    NoDup (map Col.id (sessions (store w))) ->
    let w' := fst (trim_loop blob_size homedir maxBytes sessions0 w size result) in
    let result' := snd (trim_loop blob_size homedir maxBytes sessions0 w size result) in
    exists front back,
      sessions0 = front ++ back
      /\ sessions (store w')
         = filter (fun r => negb (Js.includes (map Mem.id front) (Col.id r)))
                  (sessions (store w))
      /\ deleted result'
         = deleted result
           + (Z.of_nat (List.length (sessions (store w)))
              - Z.of_nat (List.length (sessions (store w')))).
Proof.
  induction sessions0 as [|s rest IH]; intros w size result Hn; cbn [trim_loop].
  - exists [], []. cbn. rewrite filter_all by reflexivity. repeat split. lia.
  - destruct (size <=? maxBytes).
    + exists [], (s :: rest). cbn. rewrite filter_all by reflexivity. repeat split. lia.
    + pose proof (sessions_delete (store w) (Mem.id s)) as Hrows.
      assert (Hex : snd (delete (store w) (Mem.id s))
                    = (0 <? Z.of_nat (List.length (filter (has_id (Mem.id s))
                                                     (sessions (store w)))))) by reflexivity.
      assert (Hsplit : List.length (sessions (store w))
                       = Nat.add (List.length (filter (has_id (Mem.id s)) (sessions (store w))))
                                 (List.length (sessions (fst (delete (store w) (Mem.id s)))))).
      { rewrite sessions_delete. apply (length_filter_split (has_id (Mem.id s))). }
      destruct (delete (store w) (Mem.id s)) as [store' existed].
      cbn [fst snd] in Hrows, Hex, Hsplit.
      pose proof (length_filter_has_id (Mem.id s) _ Hn) as Hone.
      match goal with
      | |- context [trim_loop _ _ _ rest ?w1 ?size1 ?r1] =>
          destruct (IH w1 size1 r1) as (front & back & Hfb & Hfilter & Hcount)
      end.
      { cbn [store]. rewrite Hrows. now apply map_id_filter_NoDup. }
      cbv zeta in *. cbn [store] in Hfilter, Hcount.
      exists (s :: front), back. split; [now rewrite Hfb|]. split.
      * rewrite Hfilter, Hrows, <- filter_andb. apply filter_ext. intros r.
        cbn [map Js.includes existsb]. unfold has_id, Js.includes.
        rewrite (String.eqb_sym (Col.id r) (Mem.id s)).
        now destruct (String.eqb (Mem.id s) (Col.id r)).
      * rewrite Hcount. subst existed.
        destruct (List.length (filter (has_id (Mem.id s)) (sessions (store w))))
          as [|[|k]] eqn:Hk; cbn [Z.ltb Z.of_nat Z.compare deleted]; lia.
Qed.

(** X14.  [trimToStorageLimit] (ids being unique) deletes oldest first:
    no session it deletes started after one it keeps.  It changes no row
    it keeps, its count of deleted sessions is the number of rows that are
    gone, and when usage is within the ceiling at the start it deletes
    nothing. *)
Theorem trimToStorageLimit_oldest_first (w : World Blob) (maxBytes : Z) :
  NoDup (map Col.id (sessions (store w))) ->
  let w' := fst (trimToStorageLimit blob_size homedir w maxBytes) in
  let result := snd (trimToStorageLimit blob_size homedir w maxBytes) in
  (forall r r', In r (sessions (store w)) -> ~ In r (sessions (store w')) ->
                In r' (sessions (store w')) ->
                Col.started_at r <= Col.started_at r')
  /\ (forall r, In r (sessions (store w')) -> In r (sessions (store w)))
  /\ deleted result
     = Z.of_nat (List.length (sessions (store w)))
       - Z.of_nat (List.length (sessions (store w')))
  /\ (calculateStorageUsed blob_size homedir w <= maxBytes ->
      trimToStorageLimit blob_size homedir w maxBytes
      = (w, {| deleted := 0; trimFreed := 0 |})).
Proof.
  intros Hn.
  set (older := fun a b : SessionMemory => Mem.startedAt a - Mem.startedAt b <? 0).
  set (queue := Js.sort older (getAll (store w) true)).
  change (trimToStorageLimit blob_size homedir w maxBytes)
    with (trim_loop blob_size homedir maxBytes queue w
            (calculateStorageUsed blob_size homedir w) {| deleted := 0; trimFreed := 0 |}).
  cbv zeta.
  assert (Hsorted : StronglySorted (fun a b => - Mem.startedAt b <= - Mem.startedAt a) queue).
  { apply (sort_sorted older (fun s => - Mem.startedAt s)). intros a b. unfold older.
    destruct (Z.ltb_spec (Mem.startedAt a - Mem.startedAt b) 0),
             (Z.ltb_spec (- Mem.startedAt b) (- Mem.startedAt a)); (reflexivity || lia). }
  assert (Hqueue : forall s, In s queue <-> exists r, In r (sessions (store w)) /\ rowToSession r = s).
  { intros s. unfold queue. split.
    - intros H. apply (Permutation_in _ (sort_perm _ _)) in H.
      unfold getAll in H. apply in_map_iff in H as (r & <- & H).
      apply (Permutation_in _ (sort_perm _ _)) in H. eauto.
    - intros (r & Hr & <-). apply (Permutation_in _ (Permutation_sym (sort_perm _ _))).
      unfold getAll. apply in_map.
      now apply (Permutation_in _ (Permutation_sym (sort_perm _ _))). }
  destruct (trim_loop_front maxBytes queue w (calculateStorageUsed blob_size homedir w)
              {| deleted := 0; trimFreed := 0 |} Hn)
    as (front & back & Hfb & Hfilter & Hcount).
  cbv zeta in Hfilter, Hcount. cbn [deleted] in Hcount.
  repeat match goal with |- _ /\ _ => split end.
  - intros r r' Hr Hgone Hr'. rewrite Hfilter in Hgone, Hr'.
    apply filter_In in Hr' as [Hr' Hkeep].
    assert (Hin : Js.includes (map Mem.id front) (Col.id r) = true).
    { destruct (Js.includes (map Mem.id front) (Col.id r)) eqn:E; [reflexivity|exfalso].
      apply Hgone. apply filter_In. now rewrite E. }
    unfold Js.includes in Hin. apply existsb_exists in Hin as (i & Hi & Heq).
    apply String.eqb_eq in Heq. apply in_map_iff in Hi as (s & Hs & Hsf).
    assert (Hsq : In s queue) by (rewrite Hfb; apply in_or_app; now left).
    apply Hqueue in Hsq as (r0 & Hr0 & <-). cbn [rowToSession Mem.id] in Hs.
    assert (r0 = r) by (apply (NoDup_ids_eq _ _ _ Hn Hr0 Hr); congruence). subst r0.
    assert (Hq' : In (rowToSession r') queue) by (apply Hqueue; eauto).
    rewrite Hfb in Hq'. apply in_app_or in Hq' as [Hq'|Hq'].
    + exfalso. apply negb_true_iff in Hkeep. unfold Js.includes in Hkeep.
      assert (existsb (String.eqb (Col.id r')) (map Mem.id front) = true); [|congruence].
      apply existsb_exists. exists (Col.id r'). split; [|apply String.eqb_refl].
      apply in_map_iff. exists (rowToSession r'). now split.
    + rewrite Hfb in Hsorted.
      pose proof (StronglySorted_app_rel _ front back Hsorted
                    (rowToSession r) (rowToSession r') Hsf Hq') as Hle.
      cbn [rowToSession Mem.startedAt] in Hle. lia.
  - intros r Hr. rewrite Hfilter in Hr. now apply filter_In in Hr.
  - rewrite Hcount. lia.
  - intros Hle. destruct queue as [|s rest]; cbn [trim_loop]; [reflexivity|].
    now destruct (Z.leb_spec (calculateStorageUsed blob_size homedir w) maxBytes); [|lia].
Qed.

End TrimOrder.

(** ** search: what comes back *)

Lemma In_firstn {A} (n : nat) (l : list A) (x : A) : In x (firstn n l) -> In x l.
Proof.
  revert l. induction n as [|n IH]; intros [|y l]; cbn; try easy.
  intros [H|H]; [now left|right; now apply IH].
Qed.

Lemma StronglySorted_firstn {A} (R : A -> A -> Prop) (n : nat) (l : list A) :
  StronglySorted R l -> StronglySorted R (firstn n l).
Proof.
  intros H. revert n. induction H as [|x l Hs IH Hx]; intros [|n]; cbn; try constructor.
  - apply IH.
  - apply Forall_forall. intros y Hy. apply (proj1 (Forall_forall _ _) Hx).
    eapply In_firstn; eauto.
Qed.

Lemma In_limit {A} (n : Z) (l : list A) (x : A) : In x (Sqlite.limit n l) -> In x l.
Proof. unfold Sqlite.limit. destruct (n <? 0); [easy|apply In_firstn]. Qed.

Lemma In_slice0 {A} (n : Z) (l : list A) (x : A) : In x (Js.slice0 n l) -> In x l.
Proof. unfold Js.slice0. destruct (0 <=? n); apply In_firstn. Qed.

Lemma length_slice0 {A} (n : Z) (l : list A) :
  0 <= n -> (List.length (Js.slice0 n l) <= Z.to_nat n)%nat.
Proof. intros H. rewrite slice0_firstn by exact H. apply firstn_le_length. Qed.

Lemma slice0_all {A} (n : Z) (l : list A) :
  Z.of_nat (List.length l) <= n -> Js.slice0 n l = l.
Proof.
  intros H. rewrite slice0_firstn by lia. apply firstn_all2. lia.
Qed.

Lemma simplSearch_rows (st : Store) (query : string) (limit : Z) :
  simplSearch st query limit
  = map fallback_result
      (Sqlite.limit limit
         (Sqlite.order_by_desc Col.started_at (filter (like_any query) (sessions st)))).
Proof. reflexivity. Qed.

Section SearchResults.
Variable bm25 : Sqlite.phrase -> list FtsEntry -> FtsEntry -> Q.
Variable highlight : Sqlite.phrase -> option string -> option string.


(** ** SearchIndex.search *)

(** X16.  Every result of [SearchIndex.search] is a result of the store's
    [search] for twice the limit that passes the filters: its project path
    holds the one asked for (when one is given and not empty), it started
    within the dates asked for, and it is not archived unless archived
    sessions were asked for; at most [limit] results come back (20 when no
    limit is given). *)
Theorem SearchIndex_search_spec (st : Store) (options : Opt.SearchOptions) :
  let results := SearchIndex_search bm25 highlight st options in
  (forall r, In r results ->
     In r (search bm25 highlight st (Opt.query options) (limit_of options * 2))
     /\ (forall p, Opt.projectPath options = Some p -> p <> EmptyString ->
                   str_includes (Mem.projectPath (session r)) p = true)
     /\ (forall d, Opt.fromDate options = Some d -> d <= Mem.startedAt (session r))
     /\ (forall d, Opt.toDate options = Some d -> Mem.startedAt (session r) <= d)
     /\ (archived_too options = false -> Mem.archived (session r) = false))
  /\ (0 <= limit_of options -> (List.length results <= Z.to_nat (limit_of options))%nat).
Proof.
  cbv zeta. unfold SearchIndex_search. fold (limit_of options) (archived_too options). split.
  - intros r Hr. apply In_slice0 in Hr.
    apply (Permutation_in _ (sort_perm _ _)) in Hr. apply filter_In in Hr as [Hr Hf].
    split; [exact Hr|]. unfold search_filter in Hf.
    destruct (Js.truthy_opt_string (Opt.projectPath options)
              && negb (str_includes (Mem.projectPath (session r))
                         (Js.string_or_empty (Opt.projectPath options)))) eqn:Hp;
      [discriminate|].
    destruct (match Opt.fromDate options with
              | Some fromDate => Mem.startedAt (session r) <? fromDate
              | None => false
              end) eqn:Hfrom; [discriminate|].
    destruct (match Opt.toDate options with
              | Some toDate => toDate <? Mem.startedAt (session r)
              | None => false
              end) eqn:Hto; [discriminate|].
    destruct (negb (archived_too options) && Mem.archived (session r)) eqn:Ha; [discriminate|].
    repeat match goal with |- _ /\ _ => split end.
    + intros p Ep Hne. rewrite Ep in Hp. cbn in Hp.
      destruct p; [congruence|]. cbn in Hp. now apply negb_false_iff in Hp.
    + intros d Ed. rewrite Ed in Hfrom. now apply Z.ltb_ge in Hfrom.
    + intros d Ed. rewrite Ed in Hto. now apply Z.ltb_ge in Hto.
    + intros Hno. rewrite Hno in Ha. exact Ha.
  - apply length_slice0.
Qed.

End SearchResults.

(** ** searchByFile and searchByTag *)

Lemma prefix_refl (s : string) : String.prefix s s = true.
Proof. induction s as [|c s IH]; cbn; [reflexivity|]. now destruct (ascii_dec c c). Qed.

Lemma str_includes_refl (s : string) : str_includes s s = true.
Proof. destruct s; cbn; [reflexivity|]. destruct (ascii_dec _ _); [|congruence]. now rewrite prefix_refl. Qed.

Lemma In_getAll_save (now : Z) (st : Store) (s : SessionMemory) :
  In (stored s) (getAll (save now st s) true)
  /\ (Mem.archived s = false -> In (stored s) (getAll (save now st s) false)).
Proof.
  assert (Hlast : In (row_of_session (next_rowid (sessions st)) now s)
                     (sessions (save now st s))).
  { rewrite sessions_save. apply in_or_app. right. now left. }
  unfold getAll. split.
  - rewrite <- (rowToSession_row_of_session (next_rowid (sessions st)) now s).
    apply in_map. now apply (Permutation_in _ (Permutation_sym (sort_perm _ _))).
  - intros Ha. rewrite <- (rowToSession_row_of_session (next_rowid (sessions st)) now s).
    apply in_map. apply (Permutation_in _ (Permutation_sym (sort_perm _ _))).
    apply filter_In. split; [exact Hlast|]. cbn [row_of_session Col.archived]. now rewrite Ha.
Qed.

Lemma length_getAll_le (st : Store) (b : bool) :
  (List.length (getAll st b) <= List.length (sessions st))%nat.
Proof.
  destruct b; [now rewrite length_getAll_true|].
  rewrite length_getAll_false. apply filter_length_le.
Qed.

Lemma length_sessions_save (now : Z) (st : Store) (s : SessionMemory) :
  (List.length (sessions (save now st s)) <= S (List.length (sessions st)))%nat.
Proof.
  rewrite sessions_save, length_app. cbn [List.length].
  pose proof (filter_length_le (other_id s) (sessions st)). lia.
Qed.

Section ByFileAndTag.
Variable toLowerCase : string -> string.

(** X17.  [searchByFile(path)] returns only sessions, archived ones
    included, with a created, modified or deleted file whose path holds
    [path], newest first; and a session just saved is found by the path of
    any of its files, and by any part of it, when the limit is not below
    the number of stored sessions. *)
Theorem searchByFile_spec (st : Store) (filePath : string) (limit : Z) :
  consistent st ->
  (forall s, In s (searchByFile st filePath limit) ->
     In s (getAll st true)
     /\ exists f, In f (all_files s) /\ str_includes f filePath = true)
  /\ (forall now s f,
        In f (all_files s) -> str_includes f filePath = true ->
        Z.of_nat (List.length (sessions st)) < limit ->
        In (stored s) (searchByFile (save now st s) filePath limit))
  /\ (forall now s f,
        In f (all_files s) ->
        Z.of_nat (List.length (sessions st)) < limit ->
        In (stored s) (searchByFile (save now st s) f limit)).
Proof.
  intros _.
  assert (Hfound : forall path now s f,
             In f (all_files s) -> str_includes f path = true ->
             Z.of_nat (List.length (sessions st)) < limit ->
             In (stored s) (searchByFile (save now st s) path limit)).
  { intros path now s f Hf Hinc Hlimit. unfold searchByFile. rewrite slice0_all.
    + apply filter_In. split; [apply In_getAll_save|].
      apply existsb_exists. exists f. split; [|exact Hinc]. exact Hf.
    + apply Z.le_trans with (Z.of_nat (List.length (getAll (save now st s) true)));
        [apply Nat2Z.inj_le, filter_length_le|].
      pose proof (length_getAll_le (save now st s) true) as H2.
      pose proof (length_sessions_save now st s) as H3. lia. }
  split; [|split].
  - intros s Hs. unfold searchByFile in Hs. apply In_slice0 in Hs.
    apply filter_In in Hs as [Hs Hf]. split; [exact Hs|].
    apply existsb_exists in Hf. exact Hf.
  - intros now s f. apply Hfound.
  - intros now s f Hf. apply (Hfound f now s f Hf), str_includes_refl.
Qed.

(** X18.  [searchByTag(tag)] returns only sessions that are not archived
    and have a tag equal to [tag] up to case; and a session just saved that
    is not archived is found by any of its tags, in any case, when the
    limit is not below the number of stored sessions. *)
Theorem searchByTag_spec (st : Store) (tag : string) (limit : Z) :
  consistent st ->
  (forall s, In s (searchByTag toLowerCase st tag limit) ->
     In s (getAll st false)
     /\ exists t, In t (Mem.tags s) /\ toLowerCase t = toLowerCase tag)
  /\ (forall now s t,
        Mem.archived s = false ->
        In t (Mem.tags s) -> toLowerCase t = toLowerCase tag ->
        Z.of_nat (List.length (sessions st)) < limit ->
        In (stored s) (searchByTag toLowerCase (save now st s) tag limit)).
Proof.
  intros _. split.
  - intros s Hs. unfold searchByTag in Hs. apply In_slice0 in Hs.
    apply filter_In in Hs as [Hs Hf]. split; [exact Hs|].
    apply existsb_exists in Hf as (t & Ht & E). apply String.eqb_eq in E. eauto.
  - intros now s t Ha Ht E Hlimit. unfold searchByTag. rewrite slice0_all.
    + apply filter_In. split; [now apply In_getAll_save|].
      apply existsb_exists. exists t. split; [exact Ht|]. now apply String.eqb_eq.
    + apply Z.le_trans with (Z.of_nat (List.length (getAll (save now st s) false)));
        [apply Nat2Z.inj_le, filter_length_le|].
      pose proof (length_getAll_le (save now st s) false) as H2.
      pose proof (length_sessions_save now st s) as H3. lia.
Qed.

End ByFileAndTag.

(** ** The listings of SearchIndex *)

Lemma getRecent_looked_at (st : Store) (projectPath : option string) (n : nat) :
  Js.truthy_opt_string projectPath = true ->
  getRecent st (Z.of_nat n) projectPath = looked_at st projectPath n.
Proof.
  intros H. unfold looked_at. rewrite H, getRecent_limit. unfold Sqlite.limit.
  destruct (Z.ltb_spec (Z.of_nat n) 0); [lia|]. now rewrite Nat2Z.id.
Qed.

(** X19.  With a project path, [getWithPendingTasks] and [getWithBlockers]
    look at the 100 newest sessions of the project that are not archived and
    [getByDateRange] at the 1000 newest, and without one (or with an empty
    one) at all sessions that are not archived; of those they return, newest
    first, the ones with pending tasks, with blockers, and started within
    the two dates (both included; none when the dates are the wrong way
    round). *)
Theorem listings_spec (st : Store) (projectPath : option string) :
  consistent st ->
  getWithPendingTasks st projectPath
  = filter (fun s => 0 <? Mem.tasksPending s) (looked_at st projectPath 100)
  /\ getWithBlockers st projectPath
     = filter (fun s => negb (Nat.eqb (List.length (Mem.blockers s)) 0))
              (looked_at st projectPath 100)
  /\ (forall fromDate toDate,
        getByDateRange st fromDate toDate projectPath
        = filter (fun s => (fromDate <=? Mem.startedAt s) && (Mem.startedAt s <=? toDate))
                 (looked_at st projectPath 1000)
        /\ (toDate < fromDate -> getByDateRange st fromDate toDate projectPath = []))
  /\ (forall n s, In s (looked_at st projectPath n) ->
        Mem.archived s = false /\ In s (getAll st false)).
Proof.
  intros _.
  assert (H100 : (if Js.truthy_opt_string projectPath then getRecent st 100 projectPath
                  else getAll st false) = looked_at st projectPath 100).
  { destruct (Js.truthy_opt_string projectPath) eqn:E.
    - now rewrite <- (getRecent_looked_at st projectPath 100 E).
    - unfold looked_at. now rewrite E. }
  assert (H1000 : (if Js.truthy_opt_string projectPath then getRecent st 1000 projectPath
                   else getAll st false) = looked_at st projectPath 1000).
  { destruct (Js.truthy_opt_string projectPath) eqn:E.
    - now rewrite <- (getRecent_looked_at st projectPath 1000 E).
    - unfold looked_at. now rewrite E. }
  repeat match goal with |- _ /\ _ => split end.
  - unfold getWithPendingTasks. now rewrite H100.
  - unfold getWithBlockers. rewrite H100. apply filter_ext. intros s.
    now destruct (List.length (Mem.blockers s)).
  - intros fromDate toDate. split.
    + unfold getByDateRange. now rewrite H1000.
    + intros Hwrong. unfold getByDateRange. apply filter_none. intros s _.
      destruct (Z.leb_spec fromDate (Mem.startedAt s)), (Z.leb_spec (Mem.startedAt s) toDate);
        (reflexivity || lia).
  - intros n s H. assert (Hall : forall x, In x (getAll st false) -> Mem.archived x = false).
    { intros x Hs. unfold getAll in Hs. apply in_map_iff in Hs as (r & <- & Hr).
      apply (Permutation_in _ (sort_perm _ _)) in Hr. apply filter_In in Hr as [_ Hr].
      apply Z.eqb_eq in Hr. cbn [rowToSession Mem.archived]. now rewrite Hr. }
    assert (Hin : In s (getAll st false)).
    { unfold looked_at in H. destruct (Js.truthy_opt_string projectPath); [|exact H].
      apply In_firstn in H. now apply filter_In in H. }
    split; [now apply Hall|exact Hin].
Qed.

(** ** CloudSync.sync *)

Lemma getById_save_other (now : Z) (st : Store) (s : SessionMemory) (id : string) :
  id <> Mem.id s -> getById (save now st s) id = getById st id.
Proof.
  intros Hid. unfold getById. rewrite sessions_save, find_app.
  rewrite find_filter_implied.
  - destruct (find (fun r => String.eqb (Col.id r) id) (sessions st)); [reflexivity|].
    cbn [find]. unfold row_of_session at 1. cbn [Col.id].
    apply not_eq_sym, String.eqb_neq in Hid. now rewrite Hid.
  - intros r Hr. apply String.eqb_eq in Hr. unfold other_id. rewrite Hr.
    apply String.eqb_neq in Hid. now rewrite Hid.
Qed.

Lemma marked_synced_twice (clock : Z) (s : SessionMemory) :
  marked_synced clock (marked_synced clock s) = marked_synced clock s.
Proof. reflexivity. Qed.

Lemma all_synced_unsynced (st : Store) : all_synced st -> getUnsyncedSessions st = [].
Proof.
  intros H. unfold getUnsyncedSessions. rewrite (filter_none _ (sessions st)); [reflexivity|].
  intros r Hr. apply Z.eqb_neq. revert r Hr. now apply Forall_forall.
Qed.

Lemma all_synced_save (clock : Z) (st : Store) (s : SessionMemory) :
  all_synced st -> all_synced (save clock st (as_synced clock s)).
Proof.
  intros H. unfold all_synced. rewrite sessions_save. apply Forall_app. split.
  - now apply Forall_filter.
  - constructor; [|constructor]. cbn. discriminate.
Qed.

Section Sync.
Variable enabled : bool.
Variable bucket : option string.
Variable thisDevice : string.
Variable uploadSession : SessionMemory -> bool.
Variable listRemoteSessions : option (list Remote.RemoteSessionInfo).
Variable downloadSession : Remote.RemoteSessionInfo -> option SessionMemory.

(* Step 1 when every upload goes through: what was to be uploaded is
   marked, and counted. *)
Lemma upload_all (clock : Z) (unsynced : list SessionMemory) :
  (forall s, uploadSession s = true) ->
  forall (st : Store) (n : Z),
    (forall r, In r (sessions st) -> Col.synced r = 0 -> In (Col.id r) (map Mem.id unsynced)) ->
    all_synced (fst (upload_unsynced uploadSession clock unsynced st n))
    /\ snd (upload_unsynced uploadSession clock unsynced st n) = n + Z.of_nat (List.length unsynced).
Proof.
  intros Hup. induction unsynced as [|s rest IH]; intros st n Hcover; cbn [upload_unsynced].
  - cbn. split; [|lia]. apply Forall_forall. intros r Hr E. exact (Hcover r Hr E).
  - rewrite Hup. destruct (IH (markSynced clock st (Mem.id s)) (n + 1)) as [I1 I2].
    + intros r1 Hr1 E. unfold markSynced in Hr1. cbn [sql_update fst sessions] in Hr1.
      apply in_map_iff in Hr1 as (r & <- & Hr).
      destruct (String.eqb_spec (Col.id r) (Mem.id s)) as [Hid|Hid]; [discriminate E|].
      destruct (Hcover r Hr E) as [Hs|Hs]; [congruence|exact Hs].
    + split; [exact I1|]. rewrite I2. cbn [List.length]. lia.
Qed.

Lemma download_all_synced (clock : Z) (remoteSessions : list Remote.RemoteSessionInfo) :
  forall (st : Store) (n : Z),
    all_synced st -> all_synced (fst (download_remote thisDevice downloadSession clock remoteSessions st n)).
Proof.
  induction remoteSessions as [|info rest IH]; intros st n H; cbn [download_remote]; [exact H|].
  destruct (String.eqb _ thisDevice); [now apply IH|].
  destruct (getById st _); [now apply IH|].
  destruct (downloadSession info); [|now apply IH].
  apply IH. now apply all_synced_save.
Qed.

(** X20.  When sync is enabled with a bucket and every upload goes
    through, a run leaves no session unsynced, whatever the remote side
    lists and returns, and reports as many uploads as there were unsynced
    sessions. *)
Theorem sync_leaves_nothing_unsynced (clock : Z) (st : Store) :
  enabled = true ->
  Js.truthy_opt_string bucket = true ->
  (forall s, uploadSession s = true) ->
  let result := sync enabled bucket thisDevice uploadSession listRemoteSessions downloadSession
                  clock st in
  getUnsyncedSessions (fst result) = []
  /\ uploaded (snd result) = Z.of_nat (List.length (getUnsyncedSessions st)).
Proof.
  intros He Hb Hup. cbv zeta. unfold sync. rewrite He, Hb. cbn [negb].
  destruct (upload_all clock (getUnsyncedSessions st) Hup st 0) as [U1 U2].
  { intros r Hr E. change (Col.id r) with (Mem.id (rowToSession r)). apply in_map.
    unfold getUnsyncedSessions. apply in_map.
    apply (Permutation_in _ (Permutation_sym (sort_perm _ _))).
    apply filter_In. split; [exact Hr|]. now apply Z.eqb_eq. }
  destruct (upload_unsynced uploadSession clock (getUnsyncedSessions st) st 0) as [st1 up]. cbn [fst snd] in U1, U2.
  destruct listRemoteSessions as [remoteSessions|].
  - pose proof (download_all_synced clock remoteSessions st1 0 U1) as D.
    destruct (download_remote thisDevice downloadSession clock remoteSessions st1 0) as [st2 down]. cbn [fst snd uploaded] in *.
    split; [now apply all_synced_unsynced|lia].
  - cbn [fst snd uploaded]. split; [now apply all_synced_unsynced|lia].
Qed.

(* Step 1 leaves a stored session as it was or marks it synced. *)
Lemma upload_keeps (clock : Z) (unsynced : list SessionMemory) :
  forall (st : Store) (n : Z) (id : string) (s : SessionMemory),
    getById st id = Some s ->
    getById (fst (upload_unsynced uploadSession clock unsynced st n)) id = Some s
    \/ getById (fst (upload_unsynced uploadSession clock unsynced st n)) id = Some (marked_synced clock s).
Proof.
  induction unsynced as [|u rest IH]; intros st n id s H; cbn [upload_unsynced]; [now left|].
  destruct (uploadSession u); [|now apply IH].
  destruct (String.eqb_spec id (Mem.id u)) as [->|Hne].
  - pose proof (getById_markSynced clock st (Mem.id u)) as Hsame.
    rewrite H in Hsame. cbn [option_map] in Hsame.
    destruct (IH _ (n + 1) _ _ Hsame) as [E|E]; right; [exact E|].
    now rewrite marked_synced_twice in E.
  - rewrite <- (getById_markSynced_other clock st (Mem.id u) id Hne) in H. now apply IH.
Qed.

Lemma download_keeps (clock : Z) (remoteSessions : list Remote.RemoteSessionInfo) :
  (forall info s, downloadSession info = Some s -> Mem.id s = Remote.sessionId info) ->
  forall (st : Store) (n : Z) (id : string) (s : SessionMemory),
    getById st id = Some s ->
    getById (fst (download_remote thisDevice downloadSession clock remoteSessions st n)) id = Some s.
Proof.
  intros Hid. induction remoteSessions as [|info rest IH]; intros st n id s H;
    cbn [download_remote]; [exact H|].
  destruct (String.eqb _ thisDevice); [now apply IH|].
  destruct (getById st (Remote.sessionId info)) eqn:L; [now apply IH|].
  destruct (downloadSession info) as [session|] eqn:D; [|now apply IH].
  apply IH. rewrite getById_save_other; [exact H|].
  change (Mem.id (as_synced clock session)) with (Mem.id session).
  rewrite (Hid info session D). intros ->. congruence.
Qed.

(** X21.  When every downloaded session carries the id its remote entry
    is listed under, a run replaces no session that is stored: each is read
    back as it was, or as it was with [synced] and [syncedAt] set. *)
Theorem sync_keeps_local_sessions (clock : Z) (st : Store) (id : string) (s : SessionMemory) :
  (forall info d, downloadSession info = Some d -> Mem.id d = Remote.sessionId info) ->
  getById st id = Some s ->
  let result := sync enabled bucket thisDevice uploadSession listRemoteSessions downloadSession
                  clock st in
  getById (fst result) id = Some s
  \/ getById (fst result) id = Some (marked_synced clock s).
Proof.
  intros Hid H. cbv zeta. unfold sync.
  destruct (negb enabled); [now left|].
  destruct (negb (Js.truthy_opt_string bucket)); [now left|].
  pose proof (upload_keeps clock (getUnsyncedSessions st) st 0 id s H) as U.
  destruct (upload_unsynced uploadSession clock (getUnsyncedSessions st) st 0) as [st1 up]. cbn [fst] in U.
  destruct listRemoteSessions as [remoteSessions|]; [|exact U].
  assert (D : forall x, getById st1 id = Some x ->
                        getById (fst (download_remote thisDevice downloadSession clock remoteSessions st1 0)) id = Some x).
  { intros x Hx. now apply download_keeps. }
  destruct (download_remote thisDevice downloadSession clock remoteSessions st1 0) as [st2 down]. cbn [fst] in *.
  destruct U as [U|U]; [left|right]; now apply D.
Qed.

(* What a run reports. *)
Lemma upload_count (clock : Z) (unsynced : list SessionMemory) :
  forall (st : Store) (n : Z),
    n <= snd (upload_unsynced uploadSession clock unsynced st n) <= n + Z.of_nat (List.length unsynced).
Proof.
  induction unsynced as [|u rest IH]; intros st n; cbn [upload_unsynced].
  - cbn. lia.
  - destruct (uploadSession u).
    + pose proof (IH (markSynced clock st (Mem.id u)) (n + 1)). cbn [List.length]. lia.
    + pose proof (IH st n). cbn [List.length]. lia.
Qed.

Lemma download_count (clock : Z) (remoteSessions : list Remote.RemoteSessionInfo) :
  forall (st : Store) (n : Z),
    n <= snd (download_remote thisDevice downloadSession clock remoteSessions st n)
    <= n + Z.of_nat (List.length
                       (filter (fun info => negb (String.eqb (Remote.deviceId info) thisDevice))
                               remoteSessions)).
Proof.
  induction remoteSessions as [|info rest IH]; intros st n; cbn [download_remote filter].
  - cbn. lia.
  - destruct (String.eqb _ thisDevice); cbn [negb]; [apply IH|].
    cbn [List.length].
    destruct (getById st _); [pose proof (IH st n); lia|].
    destruct (downloadSession info) as [session|]; [|pose proof (IH st n); lia].
    pose proof (IH (save clock st (as_synced clock session)) (n + 1)). lia.
Qed.

(** X22.  A run with sync disabled or without a bucket changes nothing
    and reports nothing.  Any run reports no conflict, at most as many
    uploads as there were unsynced sessions, and at most as many downloads
    as the remote side lists entries of other devices (none when the listing
    fails). *)
Theorem sync_report (clock : Z) (st : Store) :
  let result := sync enabled bucket thisDevice uploadSession listRemoteSessions downloadSession
                  clock st in
  (enabled = false \/ Js.truthy_opt_string bucket = false ->
   result = (st, {| uploaded := 0; downloaded := 0; conflicts := 0 |}))
  /\ conflicts (snd result) = 0
  /\ 0 <= uploaded (snd result) <= Z.of_nat (List.length (getUnsyncedSessions st))
  /\ 0 <= downloaded (snd result)
     <= match listRemoteSessions with
        | Some remoteSessions =>
            Z.of_nat (List.length
                        (filter (fun info =>
                                   negb (String.eqb (Remote.deviceId info) thisDevice))
                                remoteSessions))
        | None => 0
        end.
Proof.
  cbv zeta.
  split.
  { intros [H|H]; unfold sync; rewrite H; [reflexivity|]. now destruct enabled. }
  unfold sync. destruct (negb enabled).
  { cbn. repeat split; try lia. destruct listRemoteSessions; lia. }
  destruct (negb (Js.truthy_opt_string bucket)).
  { cbn. repeat split; try lia. destruct listRemoteSessions; lia. }
  pose proof (upload_count clock (getUnsyncedSessions st) st 0) as U.
  destruct (upload_unsynced uploadSession clock (getUnsyncedSessions st) st 0) as [st1 up]. cbn [snd] in U.
  destruct listRemoteSessions as [remoteSessions|].
  - pose proof (download_count clock remoteSessions st1 0) as D.
    destruct (download_remote thisDevice downloadSession clock remoteSessions st1 0) as [st2 down].
    cbn [snd uploaded downloaded conflicts] in *. repeat split; lia.
  - cbn [snd uploaded downloaded conflicts]. repeat split; lia.
Qed.

End Sync.

(** ** save, as the listings see it *)

Lemma Permutation_filter {A} (p : A -> bool) (l l' : list A) :
  Permutation l l' -> Permutation (filter p l) (filter p l').
Proof.
  induction 1 as [|x l l' H IH|x y l|l l' l'' H1 IH1 H2 IH2]; cbn.
  - constructor.
  - destruct (p x); [now constructor|exact IH].
  - destruct (p x), (p y); (apply perm_swap || reflexivity).
  - now transitivity (filter p l').
Qed.

(** X23.  After [save(s)], [getAll(true)] lists the session as stored,
    and next to it the sessions it listed before under other ids: a save
    adds one session or replaces the one that had the id, and no other. *)
Theorem save_listing (now : Z) (st : Store) (s : SessionMemory) :
  Permutation (getAll (save now st s) true)
    (stored s :: filter (fun x => negb (String.eqb (Mem.id x) (Mem.id s))) (getAll st true))
  /\ Z.of_nat (List.length (getAll (save now st s) true))
     = 1 + Z.of_nat (List.length (getAll st true))
       - count (fun r => String.eqb (Col.id r) (Mem.id s)) (sessions st).
Proof.
  assert (P : Permutation (getAll (save now st s) true)
                (stored s
                 :: filter (fun x => negb (String.eqb (Mem.id x) (Mem.id s))) (getAll st true))).
  { unfold getAll, Sqlite.order_by_desc.
    rewrite (Permutation_map rowToSession (sort_perm _ (sessions (save now st s)))).
    rewrite sessions_save, map_app. cbn [map]. rewrite rowToSession_row_of_session.
    rewrite <- Permutation_cons_append. constructor.
    rewrite (Permutation_filter _ _ _ (Permutation_map rowToSession (sort_perm _ (sessions st)))).
    rewrite filter_map_comm. reflexivity. }
  split; [exact P|].
  rewrite (Permutation_length P). cbn [List.length]. rewrite !length_getAll_true.
  unfold getAll, Sqlite.order_by_desc. rewrite filter_map_comm, length_map.
  rewrite (Permutation_length (Permutation_filter _ _ _ (sort_perm _ (sessions st)))).
  unfold count. cbn [rowToSession Mem.id].
  pose proof (length_filter_split (fun r => String.eqb (Col.id r) (Mem.id s)) (sessions st))
    as H.
  match goal with
  | |- Z.of_nat (S (List.length ?others)) = _ - Z.of_nat (List.length ?same) =>
      assert (H' : List.length (sessions st)
                   = Nat.add (List.length same) (List.length others)) by exact H
  end.
  lia.
Qed.

(** ** getStats on the stores the operations produce *)

Section StatsAddUp.
Variable Blob : Type.
Variable blob_size : Blob -> Z.
Variable homedir : string.

(** X24.  On a consistent store the counts of [getStats] add up, total =
    active + archived, and the oldest session is not newer than the newest. *)
Theorem getStats_counts_add_up (fs : list (string * Blob)) (st : Store) :
  consistent st ->
  let stats := getStats blob_size homedir fs st in
  totalSessions stats = activeSessions stats + archivedSessions stats
  /\ (forall a b, oldestSession stats = Some a -> newestSession stats = Some b -> a <= b).
Proof.
  intros [_ Hok]. cbv zeta. cbn [getStats totalSessions activeSessions archivedSessions
                                  oldestSession newestSession]. split.
  - unfold count. rewrite <- Nat2Z.inj_add. f_equal.
    eapply eq_trans; [apply (length_filter_split (fun r : Row => Col.archived r =? 0))|].
    do 2 f_equal. apply (filter_ext_Forall row_ok); [exact Hok|].
    intros r Hr. rewrite (archived_flags r Hr). apply negb_involutive.
  - intros a b Ha Hb.
    pose proof (sql_min_spec (map Col.started_at (sessions st))) as Hmin.
    pose proof (sql_max_spec (map Col.started_at (sessions st))) as Hmax.
    destruct (sql_min _) as [m|]; [|discriminate Ha].
    destruct (sql_max _) as [M|]; [|discriminate Hb].
    assert (a = m) by (unfold Js.or_null_number in Ha; destruct (Js.truthy_opt_number _); congruence).
    assert (b = M) by (unfold Js.or_null_number in Hb; destruct (Js.truthy_opt_number _); congruence).
    subst. destruct Hmin as [Hin _], Hmax as [_ Hall].
    apply (proj1 (Forall_forall _ _) Hall m Hin).
Qed.

End StatsAddUp.

(** ** runCleanup: what the retention periods guarantee *)

Section Retention.
Variable Blob : Type.
Variable blob_size : Blob -> Z.
Variable gzipSync : Blob -> Blob.
Variable homedir : string.

(* Step 2 keeps what holds of every row and does not depend on the
   archive path. *)
Lemma compress_archived_rows (P : Row -> Prop) (clock : Z)
    (archivedSessions : list SessionMemory) :
  (forall r lfa u,
     P r -> P (Col.update r (Col.archived r) (Col.archived_at r) (Col.synced r)
                 (Col.synced_at r) lfa u)) ->
  forall (w : World Blob) (n : Z),
    Forall P (sessions (store w)) ->
    Forall P (sessions (store (fst (compress_archived gzipSync homedir clock
                                      archivedSessions w n)))).
Proof.
  intros HP. induction archivedSessions as [|session rest IH]; intros w n H;
    cbn [compress_archived]; [exact H|].
  destruct (Js.truthy_string (Mem.logFile session)
            && negb (Js.truthy_opt_string (Mem.logFileArchived session))); [|now apply IH].
  assert (K : Forall P (sessions (store (fst (compressLogFile gzipSync homedir clock w session))))).
  { unfold compressLogFile.
    destruct (negb _ || negb _); [exact H|].
    destruct (readFileSync _ _); [|exact H].
    cbn [fst store]. unfold updateArchivePath. cbn [sql_update fst sessions].
    apply Forall_update; [|exact H]. intros r Hr. now apply HP. }
  destruct (compressLogFile gzipSync homedir clock w session) as [w1 archived].
  cbn [fst] in K. now apply IH.
Qed.

Lemma trimToStorageLimit_incl (w : World Blob) (maxBytes : Z) (r : Row) :
  In r (sessions (store (fst (trimToStorageLimit blob_size homedir w maxBytes)))) ->
  In r (sessions (store w)).
Proof.
  unfold trimToStorageLimit.
  match goal with
  | |- context [trim_loop _ _ _ ?l w _ ?res] =>
      destruct (trim_loop_post _ blob_size homedir maxBytes l w res) as [Hincl _]
  end.
  apply Hincl.
Qed.

(** X25.  After [runCleanup] at time [clock]: when the period for full
    sessions is finite, no session that is not archived started before
    [clock] minus that period; when the period for archives is finite, no
    session at all started before [clock] minus that period. *)
Theorem runCleanup_retention (clock : Z) (config : RetentionConfig) (w : World Blob) :
  let w' := fst (runCleanup blob_size gzipSync homedir clock config w) in
  (forall days, parseDays (fullSessions config) = Finite days ->
     forall s, In s (getAll (store w') false) -> clock - days * ms_per_day <= Mem.startedAt s)
  /\ (forall days, parseDays (archives config) = Finite days ->
        forall s, In s (getAll (store w') true) -> clock - days * ms_per_day <= Mem.startedAt s).
Proof.
  cbv zeta.
  set (young := fun days (r : Row) => clock - days * ms_per_day <= Col.started_at r).
  assert (Hrows :
    (forall days, parseDays (fullSessions config) = Finite days ->
       Forall (fun r => Col.archived r = 0 -> young days r)
              (sessions (store (fst (runCleanup blob_size gzipSync homedir clock config w)))))
    /\ (forall days, parseDays (archives config) = Finite days ->
          Forall (young days)
                 (sessions (store (fst (runCleanup blob_size gzipSync homedir clock config w)))))).
  { unfold runCleanup.
    set (step1 := match parseDays (fullSessions config) with
                  | Finite days => archiveOld clock clock (store w) days
                  | Infinity => (store w, 0)
                  end).
    assert (H1 : forall days, parseDays (fullSessions config) = Finite days ->
                   Forall (fun r => Col.archived r = 0 -> young days r) (sessions (fst step1))).
    { intros days E. subst step1. rewrite E. unfold archiveOld. cbn [sql_update fst sessions].
      apply Forall_map, Forall_forall. intros r _.
      destruct (Z.ltb_spec (Col.started_at r) (clock - days * ms_per_day)) as [Hlt|Hge];
        cbn [andb].
      - destruct (Col.archived r =? 0) eqn:A; [cbn; discriminate|].
        intros A'. rewrite A' in A. discriminate.
      - intros _. exact Hge. }
    destruct step1 as [st1 archivedCount]. cbn [fst] in H1.
    pose proof (fun P HP => compress_archived_rows P clock (getArchived st1) HP
                              {| store := st1; files := files w |} 0) as H2.
    destruct (compress_archived gzipSync homedir clock (getArchived st1) _ 0) as [w2 backedUp].
    cbn [fst store] in H2.
    set (step3 := match parseDays (archives config) with
                  | Finite days =>
                      let beforeCount := totalSessions (getStats blob_size homedir (files w2) (store w2)) in
                      let '(st', n) := deleteOld clock (store w2) days in
                      let afterCount := totalSessions (getStats blob_size homedir (files w2) st') in
                      (st', n, if 0 <? n then (beforeCount - afterCount) * 5000 else 0)
                  | Infinity => (store w2, 0, 0)
                  end).
    assert (H3 : (forall r, In r (sessions (fst (fst step3))) -> In r (sessions (store w2)))
                 /\ forall days, parseDays (archives config) = Finite days ->
                                 Forall (young days) (sessions (fst (fst step3)))).
    { subst step3. destruct (parseDays (archives config)) as [days|].
      - pose proof (sessions_deleteOld clock (store w2) days) as D.
        destruct (deleteOld clock (store w2) days) as [st' n]. cbn [fst] in *. split.
        + intros r Hr. rewrite D in Hr. now apply filter_In in Hr.
        + intros days' [= <-]. rewrite D. apply Forall_forall. intros r Hr.
          apply filter_In in Hr as [_ Hr]. now apply Z.leb_le in Hr.
      - cbn [fst]. split; [auto|discriminate]. }
    destruct step3 as [[st3 deletedCount] freed]. cbn [fst] in H3. destruct H3 as [H3 H3'].
    cbn [store files].
    match goal with
    | |- context [sessions (store (fst ?final))] =>
        assert (Hfinal : forall r, In r (sessions (store (fst final))) -> In r (sessions st3))
    end.
    { destruct (_ <? _); [|auto].
      pose proof (trimToStorageLimit_incl {| store := st3; files := files w2 |}
                    (maxStorageGb config * 1000000000)) as T.
      destruct (trimToStorageLimit _ _ _ _) as [w4 trimReport]. exact T. }
    split.
    - intros days E. apply Forall_forall. intros r Hr. apply Hfinal, H3 in Hr. revert r Hr.
      apply (proj1 (Forall_forall (fun r => Col.archived r = 0 -> young days r) _)).
      apply H2; [|now apply H1]. intros r lfa u Hr. exact Hr.
    - intros days E. apply Forall_forall. intros r Hr. apply Hfinal in Hr.
      apply (proj1 (Forall_forall _ _) (H3' days E) r Hr). }
  destruct Hrows as [Hfull Harch]. split.
  - intros days E s Hs. unfold getAll in Hs. apply in_map_iff in Hs as (r & <- & Hr).
    apply (Permutation_in _ (sort_perm _ _)) in Hr. apply filter_In in Hr as [Hr Ha].
    apply Z.eqb_eq in Ha. apply (proj1 (Forall_forall _ _) (Hfull days E) r Hr Ha).
  - intros days E s Hs. unfold getAll in Hs. apply in_map_iff in Hs as (r & <- & Hr).
    apply (Permutation_in _ (sort_perm _ _)) in Hr.
    apply (proj1 (Forall_forall _ _) (Harch days E) r Hr).
Qed.

End Retention.

(** ** The theorems with hypotheses, at concrete stores *)

Lemma consistent_oneRecord : consistent oneRecord.
Proof. apply consistent_save, consistent_new. Qed.

Lemma save_then_delete_witness :
  getById emptyStore (Mem.id authSession) = None
  /\ (snd (delete (save jan12 emptyStore authSession) (Mem.id authSession)) = true
      /\ sessions (fst (delete (save jan12 emptyStore authSession) (Mem.id authSession)))
         = sessions emptyStore
      /\ same_observations bytes_size home flat_bm25 plain_highlight
           (fst (delete (save jan12 emptyStore authSession) (Mem.id authSession)))
           emptyStore).
Proof.
  split; [reflexivity|].
  apply (save_then_delete Bytes bytes_size home flat_bm25 plain_highlight
           jan12 emptyStore authSession).
  reflexivity.
Defined.


Lemma runCleanup_keeps_records_witness :
  archives defaultRetention = "forever"%string
  /\ storageUsedBytes (getStats bytes_size home (files crowded) (store crowded))
     <= maxStorageGb defaultRetention * 1000000000
  /\ (map Col.id
        (sessions (store (fst (runCleanup bytes_size pack home (jan12 + ms_per_day)
                                 defaultRetention crowded))))
      = map Col.id (sessions (store crowded))
      /\ (forall p, existsSync (files crowded) p = true ->
                    existsSync
                      (files (fst (runCleanup bytes_size pack home (jan12 + ms_per_day)
                                     defaultRetention crowded))) p = true)
      /\ sessionsDeleted (snd (runCleanup bytes_size pack home (jan12 + ms_per_day)
                                 defaultRetention crowded)) = 0
      /\ bytesFreed (snd (runCleanup bytes_size pack home (jan12 + ms_per_day)
                            defaultRetention crowded)) = 0).
Proof.
  assert (H1 : archives defaultRetention = "forever"%string) by reflexivity.
  assert (H2 : storageUsedBytes (getStats bytes_size home (files crowded) (store crowded))
               <= maxStorageGb defaultRetention * 1000000000)
    by (vm_compute; discriminate).
  split; [exact H1|]. split; [exact H2|].
  exact (runCleanup_keeps_records Bytes bytes_size pack home (jan12 + ms_per_day)
           defaultRetention crowded H1 H2).
Defined.

Lemma trimToStorageLimit_oldest_first_witness :
  NoDup (map Col.id (sessions (store crowded)))
  /\ ((forall r r',
         In r (sessions (store crowded)) ->
         ~ In r (sessions (store (fst (trimToStorageLimit bytes_size home crowded
                                         10000000000)))) ->
         In r' (sessions (store (fst (trimToStorageLimit bytes_size home crowded
                                        10000000000)))) ->
         Col.started_at r <= Col.started_at r')
      /\ (forall r,
            In r (sessions (store (fst (trimToStorageLimit bytes_size home crowded
                                          10000000000)))) ->
            In r (sessions (store crowded)))
      /\ deleted (snd (trimToStorageLimit bytes_size home crowded 10000000000))
         = Z.of_nat (List.length (sessions (store crowded)))
           - Z.of_nat (List.length
                         (sessions (store (fst (trimToStorageLimit bytes_size home crowded
                                                  10000000000)))))
      /\ (calculateStorageUsed bytes_size home crowded <= 10000000000 ->
          trimToStorageLimit bytes_size home crowded 10000000000
          = (crowded, {| deleted := 0; trimFreed := 0 |}))).
Proof.
  assert (H : NoDup (map Col.id (sessions (store crowded)))).
  { cbn. constructor; [intros []|constructor]. }
  split; [exact H|].
  exact (trimToStorageLimit_oldest_first Bytes bytes_size home crowded 10000000000 H).
Defined.

Lemma searchByFile_spec_witness :
  consistent oneRecord
  /\ ((forall s, In s (searchByFile oneRecord "file1" 20) ->
         In s (getAll oneRecord true)
         /\ exists f, In f (all_files s) /\ str_includes f "file1" = true)
      /\ (forall now s f,
            In f (all_files s) -> str_includes f "file1" = true ->
            Z.of_nat (List.length (sessions oneRecord)) < 20 ->
            In (stored s) (searchByFile (save now oneRecord s) "file1" 20))
      /\ (forall now s f,
            In f (all_files s) ->
            Z.of_nat (List.length (sessions oneRecord)) < 20 ->
            In (stored s) (searchByFile (save now oneRecord s) f 20))).
Proof.
  split; [exact consistent_oneRecord|].
  exact (searchByFile_spec oneRecord "file1" 20 consistent_oneRecord).
Defined.

Lemma searchByTag_spec_witness :
  consistent oneRecord
  /\ ((forall s, In s (searchByTag (fun t => t) oneRecord "test" 20) ->
         In s (getAll oneRecord false)
         /\ exists t, In t (Mem.tags s) /\ t = "test"%string)
      /\ (forall now s t,
            Mem.archived s = false ->
            In t (Mem.tags s) -> t = "test"%string ->
            Z.of_nat (List.length (sessions oneRecord)) < 20 ->
            In (stored s) (searchByTag (fun t => t) (save now oneRecord s) "test" 20))).
Proof.
  split; [exact consistent_oneRecord|].
  exact (searchByTag_spec (fun t => t) oneRecord "test" 20 consistent_oneRecord).
Defined.

Lemma listings_spec_witness :
  consistent oneRecord
  /\ (getWithPendingTasks oneRecord (Some "/test/project"%string)
      = filter (fun s => 0 <? Mem.tasksPending s)
               (looked_at oneRecord (Some "/test/project"%string) 100)
      /\ getWithBlockers oneRecord (Some "/test/project"%string)
         = filter (fun s => negb (Nat.eqb (List.length (Mem.blockers s)) 0))
                  (looked_at oneRecord (Some "/test/project"%string) 100)
      /\ (forall fromDate toDate,
            getByDateRange oneRecord fromDate toDate (Some "/test/project"%string)
            = filter (fun s => (fromDate <=? Mem.startedAt s) && (Mem.startedAt s <=? toDate))
                     (looked_at oneRecord (Some "/test/project"%string) 1000)
            /\ (toDate < fromDate ->
                getByDateRange oneRecord fromDate toDate (Some "/test/project"%string) = []))
      /\ (forall n s, In s (looked_at oneRecord (Some "/test/project"%string) n) ->
            Mem.archived s = false /\ In s (getAll oneRecord false))).
Proof.
  split; [exact consistent_oneRecord|].
  exact (listings_spec oneRecord (Some "/test/project"%string) consistent_oneRecord).
Defined.

Lemma sync_leaves_nothing_unsynced_witness :
  true = true
  /\ Js.truthy_opt_string (Some "sessions-bucket"%string) = true
  /\ (forall s : SessionMemory, (fun _ : SessionMemory => true) s = true)
  /\ (getUnsyncedSessions
        (fst (sync true (Some "sessions-bucket"%string) "device-a"
                (fun _ => true) (Some otherDevice) fetch jan12 oneRecord)) = []
      /\ uploaded
           (snd (sync true (Some "sessions-bucket"%string) "device-a"
                   (fun _ => true) (Some otherDevice) fetch jan12 oneRecord))
         = Z.of_nat (List.length (getUnsyncedSessions oneRecord))).
Proof.
  split; [reflexivity|]. split; [reflexivity|]. split; [reflexivity|].
  apply (sync_leaves_nothing_unsynced true (Some "sessions-bucket"%string) "device-a"
           (fun _ => true) (Some otherDevice) fetch jan12 oneRecord); reflexivity.
Defined.

Lemma sync_keeps_local_sessions_witness :
  (forall info d, fetch info = Some d -> Mem.id d = Remote.sessionId info)
  /\ getById oneRecord "test_1" = Some (stored authSession)
  /\ (getById
        (fst (sync true (Some "sessions-bucket"%string) "device-a"
                (fun _ => false) (Some otherDevice) fetch jan12 oneRecord)) "test_1"
      = Some (stored authSession)
      \/ getById
           (fst (sync true (Some "sessions-bucket"%string) "device-a"
                   (fun _ => false) (Some otherDevice) fetch jan12 oneRecord)) "test_1"
         = Some (marked_synced jan12 (stored authSession))).
Proof.
  assert (H1 : forall info d, fetch info = Some d -> Mem.id d = Remote.sessionId info).
  { intros info d H. injection H as <-. reflexivity. }
  assert (H2 : getById oneRecord "test_1" = Some (stored authSession)) by reflexivity.
  split; [exact H1|]. split; [exact H2|].
  exact (sync_keeps_local_sessions true (Some "sessions-bucket"%string) "device-a"
           (fun _ => false) (Some otherDevice) fetch jan12 oneRecord "test_1"
           (stored authSession) H1 H2).
Defined.

Lemma getStats_counts_add_up_witness :
  consistent oneRecord
  /\ (totalSessions (getStats bytes_size home [] oneRecord)
      = activeSessions (getStats bytes_size home [] oneRecord)
        + archivedSessions (getStats bytes_size home [] oneRecord)
      /\ (forall a b,
            oldestSession (getStats bytes_size home [] oneRecord) = Some a ->
            newestSession (getStats bytes_size home [] oneRecord) = Some b -> a <= b)).
Proof.
  split; [exact consistent_oneRecord|].
  exact (getStats_counts_add_up Bytes bytes_size home [] oneRecord consistent_oneRecord).
Defined.

(** ** search after save: a word of the summary *)

Lemma alnum_plain (c : ascii) :
  alnum c = true ->
  Sqlite.is_token_char c = true
  /\ Ascii.eqb c Ascii.zero = false
  /\ Ascii.eqb c "%"%char = false
  /\ Ascii.eqb c JSON.dquote = false
  /\ Ascii.eqb c "'"%char = false.
Proof.
  destruct c as [b0 b1 b2 b3 b4 b5 b6 b7].
  destruct b0, b1, b2, b3, b4, b5, b6, b7; intros H;
    solve [discriminate H | repeat split; reflexivity].
Qed.

Lemma word_chars (w : list ascii) (P : ascii -> Prop) :
  forallb alnum w = true -> (forall c, alnum c = true -> P c) -> Forall P w.
Proof.
  intros Hw HP. apply Forall_forall. intros c Hc. apply HP.
  apply (proj1 (forallb_forall _ _) Hw c Hc).
Qed.

(** The tokenizer on a word, before a word, and after the start of one. *)
Lemma tokens_from_word (w : list ascii) :
  Forall (fun c => Sqlite.is_token_char c = true) w ->
  forall cur rest,
    Sqlite.tokens_from cur (w ++ rest)
    = Sqlite.tokens_from (rev (map Sqlite.to_lower w) ++ cur) rest.
Proof.
  induction 1 as [|c w Hc Hw IH]; intros cur rest; [reflexivity|].
  cbn [app Sqlite.tokens_from map rev]. rewrite Hc, IH, <- app_assoc. reflexivity.
Qed.

Lemma tokens_from_started (rest : list ascii) :
  forall cur, cur <> [] ->
    exists ext more, Sqlite.tokens_from cur rest = (rev cur ++ ext) :: more.
Proof.
  induction rest as [|c rest IH]; intros cur Hcur; cbn [Sqlite.tokens_from].
  - exists [], []. rewrite app_nil_r. now destruct cur.
  - destruct (Sqlite.is_token_char c).
    + destruct (IH (Sqlite.to_lower c :: cur)) as (ext & more & E); [discriminate|].
      exists (Sqlite.to_lower c :: ext), more. rewrite E. cbn [rev].
      now rewrite <- app_assoc.
    + exists [], (Sqlite.tokens_from [] rest). rewrite app_nil_r. now destruct cur.
Qed.

Lemma tokens_from_break (before : list ascii) (c : ascii) :
  Sqlite.is_token_char c = false ->
  forall cur, exists front,
    forall rest,
      Sqlite.tokens_from cur ((before ++ [c]) ++ rest) = front ++ Sqlite.tokens_from [] rest.
Proof.
  intros Hc. induction before as [|d before IH]; intros cur.
  - destruct cur as [|x cur].
    + exists []. intros rest. cbn. now rewrite Hc.
    + exists [rev (x :: cur)]. intros rest. cbn [app Sqlite.tokens_from]. now rewrite Hc.
  - cbn [app Sqlite.tokens_from]. destruct (Sqlite.is_token_char d).
    + apply IH.
    + destruct cur as [|x cur]; [apply IH|].
      destruct (IH []) as (front & E). exists (rev (x :: cur) :: front).
      intros rest. now rewrite E.
Qed.

Lemma is_prefix_app (t ext : Sqlite.token) : Sqlite.is_prefix t (t ++ ext) = true.
Proof. induction t as [|c t IH]; cbn; [reflexivity|]. now rewrite Ascii.eqb_refl. Qed.

Lemma phrase_in_later (t d : Sqlite.token) (front more : list Sqlite.token) :
  Sqlite.is_prefix t d = true ->
  Sqlite.phrase_in [t] true (front ++ d :: more) = true.
Proof.
  intros H. induction front as [|x front IH]; cbn [app Sqlite.phrase_in Sqlite.phrase_at].
  - now rewrite H.
  - rewrite IH. apply orb_true_r.
Qed.

(* A text that holds [w] at the start of a word has a token that starts
   with [w] in lower case. *)
Lemma starts_a_word_indexed (w : list ascii) (text : string) :
  word w -> starts_a_word w text ->
  Sqlite.phrase_in [map Sqlite.to_lower w] true (Sqlite.tokenize text) = true.
Proof.
  intros [Hne Hw] (before & after & E & _ & Hstart). unfold Sqlite.tokenize. rewrite E.
  assert (Htok : Forall (fun c => Sqlite.is_token_char c = true) w).
  { apply (word_chars w _ Hw). intros c Hc. apply (alnum_plain c Hc). }
  assert (Hword : exists ext more,
             Sqlite.tokens_from [] (w ++ after) = (map Sqlite.to_lower w ++ ext) :: more).
  { rewrite tokens_from_word by exact Htok. rewrite app_nil_r.
    destruct (tokens_from_started after (rev (map Sqlite.to_lower w))) as (ext & more & T).
    - destruct w; [congruence|]. cbn. now destruct (rev _).
    - exists ext, more. now rewrite T, rev_involutive. }
  destruct Hword as (ext & more & T).
  destruct Hstart as [->|(before' & c & -> & Hc)].
  - cbn [app]. rewrite T. apply (phrase_in_later _ _ []), is_prefix_app.
  - destruct (tokens_from_break before' c Hc []) as (front & B).
    rewrite B, T. apply phrase_in_later, is_prefix_app.
Qed.

(** LIKE on a pattern [%w%]. *)
Lemma like_percent (pattern text : list ascii) :
  Sqlite.like_match ("%"%char :: pattern) text
  = Sqlite.like_match pattern text
    || match text with
       | [] => false
       | _ :: text' => Sqlite.like_match ("%"%char :: pattern) text'
       end.
Proof. destruct text; reflexivity. Qed.

Lemma like_percent_end (text : list ascii) : Sqlite.like_match ["%"%char] text = true.
Proof.
  induction text as [|c text IH]; rewrite like_percent; [reflexivity|].
  rewrite IH. apply orb_true_r.
Qed.

Lemma like_percent_skip (pattern before text : list ascii) :
  Sqlite.like_match pattern text = true ->
  Sqlite.like_match ("%"%char :: pattern) (before ++ text) = true.
Proof.
  intros H. induction before as [|c before IH]; rewrite like_percent; cbn [app].
  - now rewrite H.
  - rewrite IH. apply orb_true_r.
Qed.

Lemma like_same_chars (w pattern text : list ascii) :
  Forall (fun c => Ascii.eqb c "%"%char = false) w ->
  Sqlite.like_match (w ++ pattern) (w ++ text) = Sqlite.like_match pattern text.
Proof.
  induction 1 as [|c w Hc Hw IH]; [reflexivity|]. cbn [app Sqlite.like_match].
  now rewrite Hc, Ascii.eqb_refl, orb_true_r, IH.
Qed.

Lemma c_str_app (a b : list ascii) :
  forallb (fun c => negb (Ascii.eqb c Ascii.zero)) a = true ->
  Sqlite.c_str (a ++ b) = a ++ Sqlite.c_str b.
Proof.
  induction a as [|c a IH]; cbn; [reflexivity|]. intros H.
  apply andb_true_iff in H as [Hc Ha]. apply negb_true_iff in Hc. now rewrite Hc, IH.
Qed.

Lemma chars_of_chars (w : list ascii) : Sqlite.chars (of_chars w) = w.
Proof. apply list_ascii_of_string_of_list_ascii. Qed.

Lemma starts_a_word_like (w : list ascii) (text : string) :
  word w -> starts_a_word w text ->
  Sqlite.like (Some text) ("%" ++ of_chars w ++ "%") = true.
Proof.
  intros [Hne Hw] (before & after & E & Hnul & _). unfold Sqlite.like.
  assert (Hplain : forallb (fun c => negb (Ascii.eqb c Ascii.zero)) w = true).
  { apply forallb_forall. intros c Hc.
    pose proof (proj1 (forallb_forall _ _) Hw c Hc) as A.
    destruct (alnum_plain c A) as (_ & Z & _). now rewrite Z. }
  change (Sqlite.chars ("%" ++ of_chars w ++ "%"))
    with ("%"%char :: Sqlite.chars (of_chars w ++ "%")).
  rewrite chars_append, chars_of_chars, E.
  change (Sqlite.c_str ("%"%char :: w ++ Sqlite.chars "%"))
    with ("%"%char :: Sqlite.c_str (w ++ ["%"%char])).
  rewrite (c_str_app w) by exact Hplain. rewrite (c_str_app before) by exact Hnul.
  rewrite (c_str_app w) by exact Hplain.
  apply like_percent_skip. rewrite like_same_chars; [apply like_percent_end|].
  apply (word_chars w _ Hw). intros c Hc. apply (alnum_plain c Hc).
Qed.

(** The query the store makes of a word. *)
Lemma fts5_parse_word (w : list ascii) :
  word w ->
  Sqlite.fts5_parse (match_expr (of_chars w))
  = Some {| Sqlite.terms := [map Sqlite.to_lower w]; Sqlite.prefix_query := true |}.
Proof.
  intros [Hne Hw].
  assert (Hstrip : strip_quotes (of_chars w) = of_chars w).
  { unfold strip_quotes, of_chars. rewrite list_ascii_of_string_of_list_ascii.
    rewrite filter_all; [reflexivity|]. intros c Hc.
    pose proof (proj1 (forallb_forall _ _) Hw c Hc) as A.
    destruct (alnum_plain c A) as (_ & _ & _ & Q1 & Q2). now rewrite Q1, Q2. }
  unfold Sqlite.fts5_parse, match_expr. rewrite Hstrip.
  change (Sqlite.chars (String JSON.dquote ?s)) with (JSON.dquote :: Sqlite.chars s).
  rewrite chars_append, chars_of_chars.
  change (Sqlite.chars (String JSON.dquote "*")) with [JSON.dquote; "*"%char].
  change (Sqlite.c_str (JSON.dquote :: w ++ [JSON.dquote; "*"%char]))
    with (JSON.dquote :: Sqlite.c_str (w ++ [JSON.dquote; "*"%char])).
  change (JSON.skip_ws (JSON.dquote :: ?t)) with (JSON.dquote :: t).
  cbv iota. change (Ascii.eqb JSON.dquote JSON.dquote) with true. cbv iota.
  rewrite fts5_string_body.
  2:{ apply (word_chars w _ Hw). intros c Hc. apply (alnum_plain c Hc). }
  assert (Hnul : existsb (Ascii.eqb Ascii.zero) w = false).
  { destruct (existsb _ w) eqn:X; [|reflexivity].
    apply existsb_exists in X as (c & Hc & Z). apply Ascii.eqb_eq in Z. subst c.
    pose proof (proj1 (forallb_forall _ _) Hw _ Hc) as A. discriminate A. }
  assert (T : Sqlite.tokens_from [] w = [map Sqlite.to_lower w]).
  { rewrite <- (app_nil_r w) at 1.
    rewrite tokens_from_word
      by (apply (word_chars w _ Hw); intros c Hc; apply (alnum_plain c Hc)).
    rewrite app_nil_r. cbn [Sqlite.tokens_from].
    destruct (rev (map Sqlite.to_lower w)) eqn:R.
    - apply (f_equal (@rev ascii)) in R. rewrite rev_involutive in R.
      destruct w; [congruence|discriminate R].
    - now rewrite <- R, rev_involutive. }
  rewrite Hnul. cbv zeta. rewrite T. reflexivity.
Qed.

Section WordSearch.
Variable bm25 : Sqlite.phrase -> list FtsEntry -> FtsEntry -> Q.
Variable highlight : Sqlite.phrase -> option string -> option string.

(** X27.  After [save(s)], a search for a word (ASCII letters and digits,
    spelled as the text has it) that the summary, the description or the
    last user message of [s] holds at the start of one of its words returns
    [s] as stored, with score 1, when the limit is above the number of
    sessions stored before. *)
Theorem search_finds_word (now : Z) (st : Store) (s : SessionMemory)
    (w : list ascii) (limit : Z) :
  word w ->
  starts_a_word w (Mem.summary s) \/ starts_a_word w (Mem.description s)
  \/ starts_a_word w (Mem.lastUserMessage s) ->
  Z.of_nat (List.length (sessions st)) < limit ->
  exists r,
    In r (search bm25 highlight (save now st s) (of_chars w) limit)
    /\ session r = stored s
    /\ score r = 1%Q.
Proof.
  intros Hw Hin Hlimit.
  set (new := row_of_session (next_rowid (sessions st)) now s).
  assert (Hidx : index_matches
                   {| Sqlite.terms := [map Sqlite.to_lower w]; Sqlite.prefix_query := true |}
                   (sessions_fts (save now st s)) = true).
  { rewrite sessions_fts_save, index_matches_app. fold new.
    unfold index_matches at 2. cbn [existsb]. rewrite orb_false_r.
    unfold Sqlite.phrase_matches. cbn [Sqlite.terms Sqlite.prefix_query].
    unfold fts_entry. cbn [fts_tokens]. unfold fts_values, new.
    cbn [row_of_session Col.id Col.summary Col.description Col.tasks_json
         Col.files_created_json Col.files_modified_json Col.last_user_message
         Col.last_assistant_message Col.tags_json map existsb Sqlite.tokenize_value].
    destruct Hin as [H|[H|H]]; rewrite (starts_a_word_indexed w _ Hw H);
      rewrite ?orb_true_r; reflexivity. }
  assert (Hlike : like_any (of_chars w) new = true).
  { unfold like_any, new. cbn [row_of_session Col.summary Col.description Col.last_user_message].
    destruct Hin as [H|[H|H]]; rewrite (starts_a_word_like w _ Hw H);
      rewrite ?orb_true_r; reflexivity. }
  exists (fallback_result new). split; [|split].
  - rewrite search_cases, (fts5_parse_word w Hw), Hidx. cbn [negb].
    destruct (Z.eqb_spec limit 0) as [->|_]; [lia|]. cbn [orb].
    rewrite simplSearch_rows. apply in_map.
    unfold Sqlite.limit. destruct (Z.ltb_spec limit 0); [lia|].
    rewrite firstn_all2.
    + apply (Permutation_in _ (Permutation_sym (sort_perm _ _))).
      apply filter_In. split; [|exact Hlike]. rewrite sessions_save.
      apply in_or_app. right. now left.
    + unfold Sqlite.order_by_desc. rewrite (Permutation_length (sort_perm _ _)).
      eapply Nat.le_trans; [apply filter_length_le|].
      eapply Nat.le_trans; [apply length_sessions_save|]. lia.
  - cbn [fallback_result session]. apply rowToSession_row_of_session.
  - reflexivity.
Qed.

End WordSearch.

Lemma search_finds_word_witness :
  word (Sqlite.chars "authentication")
  /\ (starts_a_word (Sqlite.chars "authentication") (Mem.summary authSession)
      \/ starts_a_word (Sqlite.chars "authentication") (Mem.description authSession)
      \/ starts_a_word (Sqlite.chars "authentication") (Mem.lastUserMessage authSession))
  /\ Z.of_nat (List.length (sessions emptyStore)) < 20
  /\ exists r,
       In r (search flat_bm25 plain_highlight (save jan12 emptyStore authSession)
               (of_chars (Sqlite.chars "authentication")) 20)
       /\ session r = stored authSession
       /\ score r = 1%Q.
Proof.
  assert (H1 : word (Sqlite.chars "authentication")) by (split; [discriminate|reflexivity]).
  assert (H2 : starts_a_word (Sqlite.chars "authentication") (Mem.summary authSession)
               \/ starts_a_word (Sqlite.chars "authentication") (Mem.description authSession)
               \/ starts_a_word (Sqlite.chars "authentication")
                    (Mem.lastUserMessage authSession)).
  { left. exists (Sqlite.chars "Implemented "), (Sqlite.chars " feature").
    split; [reflexivity|]. split; [reflexivity|].
    right. exists (Sqlite.chars "Implemented"), " "%char. split; reflexivity. }
  assert (H3 : Z.of_nat (List.length (sessions emptyStore)) < 20) by (cbn; lia).
  split; [exact H1|]. split; [exact H2|]. split; [exact H3|].
  exact (search_finds_word flat_bm25 plain_highlight jan12 emptyStore authSession
           (Sqlite.chars "authentication") 20 H1 H2 H3).
Defined.

(** ** runCleanup: the logs of archived sessions *)

Lemma Forall2_refl {A} (R : A -> A -> Prop) (l : list A) :
  (forall x, R x x) -> Forall2 R l l.
Proof. intros H. induction l; constructor; auto. Qed.

Lemma Forall2_trans {A} (R : A -> A -> Prop) (l1 l2 l3 : list A) :
  (forall x y z, R x y -> R y z -> R x z) ->
  Forall2 R l1 l2 -> Forall2 R l2 l3 -> Forall2 R l1 l3.
Proof.
  intros HR H12. revert l3. induction H12 as [|x y l1 l2 Hxy H12 IH]; intros l3 H23.
  - inversion H23. constructor.
  - inversion H23 as [|? z ? l3' Hyz H23']; subst. constructor; eauto.
Qed.

Lemma Forall2_In_r {A} (R : A -> A -> Prop) (l1 l2 : list A) (y : A) :
  Forall2 R l1 l2 -> In y l2 -> exists x, In x l1 /\ R x y.
Proof.
  induction 1 as [|x0 y0 l1 l2 H0 H IH]; cbn; [easy|].
  intros [<-|Hy]; [exists x0; auto|].
  destruct (IH Hy) as (x & Hx & Hxy). exists x. auto.
Qed.

Lemma Forall2_map_update (R : Row -> Row -> Prop) (cond : Row -> bool) (assign : Row -> Row)
    (rows : list Row) :
  (forall r, R r r) -> (forall r, R r (assign r)) ->
  Forall2 R rows (map (fun r => if cond r then assign r else r) rows).
Proof.
  intros H1 H2. induction rows as [|r rows IH]; cbn; constructor; [|exact IH].
  destruct (cond r); auto.
Qed.

Lemma only_archive_path_set_refl (r : Row) : only_archive_path_set r r.
Proof. unfold only_archive_path_set. auto. Qed.

Lemma only_archive_path_set_trans (r1 r2 r3 : Row) :
  only_archive_path_set r1 r2 -> only_archive_path_set r2 r3 ->
  only_archive_path_set r1 r3.
Proof.
  intros (A1 & A2 & A3 & A4) (B1 & B2 & B3 & B4). unfold only_archive_path_set.
  repeat split; try congruence. auto.
Qed.

Section ArchivedLogs.
Variable Blob : Type.
Variable blob_size : Blob -> Z.
Variable gzipSync : Blob -> Blob.
Variable homedir : string.

(* Step 2, from the world it starts in: rows only get archive paths,
   files only come, and the rows of a session of the list that had a log
   on disk and no archive path have one in the end. *)
Lemma compress_archived_done (clock : Z) (archivedSessions : list SessionMemory) :
  forall (w : World Blob) (n : Z),
    let w' := fst (compress_archived gzipSync homedir clock archivedSessions w n) in
    Forall2 only_archive_path_set (sessions (store w)) (sessions (store w'))
    /\ (forall p, existsSync (files w) p = true -> existsSync (files w') p = true)
    /\ (forall r' s,
          In r' (sessions (store w')) -> In s archivedSessions ->
          Mem.id s = Col.id r' ->
          Js.truthy_string (Mem.logFile s) = true ->
          Js.truthy_opt_string (Mem.logFileArchived s) = false ->
          existsSync (files w) (Mem.logFile s) = true ->
          Js.truthy_opt_string (Col.log_file_archived r') = true).
Proof.
  induction archivedSessions as [|s0 rest IH]; intros w n; cbn [compress_archived].
  - cbn. split; [apply Forall2_refl, only_archive_path_set_refl|]. split; [auto|].
    intros r' s _ [].
  - destruct (Js.truthy_string (Mem.logFile s0)) eqn:Hlog;
      destruct (Js.truthy_opt_string (Mem.logFileArchived s0)) eqn:Harch; cbn [andb negb].
    1,3,4: destruct (IH w n) as (I1 & I2 & I3); cbv zeta;
           (split; [exact I1|]; split; [exact I2|]);
           intros r' s Hr' [->|Hs] Hid Hl Ha He; [congruence|now apply (I3 r' s)].
    destruct (readFileSync (files w) (Mem.logFile s0)) as [content|] eqn:Hread.
    + assert (Hne : Mem.logFile s0 <> EmptyString)
        by (intros E; rewrite E in Hlog; discriminate).
      rewrite (compressLogFile_some _ gzipSync homedir clock w s0 content Hne Hread).
      set (w1 := {| store := updateArchivePath clock (store w) (Mem.id s0)
                              (archive_path homedir s0);
                    files := writeFileSync (files w) (archive_path homedir s0)
                               (gzipSync content) |}).
      destruct (IH w1 (n + 1)) as (I1 & I2 & I3). cbv zeta.
      assert (Hfiles : forall p, existsSync (files w) p = true -> existsSync (files w1) p = true).
      { intros p Hp. unfold existsSync in *. cbn [w1 files].
        destruct (String.eqb_spec p (archive_path homedir s0)) as [->|Hp'].
        - now rewrite readFileSync_write_same.
        - now rewrite readFileSync_write_other. }
      assert (Hstep : Forall2 only_archive_path_set (sessions (store w)) (sessions (store w1))).
      { cbn [w1 store]. unfold updateArchivePath. cbn [sql_update fst sessions].
        apply Forall2_map_update; [apply only_archive_path_set_refl|].
        intros r. unfold only_archive_path_set. cbn [Col.update Col.id Col.archived
          Col.log_file Col.log_file_archived Js.truthy_opt_string].
        repeat split. intros _. apply path_join_not_empty. }
      split; [|split].
      * eapply Forall2_trans; [apply only_archive_path_set_trans|exact Hstep|exact I1].
      * auto.
      * intros r' s Hr' [->|Hs] Hid Hl Ha He; [|apply (I3 r' s); auto].
        destruct (Forall2_In_r _ _ _ _ I1 Hr') as (r1 & Hr1 & (J1 & _ & _ & J4)).
        apply J4. cbn [w1 store] in Hr1. unfold updateArchivePath in Hr1.
        cbn [sql_update fst sessions] in Hr1. apply in_map_iff in Hr1 as (r & <- & Hr).
        destruct (String.eqb_spec (Col.id r) (Mem.id s)) as [E|E].
        -- cbn [Col.update Col.log_file_archived Js.truthy_opt_string].
           apply path_join_not_empty.
        -- exfalso. apply E.
           destruct (String.eqb (Col.id r) (Mem.id s)) in J1; cbn in J1; congruence.
    + rewrite compressLogFile_none by (right; exact Hread).
      destruct (IH w n) as (I1 & I2 & I3). cbv zeta.
      split; [exact I1|]. split; [exact I2|].
      intros r' s Hr' [->|Hs] Hid Hl Ha He; [|now apply (I3 r' s)].
      unfold existsSync in He. rewrite Hread in He. discriminate.
Qed.


End ArchivedLogs.

